(** * osm-to-3dprint: the geometry-to-mesh pipeline, embedded and verified

    The development follows the three source units of the repository:
    - [GeometryProcessor] (geometry-processor.js): the mesh arena, the fan
      triangulator and the line bufferer;
    - [STLGenerator] (stl-generator.js): the ASCII STL serializer and the
      structural mesh validator;
    - [OSMToSTL] (the application class): the height fallback chain, the
      layer pipeline and the validating wrapper around the serializer.

    JavaScript numbers are IEEE-754 binary64 values.  Every function is
    written once, over the interface [JS.Num] of the arithmetic the source
    uses.  The program is the instance [JS.Double], the kernel's binary64
    floats: the statements hold for every instance or are made at
    [JS.Double].  [JS.Exact], the real numbers, is a second instance
    without rounding, on which no statement rests alone.  Array lengths
    and face indices are integers and are modelled in [Z]. *)

From Stdlib Require Import ZArith List String Ascii Bool Lia QArith.
From Stdlib Require Import PrimFloat SpecFloat FloatOps.
From Stdlib Require FloatAxioms.
From Stdlib Require Import Reals.
From Stdlib Require Import DecimalString.
From stdpp Require Import gmap strings.
Import ListNotations.

Set Default Proof Using "Type".

(* ===================================================================== *)
(** ** JavaScript numbers *)
(* ===================================================================== *)

Module JS.

(** The operations on numbers that the sources use.  [dec m e] is the
    number denoted by the decimal literal [m]e[e], i.e. the number value of
    m * 10^e; [eqb] is [===] on numbers, [ltb] and [leb] are [<] and [<=]. *)
Class Num : Type := {
  num : Type;
  dec : Z -> Z -> num;
  add : num -> num -> num;
  sub : num -> num -> num;
  mul : num -> num -> num;
  div : num -> num -> num;
  neg : num -> num;
  sqrt : num -> num;
  abs : num -> num;
  max : num -> num -> num;
  eqb : num -> num -> bool;
  ltb : num -> num -> bool;
  leb : num -> num -> bool;
  isNaN : num -> bool
}.

Declare Scope js_scope.
Delimit Scope js_scope with js.
Notation "x + y" := (add x y) : js_scope.
Notation "x - y" := (sub x y) : js_scope.
Notation "x * y" := (mul x y) : js_scope.
Notation "x / y" := (div x y) : js_scope.
Notation "- x" := (neg x) : js_scope.
Notation "x === y" := (eqb x y) (at level 70, no associativity) : js_scope.
Notation "x !== y" := (negb (eqb x y)) (at level 70, no associativity) : js_scope.
Notation "x <? y" := (ltb x y) : js_scope.
Notation "x >? y" := (ltb y x) : js_scope.
Notation "x <=? y" := (leb x y) : js_scope.
Notation "x >=? y" := (leb y x) : js_scope.

(** Integer literals. *)
Definition int `{Num} (z : Z) : num := dec z 0.

(** *** Decimal tokens

    [parseFloat] applied to a token of the shape digits[.digits] (the only
    strings the height parser passes to it). *)

Definition is_digit (c : ascii) : bool :=
  let n := nat_of_ascii c in ((48 <=? n) && (n <=? 57))%nat.

Definition digit_value (c : ascii) : Z := Z.of_nat (nat_of_ascii c - 48).

Fixpoint digits_value (acc : Z) (s : string) : Z :=
  match s with
  | EmptyString => acc
  | String c s' => digits_value (10 * acc + digit_value c) s'
  end.

(** Splits a token at its first dot: integer digits and fraction digits. *)
Fixpoint split_dot (s : string) : string * string :=
  match s with
  | EmptyString => (EmptyString, EmptyString)
  | String c s' =>
      if Ascii.eqb c "."%char then (EmptyString, s')
      else let '(a, b) := split_dot s' in (String c a, b)
  end.

Definition parseFloat `{Num} (token : string) : num :=
  let '(ip, fp) := split_dot token in
  dec (digits_value (digits_value 0 ip) fp) (- Z.of_nat (String.length fp)).

(** *** Binary64 *)

(** The double nearest to m * 10^e (ties to even), by one correctly rounded
    operation on exact integers. *)
Definition double_of_decimal (m e : Z) : float :=
  if (0 <=? e)%Z then SF2Prim (binary_normalize prec emax (m * 10 ^ e) 0 false)
  else
    match m with
    | Z0 => PrimFloat.zero
    | Zpos p =>
        SF2Prim (SFdiv prec emax (S754_finite false p 0)
                   (S754_finite false (Z.to_pos (10 ^ (- e))) 0))
    | Zneg p =>
        SF2Prim (SFdiv prec emax (S754_finite true p 0)
                   (S754_finite false (Z.to_pos (10 ^ (- e))) 0))
    end.

(** [Math.max] on two numbers: NaN is contagious and +0 is above -0. *)
Definition double_max (a b : float) : float :=
  if PrimFloat.is_nan a || PrimFloat.is_nan b then PrimFloat.nan
  else if PrimFloat.ltb a b then b
  else if PrimFloat.ltb b a then a
  else if PrimFloat.get_sign a then b else a.

Definition Double : Num := {|
  num := float;
  dec := double_of_decimal;
  add := PrimFloat.add;
  sub := PrimFloat.sub;
  mul := PrimFloat.mul;
  div := PrimFloat.div;
  neg := PrimFloat.opp;
  sqrt := PrimFloat.sqrt;
  abs := PrimFloat.abs;
  max := double_max;
  eqb := PrimFloat.eqb;
  ltb := PrimFloat.ltb;
  leb := PrimFloat.leb;
  isNaN := PrimFloat.is_nan
|}.

(** *** Exact arithmetic *)

Definition real_of_decimal (m e : Z) : R :=
  if (0 <=? e)%Z then IZR (m * 10 ^ e) else (IZR m / IZR (10 ^ (- e)))%R.

Definition real_eqb (x y : R) : bool := if Req_dec_T x y then true else false.
Definition real_ltb (x y : R) : bool := if Rlt_dec x y then true else false.
Definition real_leb (x y : R) : bool := if Rle_dec x y then true else false.
Definition real_isNaN (x : R) : bool := false.

Definition Exact : Num := {|
  num := R;
  dec := real_of_decimal;
  add := Rplus;
  sub := Rminus;
  mul := Rmult;
  div := Rdiv;
  neg := Ropp;
  sqrt := R_sqrt.sqrt;
  abs := Rabs;
  max := Rmax;
  eqb := real_eqb;
  ltb := real_ltb;
  leb := real_leb;
  isNaN := real_isNaN
|}.

(** A number type determines its arithmetic. *)
Canonical Structure Double.
Canonical Structure Exact.

End JS.

Import JS.


(* ===================================================================== *)
(** ** Arrays *)
(* ===================================================================== *)

(** [arr.length]. *)
Definition len {A : Type} (arr : list A) : Z := Z.of_nat (length arr).

(** The values taken by [i] in [for (let i = lo; i < hi; i++)]. *)
Definition forRange (lo hi : Z) : list Z :=
  map (fun k => lo + Z.of_nat k)%Z (seq 0 (Z.to_nat (hi - lo))).

(** [arr[i]]; [None] stands for [undefined]. *)
Definition at_index {A : Type} (arr : list A) (i : Z) : option A :=
  if (i <? 0)%Z then None else nth_error arr (Z.to_nat i).

(** [arr[i]] where the source has established that [i] is in range. *)
Definition item {A : Type} (d : A) (arr : list A) (i : Z) : A :=
  nth (Z.to_nat i) arr d.

(* ===================================================================== *)
(** ** Mesh data *)
(* ===================================================================== *)

Section MeshData.
Context `{Num}.

(** [[x, y]], [[x, y, z]] and a face, an array of vertex indices. *)
Definition Point : Type := num * num.
Definition Vertex : Type := num * num * num.
Definition Face : Type := list Z.

(** The object [{ vertices, faces }]. *)
Record Mesh : Type := { vertices : list Vertex; faces : list Face }.

End MeshData.

(* ===================================================================== *)
(** ** geometry-processor.js *)
(* ===================================================================== *)

Module GeometryProcessor.
Section WithNum.
Context `{Num}.

(** The fields [this.vertices] and [this.faces] are a [Mesh]; the
    constructor and [reset] give [empty], [getMesh] is the record itself. *)
Definition empty : Mesh := {| vertices := []; faces := [] |}.
Definition reset (this : Mesh) : Mesh := empty.
Definition getMesh (this : Mesh) : Mesh := this.

Definition createSolidBase (baseSize baseThickness : num) : Mesh :=
  let o := int 0 in
  {| vertices :=
       [ (o, o, o);
         (baseSize, o, o);
         (baseSize, baseSize, o);
         (o, baseSize, o);
         (o, o, baseThickness);
         (baseSize, o, baseThickness);
         (baseSize, baseSize, baseThickness);
         (o, baseSize, baseThickness) ];
     faces :=
       [ [0; 1; 5]; [0; 5; 4];
         [1; 2; 6]; [1; 6; 5];
         [2; 3; 7]; [2; 7; 6];
         [3; 0; 4]; [3; 4; 7];
         [4; 5; 6]; [4; 6; 7];
         [0; 1; 2]; [0; 2; 3] ]%Z |}.

Definition fanTriangulate (loopIndices : list Z) (facesOut : list Face)
  : list Face :=
  if (len loopIndices <? 3)%Z then facesOut
  else
    facesOut ++
    map (fun i => [item 0 loopIndices 0; item 0 loopIndices i;
                   item 0 loopIndices (i + 1)])%Z
        (forRange 1 (len loopIndices - 1)).

(** "Remove duplicate last point if present": the conditional expression
    that the three ring consumers share. *)
Definition endsMeet (coords : list Point) : bool :=
  match coords with
  | [] => false
  | first :: _ =>
      let last := List.last coords first in
      (fst first === fst last)%js && (snd first === snd last)%js
  end.

Definition cleanCoords (coords : list Point) : list Point :=
  if endsMeet coords then removelast coords else coords.

Definition addPrismFromPolygon (coords : list Point) (z0 z1 : num)
    (this : Mesh) : Mesh :=
  if (len coords <? 3)%Z then this
  else
    let cleanCoords := cleanCoords coords in
    let n := len cleanCoords in
    if (n >? 500)%Z then this
    else
      let baseIndex := len (vertices this) in
      let pairs :=
        flat_map (fun '(x, y) => [(x, y, z0); (x, y, z1)]) cleanCoords in
      let sideFaces :=
        flat_map (fun i =>
          let iNext := ((i + 1) mod n)%Z in
          let b1 := (baseIndex + 2 * i)%Z in
          let t1 := (baseIndex + 2 * i + 1)%Z in
          let b2 := (baseIndex + 2 * iNext)%Z in
          let t2 := (baseIndex + 2 * iNext + 1)%Z in
          [[b1; b2; t1]; [t1; b2; t2]]) (forRange 0 n) in
      let topStart := (baseIndex + 1)%Z in
      let bottomStart := baseIndex in
      let capFaces :=
        flat_map (fun i =>
          [[bottomStart; bottomStart + 2 * (i + 1); bottomStart + 2 * i];
           [topStart; topStart + 2 * i; topStart + 2 * (i + 1)]]%Z)
          (forRange 1 (n - 1)) in
      {| vertices := vertices this ++ pairs;
         faces := faces this ++ sideFaces ++ capFaces |}.

Definition triangulatePolygon (coords : list Point) : list Face :=
  if ((len coords <? 3) || (len coords >? 1000))%Z then []
  else
    let cleanCoords := cleanCoords coords in
    if ((len cleanCoords <? 3) || (len cleanCoords >? 1000))%Z then []
    else
      let n := len cleanCoords in
      map (fun i => [0; i; i + 1]%Z) (forRange 1 (n - 1)).

Definition addPrismFromPolygonTriangulated (coords : list Point)
    (z0 z1 : num) (this : Mesh) : Mesh :=
  if ((len coords <? 3) || (len coords >? 1000))%Z then this
  else
    let cleanCoords := cleanCoords coords in
    if ((len cleanCoords <? 3) || (len cleanCoords >? 1000))%Z then this
    else
      let n := len cleanCoords in
      let triangles := triangulatePolygon cleanCoords in
      if (len triangles =? 0)%Z then this
      else
        let bottomStart := len (vertices this) in
        let withBottom :=
          vertices this ++ map (fun '(x, y) => (x, y, z0)) cleanCoords in
        let topStart := len withBottom in
        let withTop :=
          withBottom ++ map (fun '(x, y) => (x, y, z1)) cleanCoords in
        let capFaces :=
          flat_map (fun tri =>
            let t := item 0%Z tri in
            [[bottomStart + t 0; bottomStart + t 2; bottomStart + t 1];
             [topStart + t 0; topStart + t 1; topStart + t 2]]%Z)
            triangles in
        let wallFaces :=
          flat_map (fun i =>
            let j := ((i + 1) mod n)%Z in
            let b1 := (bottomStart + i)%Z in
            let t1 := (topStart + i)%Z in
            let b2 := (bottomStart + j)%Z in
            let t2 := (topStart + j)%Z in
            [[b1; b2; t1]; [t1; b2; t2]]) (forRange 0 n) in
        {| vertices := withTop;
           faces := faces this ++ capFaces ++ wallFaces |}.

(** The local tangent [(dx, dy)] that the buffer loop computes at index
    [i]; the loop only runs when the line has at least two points, so the
    three accesses are in range. *)
Definition tangent (coords : list Point) (i : Z) : num * num :=
  let c := item (int 0, int 0) coords in
  if (i =? 0)%Z then
    ((fst (c 1%Z) - fst (c 0%Z))%js, (snd (c 1%Z) - snd (c 0%Z))%js)
  else if (i =? len coords - 1)%Z then
    ((fst (c i) - fst (c (i - 1)%Z))%js, (snd (c i) - snd (c (i - 1)%Z))%js)
  else
    let dx1 := (fst (c i) - fst (c (i - 1)%Z))%js in
    let dy1 := (snd (c i) - snd (c (i - 1)%Z))%js in
    let dx2 := (fst (c (i + 1)%Z) - fst (c i))%js in
    let dy2 := (snd (c (i + 1)%Z) - snd (c i))%js in
    (((dx1 + dx2) / int 2)%js, ((dy1 + dy2) / int 2)%js).

Definition tangentLength (coords : list Point) (i : Z) : num :=
  let '(dx, dy) := tangent coords i in sqrt (dx * dx + dy * dy)%js.

(** One round of the offset loop: what it pushes to [left] and to [right]
    (nothing on [continue]). *)
Definition offsetAt (coords : list Point) (halfWidth : num) (i : Z)
  : list (Point * Point) :=
  let '(dx, dy) := tangent coords i in
  let len := sqrt (dx * dx + dy * dy)%js in
  if (len <? dec 1 (-10))%js then []
  else
    let perpX := (- dy / len * halfWidth)%js in
    let perpY := (dx / len * halfWidth)%js in
    let p := item (int 0, int 0) coords i in
    [ (((fst p + perpX)%js, (snd p + perpY)%js),
       ((fst p - perpX)%js, (snd p - perpY)%js)) ].

Definition bufferLineString (coords : list Point) (width : num)
  : list (list Point) :=
  if (len coords <? 2)%Z then []
  else
    let halfWidth := (width / int 2)%js in
    let pushed := flat_map (offsetAt coords halfWidth) (forRange 0 (len coords)) in
    let left := map fst pushed in
    let right := map snd pushed in
    let o := (int 0, int 0) in
    map (fun i => [item o left i; item o right i;
                   item o right (i + 1)%Z; item o left (i + 1)%Z])
        (forRange 0 (len left - 1)).

End WithNum.
End GeometryProcessor.

(* ===================================================================== *)
(** ** Strings *)
(* ===================================================================== *)

(** The line feed of the template literals. *)
Definition nl : string := String (ascii_of_nat 10) EmptyString.

(** [String(i)] for an integer-valued number. *)
Definition showZ (i : Z) : string := NilZero.string_of_int (Z.to_int i).

Fixpoint skip (n : nat) (s : string) : string :=
  match n, s with
  | O, _ => s
  | S n', String _ s' => skip n' s'
  | S _, EmptyString => EmptyString
  end.

(** [s.replace(pattern, replacement)] for a string pattern: the first
    occurrence, if any, is replaced ([replacement] holds no [$]). *)
Fixpoint replace (pattern replacement s : string) : string :=
  if String.prefix pattern s
  then (replacement ++ skip (String.length pattern) s)%string
  else
    match s with
    | EmptyString => EmptyString
    | String c s' => String c (replace pattern replacement s')
    end.

(** [s.includes(pattern)]. *)
Fixpoint includes (pattern s : string) : bool :=
  String.prefix pattern s ||
  match s with
  | EmptyString => false
  | String _ s' => includes pattern s'
  end.

(** *** [Number.prototype.toFixed] on binary64

    A finite double is exactly [m * 2^e]; the digits below are computed on
    that exact value, as ECMA-262 prescribes. *)

Definition digitsOf (n : Z) : string :=
  NilZero.string_of_uint (N.to_uint (Z.to_N n)).

Fixpoint zeros (k : nat) : string :=
  match k with
  | O => EmptyString
  | S k' => String "0"%char (zeros k')
  end.

(** The decimal digits of [n] with a point before the last [f] of them. *)
Definition fixedDigits (n : Z) (f : nat) : string :=
  let m := digitsOf n in
  if (f =? 0)%nat then m
  else
    let k := String.length m in
    let m := if (k <=? f)%nat then (zeros (f + 1 - k) ++ m)%string else m in
    let k := String.length m in
    (substring 0 (k - f) m ++ "." ++ substring (k - f) f m)%string.

(** The integer [n] for which [n / 10^f] is nearest to [m * 2^e], the
    larger one on a tie. *)
Definition scaledNearest (m e : Z) (f : nat) : Z :=
  if (0 <=? e)%Z then (m * 2 ^ e * 10 ^ Z.of_nat f)%Z
  else ((2 * m * 10 ^ Z.of_nat f + 2 ^ (- e)) / (2 * 2 ^ (- e)))%Z.

(** [Number::toString] of a finite double of magnitude at least 1e21:
    the fewest digits [s] (of length [k]) such that [s * 10^(n-k)] still
    reads back as the same double, the nearest such on a choice, an even
    [s] on a tie. *)
Definition shortestDigits (m e : Z) : Z * Z :=
  let V := (m * 2 ^ e)%Z in
  let up := (2 ^ e)%Z in
  let down := (if m =? 2 ^ 52 then 2 ^ (e - 1) else 2 ^ e)%Z in
  let inside y :=
    (if Z.even m
     then (2 * V - down <=? 2 * y) && (2 * y <=? 2 * V + up)
     else (2 * V - down <? 2 * y) && (2 * y <? 2 * V + up))%Z in
  let nd := Z.of_nat (String.length (digitsOf V)) in
  let candidates k :=
    flat_map (fun n =>
      let p := (10 ^ (n - k))%Z in
      List.filter (fun '(s, _) =>
                (10 ^ (k - 1) <=? s)%Z && (s <? 10 ^ k)%Z && inside (s * p)%Z)
             [((V / p)%Z, n); ((V / p + 1)%Z, n)])
      [nd; (nd + 1)%Z] in
  let better '(s1, n1) '(s2, n2) k :=
    let d1 := Z.abs (s1 * 10 ^ (n1 - k) - V) in
    let d2 := Z.abs (s2 * 10 ^ (n2 - k) - V) in
    ((d1 <? d2) || ((d1 =? d2) && Z.even s1))%Z in
  let best k :=
    fold_left (fun acc c =>
      match acc with
      | None => Some c
      | Some b => if better b c k then Some b else Some c
      end) (candidates k) None in
  let fix search (fuel : nat) (k : Z) : Z * Z :=
    match fuel with
    | O => (V, nd)
    | S fuel' =>
        match best k with
        | Some c => c
        | None => search fuel' (k + 1)%Z
        end
    end in
  search 17%nat 1%Z.

Definition exponentText (m e : Z) : string :=
  let '(s, n) := shortestDigits m e in
  let d := digitsOf s in
  match d with
  | String c EmptyString => (d ++ "e+" ++ showZ (n - 1))%string
  | String c rest => (String c ("." ++ rest) ++ "e+" ++ showZ (n - 1))%string
  | EmptyString => d
  end.

Definition double_toFixed (x : float) (f : nat) : string :=
  match Prim2SF x with
  | S754_nan => "NaN"
  | S754_infinity s => if s then "-Infinity" else "Infinity"
  | S754_zero _ => fixedDigits 0 f
  | S754_finite s m e =>
      let sign := if s then "-" else EmptyString in
      if ((0 <=? e) && (10 ^ 21 <=? Zpos m * 2 ^ e))%Z
      then (sign ++ exponentText (Zpos m) e)%string
      else (sign ++ fixedDigits (scaledNearest (Zpos m) e f) f)%string
  end.

(* ===================================================================== *)
(** ** stl-generator.js *)
(* ===================================================================== *)

Module STLGenerator.
Section WithNum.
Context `{Num}.

(** [n.toFixed(digits)] of the host. *)
Variable toFixed : num -> nat -> string.

Definition formatNum (n : num) : string := toFixed n 6.

(** The array [normal] before it is normalized: the cross product of the
    edges [v1 - v0] and [v2 - v0]. *)
Definition crossProduct (v0 v1 v2 : Vertex) : Vertex :=
  let '(x0, y0, z0) := v0 in
  let '(x1, y1, z1) := v1 in
  let '(x2, y2, z2) := v2 in
  let '(e1x, e1y, e1z) := ((x1 - x0)%js, (y1 - y0)%js, (z1 - z0)%js) in
  let '(e2x, e2y, e2z) := ((x2 - x0)%js, (y2 - y0)%js, (z2 - z0)%js) in
  ((e1y * e2z - e1z * e2y)%js,
   (e1z * e2x - e1x * e2z)%js,
   (e1x * e2y - e1y * e2x)%js).

(** [len], the length of that product. *)
Definition vectorLength (normal : Vertex) : num :=
  let '(nx, ny, nz) := normal in sqrt (nx * nx + ny * ny + nz * nz)%js.

(** The normal that is printed: the product divided by its length, or +Z
    when the length is not above 1e-10. *)
Definition normalOf (v0 v1 v2 : Vertex) : Vertex :=
  let normal := crossProduct v0 v1 v2 in
  let len := vectorLength normal in
  let '(nx, ny, nz) := normal in
  if (len >? dec 1 (-10))%js
  then ((nx / len)%js, (ny / len)%js, (nz / len)%js)
  else (int 0, int 0, int 1).

Definition vertexLine (v : Vertex) : string :=
  let '(x, y, z) := v in
  "      vertex " ++ formatNum x ++ " " ++ formatNum y ++ " " ++ formatNum z
  ++ nl.

(** The seven lines appended for one triangle. *)
Definition facetText (v0 v1 v2 : Vertex) : string :=
  let '(nx, ny, nz) := normalOf v0 v1 v2 in
  "  facet normal " ++ formatNum nx ++ " " ++ formatNum ny ++ " "
    ++ formatNum nz ++ nl
  ++ "    outer loop" ++ nl
  ++ vertexLine v0
  ++ vertexLine v1
  ++ vertexLine v2
  ++ "    endloop" ++ nl
  ++ "  endfacet" ++ nl.

(** One round of [faces.forEach]: [Some ""] when the face is skipped,
    [None] when a vertex is [undefined] and reading its coordinate throws
    a TypeError. *)
Definition facet (vertices : list Vertex) (face : Face) : option string :=
  if negb (len face =? 3)%Z then Some EmptyString
  else
    match at_index vertices (item 0%Z face 0),
          at_index vertices (item 0%Z face 1),
          at_index vertices (item 0%Z face 2) with
    | Some v0, Some v1, Some v2 => Some (facetText v0 v1 v2)
    | _, _, _ => None
    end.

Fixpoint facets (vertices : list Vertex) (faces : list Face)
    (stlContent : string) : option string :=
  match faces with
  | [] => Some stlContent
  | face :: rest =>
      match facet vertices face with
      | Some text => facets vertices rest (stlContent ++ text)%string
      | None => None
      end
  end.

(** [None] is the TypeError of a face that refers to a missing vertex. *)
Definition generateSTL (vertices : list Vertex) (faces : list Face)
    (filename : string) : option string :=
  let stlContent := ("solid " ++ replace ".stl" "" filename ++ nl)%string in
  match facets vertices faces stlContent with
  | Some stlContent =>
      Some (stlContent ++ "endsolid " ++ replace ".stl" "" filename ++ nl)%string
  | None => None
  end.

Record Validation : Type := { valid : bool; errors : list string }.

(** The errors pushed for the face at position [idx]. *)
Definition faceErrors (vertices : list Vertex) (idx : Z) (face : Face)
  : list string :=
  if negb (len face =? 3)%Z then
    [("Face " ++ showZ idx ++ " has " ++ showZ (len face)
        ++ " vertices (expected 3)")%string]
  else
    flat_map (fun vertexIdx =>
      if ((vertexIdx <? 0) || (vertexIdx >=? len vertices))%Z
      then [("Face " ++ showZ idx ++ " references invalid vertex index "
               ++ showZ vertexIdx)%string]
      else []) face.

Definition validateMesh (vertices : list Vertex) (faces : list Face)
  : Validation :=
  let errors :=
    (if (len vertices =? 0)%Z then ["No vertices in mesh"] else [])
    ++ (if (len faces =? 0)%Z then ["No faces in mesh"] else [])
    ++ flat_map (fun '(idx, face) => faceErrors vertices idx face)
         (combine (forRange 0 (len faces)) faces) in
  {| valid := (len errors =? 0)%Z; errors := errors |}.

End WithNum.
End STLGenerator.

(* ===================================================================== *)
(** ** The application class *)
(* ===================================================================== *)

Module OSMToSTL.
Section WithNum.
Context `{Num}.

(** A tag value as [getBuildingHeight] tells them apart: a number, a
    string, or something else (a boolean, [null], an object). *)
Inductive TagValue : Type :=
| TagNumber (n : num)
| TagString (s : string)
| TagOther.

(** A parsed feature: its [type] with its [coordinates] (the rings of a
    polygon, the first being the exterior, or the points of a line), and
    its [tags] object. *)
Inductive Geometry : Type :=
| Polygon (rings : list (list Point))
| LineString (line : list Point).

Record Feature : Type := {
  geometry : Geometry;
  tags : gmap string TagValue
}.

Record Config : Type := {
  targetSize : num;
  maxHeight : num;
  defaultHeight : num;
  baseThickness : num;
  includeRoads : bool;
  includeGreens : bool;
  includeWater : bool;
  roadWidth : num;
  roadHeight : num
}.

(** [[north, east, south, west]]. *)
Definition BBox : Type := num * num * num * num.

(** *** The height of a building *)

(** The longest prefix of digits, and what follows it. *)
Fixpoint takeDigits (s : string) : string * string :=
  match s with
  | EmptyString => (EmptyString, EmptyString)
  | String c s' =>
      if is_digit c
      then let '(d, r) := takeDigits s' in (String c d, r)
      else (EmptyString, s)
  end.

(** The match of [\d+\.?\d*] that starts at the first character. *)
Definition decimalPrefix (s : string) : option string :=
  let '(d1, r1) := takeDigits s in
  match d1 with
  | EmptyString => None
  | _ =>
      match r1 with
      | String c r2 =>
          if Ascii.eqb c "."%char
          then let '(d2, _) := takeDigits r2 in Some (d1 ++ "." ++ d2)%string
          else Some d1
      | EmptyString => Some d1
      end
  end.

(** [height.match] with that pattern: the group of the leftmost match. *)
Fixpoint matchDecimal (s : string) : option string :=
  match decimalPrefix s with
  | Some token => Some token
  | None =>
      match s with
      | EmptyString => None
      | String _ s' => matchDecimal s'
      end
  end.

Definition heightAttrs : list string :=
  ["height"; "building:height"; "building:levels"]%string.

(** The loop [for (const attr of heightAttrs)] over the attributes that
    remain, ending in [return defaultHeight]. *)
Fixpoint heightFrom (tags : gmap string TagValue) (attrs : list string)
    (defaultHeight : num) : num :=
  match attrs with
  | [] => defaultHeight
  | attr :: rest =>
      match tags !! attr with
      | Some (TagNumber height) =>
          if negb (isNaN height) then
            if String.eqb attr "building:levels"
            then (height * int 3)%js
            else height
          else heightFrom tags rest defaultHeight
      | Some (TagString height) =>
          match matchDecimal height with
          | Some token => parseFloat token
          | None => heightFrom tags rest defaultHeight
          end
      | Some TagOther | None => heightFrom tags rest defaultHeight
      end
  end.

Definition getBuildingHeight (feature : Feature) (defaultHeight : num)
  : num :=
  heightFrom (tags feature) heightAttrs defaultHeight.

(** *** The arena of the application

    [this.vertices] and [this.faces] of the application are handed to the
    geometry processor by reference and taken back after each call, so the
    two objects work on one mesh. *)

Definition createSolidBase (baseSize baseThickness : num) : Mesh :=
  GeometryProcessor.createSolidBase baseSize baseThickness.

Definition addPrismFromPolygon (coords : list Point) (z0 z1 : num)
    (this : Mesh) : Mesh :=
  GeometryProcessor.addPrismFromPolygon coords z0 z1 this.

Definition addPrismFromPolygonTriangulated (coords : list Point)
    (z0 z1 : num) (this : Mesh) : Mesh :=
  GeometryProcessor.addPrismFromPolygonTriangulated coords z0 z1 this.

Definition bufferLineString (coords : list Point) (width : num)
  : list (list Point) :=
  GeometryProcessor.bufferLineString coords width.

(** *** Projection *)

Definition baseSizeOf (config : Config) : num :=
  (targetSize config * dec 12 (-1))%js.

Definition toModelXY (bbox : BBox) (config : Config) (p : Point) : Point :=
  let '(north, east, south, west) := bbox in
  let '(lon, lat) := p in
  let latRange := (north - south)%js in
  let lonRange := (east - west)%js in
  let baseSize := baseSizeOf config in
  let scaleX := (targetSize config / lonRange)%js in
  let scaleY := (targetSize config / latRange)%js in
  let centerOffsetX := ((baseSize - scaleX * lonRange) / int 2)%js in
  let centerOffsetY := ((baseSize - scaleY * latRange) / int 2)%js in
  (((lon - west) * scaleX + centerOffsetX)%js,
   ((lat - south) * scaleY + centerOffsetY)%js).

(** "Ensure polygon is closed": [None] when the ring is empty, where
    reading [modelCoords[0][0]] throws. *)
Definition closeRing (modelCoords : list Point) : option (list Point) :=
  match modelCoords with
  | [] => None
  | first :: _ =>
      let last := List.last modelCoords first in
      if (fst first !== fst last)%js || (snd first !== snd last)%js
      then Some (modelCoords ++ [first])
      else Some modelCoords
  end.

(** *** Loops *)

(** A loop whose body may throw: the exception ends the loop. *)
Definition forEachM {I S : Type} (body : I -> S -> option S)
    (items : list I) (s : S) : option S :=
  fold_left (fun acc i =>
               match acc with
               | Some s' => body i s'
               | None => None
               end) items (Some s).

Definition CHUNK_SIZE : Z := 50.

(** The indices visited by the chunk loop and the loop inside it. *)
Definition chunkedIndices (length : Z) : list Z :=
  let totalChunks := ((length + CHUNK_SIZE - 1) / CHUNK_SIZE)%Z in
  flat_map (fun chunk =>
    let start := (chunk * CHUNK_SIZE)%Z in
    let end_ := Z.min (start + CHUNK_SIZE) length in
    forRange start end_) (forRange 0 totalChunks).

(** [maxBuildingHeight] after the first pass over the features. *)
Definition maxBuildingHeightOf (features : list Feature) (config : Config)
  : num :=
  fold_left (fun maxBuildingHeight feature =>
               max maxBuildingHeight
                   (getBuildingHeight feature (defaultHeight config)))
            features (int 0).

Definition heightScaleOf (features : list Feature) (config : Config)
  : num :=
  let maxBuildingHeight := maxBuildingHeightOf features config in
  if (maxBuildingHeight >? int 0)%js
  then (maxHeight config / maxBuildingHeight)%js
  else int 1.

(** The body of the buildings loop (the same text in [processLayer] and
    in [scaleCoordinates]). *)
Definition buildingStep (bbox : BBox) (config : Config) (heightScale : num)
    (feature : Feature) (this : Mesh) : option Mesh :=
  match geometry feature with
  | Polygon rings =>
      match rings with
      | [] => None
      | exterior :: _ =>
          if (len exterior >? 500)%Z then Some this
          else
            match closeRing (map (toModelXY bbox config) exterior) with
            | None => None
            | Some modelCoords =>
                let height :=
                  (getBuildingHeight feature (defaultHeight config)
                   * heightScale)%js in
                Some (addPrismFromPolygon modelCoords (baseThickness config)
                        (baseThickness config + height)%js this)
            end
      end
  | LineString _ => Some this
  end.

(** The body of the roads loop. *)
Definition roadStep (bbox : BBox) (config : Config) (feature : Feature)
    (this : Mesh) : option Mesh :=
  match geometry feature with
  | LineString line =>
      if (len line >=? 2)%Z then
        let roadWidth := roadWidth config in
        let z0 := (baseThickness config + dec 2 (-2))%js in
        let z1 := (z0 + roadHeight config)%js in
        let minX := int 0 in
        let minY := int 0 in
        let maxX := baseSizeOf config in
        let maxY := baseSizeOf config in
        let modelCoords := map (toModelXY bbox config) line in
        let buffered := bufferLineString modelCoords roadWidth in
        Some (fold_left (fun this quad =>
          if (len quad <? 3)%Z then this
          else
            let validQuad :=
              List.filter (fun '(x, y) =>
                (x >=? minX - roadWidth)%js && (x <=? maxX + roadWidth)%js &&
                (y >=? minY - roadWidth)%js && (y <=? maxY + roadWidth)%js)
                quad in
            if (len validQuad >=? 3)%Z then
              let first := item (int 0, int 0) validQuad 0 in
              let last := item (int 0, int 0) validQuad (len validQuad - 1) in
              let validQuad :=
                if (abs (fst first - fst last) >? dec 1 (-6))%js
                   || (abs (snd first - snd last) >? dec 1 (-6))%js
                then validQuad ++ [first]
                else validQuad in
              addPrismFromPolygonTriangulated validQuad z0 z1 this
            else this) buffered this)
      else Some this
  | Polygon _ => Some this
  end.

(** The body of the greens and water loops. *)
Definition areaStep (bbox : BBox) (config : Config) (feature : Feature)
    (this : Mesh) : option Mesh :=
  match geometry feature with
  | Polygon rings =>
      match rings with
      | [] => None
      | exterior :: _ =>
          let z0 := (baseThickness config + dec 1 (-2))%js in
          let z1 := (z0 + dec 5 (-1))%js in
          match closeRing (map (toModelXY bbox config) exterior) with
          | None => None
          | Some modelCoords =>
              Some (addPrismFromPolygonTriangulated modelCoords z0 z1 this)
          end
      end
  | LineString _ => Some this
  end.

(** [features[i]] inside a loop over the indices of [features]. *)
Definition atFeature (step : Feature -> Mesh -> option Mesh)
    (features : list Feature) (i : Z) (this : Mesh) : option Mesh :=
  match at_index features i with
  | Some feature => step feature this
  | None => None
  end.

(** [processLayer]: the mesh of one layer, built in a fresh arena; the
    arena of [this] is put back before returning, so only the result is
    kept here.  [None] is an exception that leaves the function. *)
Definition processLayer (features : list Feature) (bbox : BBox)
    (config : Config) (layerType : string) : option Mesh :=
  let temp := GeometryProcessor.empty in
  if (len features =? 0)%Z then Some GeometryProcessor.empty
  else
    let indices := chunkedIndices (len features) in
    if String.eqb layerType "buildings" then
      let heightScale := heightScaleOf features config in
      forEachM (atFeature (buildingStep bbox config heightScale) features)
               indices temp
    else if String.eqb layerType "roads" then
      forEachM (atFeature (roadStep bbox config) features) indices temp
    else if String.eqb layerType "greens" || String.eqb layerType "water" then
      forEachM (atFeature (areaStep bbox config) features) indices temp
    else Some temp.

(** [scaleCoordinates]: the combined mesh, the base plate first. *)
Definition scaleCoordinates (buildings roads greens water : list Feature)
    (bbox : BBox) (config : Config) : option Mesh :=
  let base := createSolidBase (baseSizeOf config) (baseThickness config) in
  let this :=
    {| vertices := [] ++ vertices base; faces := [] ++ faces base |} in
  let stage (enabled : bool) (step : Feature -> Mesh -> option Mesh)
      (features : list Feature) (this : Mesh) : option Mesh :=
    if enabled && (len features >? 0)%Z
    then forEachM (atFeature step features) (forRange 0 (len features)) this
    else Some this in
  match stage true
          (buildingStep bbox config (heightScaleOf buildings config))
          buildings this with
  | None => None
  | Some this =>
      match stage (includeRoads config) (roadStep bbox config) roads this with
      | None => None
      | Some this =>
          match stage (includeGreens config) (areaStep bbox config)
                  greens this with
          | None => None
          | Some this =>
              stage (includeWater config) (areaStep bbox config) water this
          end
      end
  end.

(** *** Parsing the map data *)

(** An element of the answer of the map service, as [parseOSMData] reads
    it: a node with its [id], [lat] and [lon]; a way with its [nodes] (the
    empty list stands for a missing field as well, the guard skips both)
    and its [tags] (empty when missing: [way.tags || {}]); or an element of
    another type.  [data.elements] is the list of elements, empty when the
    field is missing. *)
Inductive Element : Type :=
| Node (id : Z) (lat lon : num)
| Way (nodes : list Z) (tags : gmap string TagValue)
| OtherElement.

(** "First pass: index all nodes": the object [nodes] and the array
    [ways] after [data.elements.forEach]. *)
Definition firstPass (elements : list Element)
  : gmap Z (num * num) * list (list Z * gmap string TagValue) :=
  fold_left (fun '(nodes, ways) element =>
               match element with
               | Node id lat lon => (<[id := (lat, lon)]> nodes, ways)
               | Way wayNodes wayTags => (nodes, ways ++ [(wayNodes, wayTags)])
               | OtherElement => (nodes, ways)
               end) elements (∅, []).

(** [way.nodes.map(...).filter(coord => coord !== null)]: the points
    [[lon, lat]] of the node references that resolve. *)
Definition wayCoords (nodes : gmap Z (num * num)) (wayNodes : list Z)
  : list Point :=
  let mapped :=
    map (fun nodeId =>
           match nodes !! nodeId with
           | Some (lat, lon) => Some (lon, lat)
           | None => None
           end) wayNodes in
  flat_map (fun coord => match coord with Some c => [c] | None => [] end)
           mapped.

(** One round of [ways.forEach]: what it pushes to [geometries]. *)
Definition geometryOfWay (nodes : gmap Z (num * num))
    (way : list Z * gmap string TagValue) : list Feature :=
  let '(wayNodes, wayTags) := way in
  if (len wayNodes >=? 2)%Z then
    let coords := wayCoords nodes wayNodes in
    if (len coords >=? 2)%Z then
      let first := item (int 0, int 0) coords 0 in
      let last := item (int 0, int 0) coords (len coords - 1) in
      let isClosed :=
        (len coords >=? 4)%Z
        && (abs (fst first - fst last) <? dec 1 (-9))%js
        && (abs (snd first - snd last) <? dec 1 (-9))%js in
      if isClosed && (len coords >=? 4)%Z then
        let coords :=
          if (fst first !== fst last)%js || (snd first !== snd last)%js
          then coords ++ [first]
          else coords in
        [{| geometry := Polygon [coords]; tags := wayTags |}]
      else if (len coords >=? 2)%Z then
        [{| geometry := LineString coords; tags := wayTags |}]
      else []
    else []
  else [].

Definition parseOSMData (elements : list Element) : list Feature :=
  let '(nodes, ways) := firstPass elements in
  flat_map (geometryOfWay nodes) ways.

(** *** Serialization *)

Variable toFixed : num -> nat -> string.

(** The wrapper around the serializer: what it passes to [console.warn]
    (the error list of a failed validation), and what it returns. *)
Definition generateSTL (vertices : list Vertex) (faces : list Face)
    (filename : string) : list (list string) * option string :=
  let validation := STLGenerator.validateMesh vertices faces in
  let warned :=
    if negb (STLGenerator.valid validation)
    then [STLGenerator.errors validation]
    else [] in
  (warned, STLGenerator.generateSTL toFixed vertices faces filename).

End WithNum.
End OSMToSTL.

(* ===================================================================== *)
(** ** Reference shapes *)
(* ===================================================================== *)

(** The fan of a [k]-gon anchored at vertex 0: the triangles (0, i, i+1)
    for i = 1 .. k-2. *)
Definition fan (k : Z) : list Face :=
  map (fun i => [0; i; i + 1]%Z) (forRange 1 (k - 1)).

(** [s] without its ending [suffix], when it has that ending. *)
Fixpoint endsWith (suffix s : string) : bool :=
  String.eqb suffix s ||
  match s with
  | EmptyString => false
  | String _ s' => endsWith suffix s'
  end.

Definition stripSuffix (suffix s : string) : string :=
  if endsWith suffix s
  then substring 0 (String.length s - String.length suffix) s
  else s.

(** A text of decimal digits only. *)
Fixpoint digitsOnly (s : string) : bool :=
  match s with
  | EmptyString => true
  | String c s' => is_digit c && digitsOnly s'
  end.

(** Fixed notation with six decimals: an optional minus sign, at least one
    digit, a point, six digits. *)
Definition sixDecimals (text : string) : Prop :=
  exists sign whole fraction : string,
    text = (sign ++ whole ++ "." ++ fraction)%string
    /\ (sign = EmptyString \/ sign = "-"%string)
    /\ whole <> EmptyString
    /\ digitsOnly whole = true
    /\ digitsOnly fraction = true
    /\ String.length fraction = 6%nat.

(** A double that is finite and of magnitude below 1e21. *)
Definition fixedRange (x : float) : bool :=
  match Prim2SF x with
  | S754_zero _ => true
  | S754_finite _ m e => negb ((0 <=? e) && (10 ^ 21 <=? Zpos m * 2 ^ e))%Z
  | _ => false
  end.

(** The concatenation of the texts of a list. *)
Definition joined (texts : list string) : string :=
  fold_right String.append EmptyString texts.

(** A text without a decimal digit. *)
Fixpoint noDigits (s : string) : bool :=
  match s with
  | EmptyString => true
  | String c s' => negb (is_digit c) && noDigits s'
  end.

(** The first character of the text, if any, passes the test. *)
Definition leadsWith (test : ascii -> bool) (s : string) : bool :=
  match s with
  | EmptyString => false
  | String c _ => test c
  end.

Section Shapes.
Context `{Num}.

(** Interleaved layout: for each point, its copy at [z0], then at [z1]. *)
Definition pillars (ring : list Point) (z0 z1 : num) : list Vertex :=
  flat_map (fun '(x, y) => [(x, y, z0); (x, y, z1)]) ring.

(** Block layout: a copy of the ring at height [z]. *)
Definition layer (ring : list Point) (z : num) : list Vertex :=
  map (fun '(x, y) => (x, y, z)) ring.

(** The two triangles of the wall over the edge from point [i] to the next
    point of an [n]-gon, when point [i] has its bottom copy at index
    [bottom i] and its top copy at index [top i]. *)
Definition wall (bottom top : Z -> Z) (n i : Z) : list Face :=
  let j := ((i + 1) mod n)%Z in
  [[bottom i; bottom j; top i]; [top i; bottom j; top j]].

Definition walls (bottom top : Z -> Z) (n : Z) : list Face :=
  flat_map (wall bottom top n) (forRange 0 n).

(** The two caps over a list of triangles of the ring: each triangle once
    on the bottom copies, with its last two corners exchanged, and once on
    the top copies. *)
Definition caps (bottom top : Z -> Z) (triangles : list Face) : list Face :=
  flat_map (fun tri =>
    let t := item 0%Z tri in
    [[bottom (t 0%Z); bottom (t 2%Z); bottom (t 1%Z)];
     [top (t 0%Z); top (t 1%Z); top (t 2%Z)]]) triangles.

(** The face invariant of the data model: three indices, each one the
    index of a vertex of the mesh. *)
Definition faceInRange (count : Z) (face : Face) : Prop :=
  length face = 3%nat /\ Forall (fun i => (0 <= i < count)%Z) face.

Definition meshInRange (mesh : Mesh) : Prop :=
  Forall (faceInRange (len (vertices mesh))) (faces mesh).

(** The faces that the serializer reads, those of three indices, hold
    indices of vertices only. *)
Definition trianglesResolve (count : Z) (faces : list Face) : Prop :=
  Forall (fun face : Face =>
            length face = 3%nat -> Forall (fun i => (0 <= i < count)%Z) face)
         faces.

(** The directed edges of a triangle and of a list of faces. *)
Definition edgesOf (face : Face) : list (Z * Z) :=
  match face with
  | [a; b; c] => [(a, b); (b, c); (c, a)]
  | _ => []
  end.

Definition meshEdges (faces : list Face) : list (Z * Z) :=
  flat_map edgesOf faces.

(** A surface without boundary: every edge of a triangle is, in the
    opposite direction, an edge of a triangle. *)
Definition closedSurface (faces : list Face) : Prop :=
  forall a b, In (a, b) (meshEdges faces) -> In (b, a) (meshEdges faces).

(** [this'] is [this] with vertices and faces appended, the new faces
    holding indices of new vertices only. *)
Definition appendsTo (this this' : Mesh) : Prop :=
  exists (newVertices : list Vertex) (newFaces : list Face),
    vertices this' = vertices this ++ newVertices
    /\ faces this' = faces this ++ newFaces
    /\ Forall (Forall (fun i => (len (vertices this) <= i
                                 < len (vertices this'))%Z)) newFaces.

(** The number of points that the offset loop of the line bufferer keeps:
    those whose tangent length is not below the epsilon. *)
Definition leftCount (coords : list Point) : nat :=
  length (List.filter (fun i =>
                    negb (GeometryProcessor.tangentLength coords i
                          <? dec 1 (-10))%js)
                 (forRange 0 (len coords))).

(** What the value of the attribute [attr] gives as a height: [None] when
    the loop passes on to the next attribute. *)
Definition heightOfTag (attr : string) (value : option OSMToSTL.TagValue)
  : option num :=
  match value with
  | Some (OSMToSTL.TagNumber height) =>
      if isNaN height then None
      else if String.eqb attr "building:levels"
           then Some (height * int 3)%js
           else Some height
  | Some (OSMToSTL.TagString height) =>
      option_map parseFloat (OSMToSTL.matchDecimal height)
  | Some OSMToSTL.TagOther | None => None
  end.

(** The input contract of the pipeline: a polygon has an exterior ring
    with at least one point. *)
Definition wellFormed (feature : OSMToSTL.Feature) : Prop :=
  match OSMToSTL.geometry feature with
  | OSMToSTL.Polygon (exterior :: _) => exterior <> []
  | OSMToSTL.Polygon [] => False
  | OSMToSTL.LineString _ => True
  end.

(** A ring with its first point repeated at the end, unless it ends there
    already. *)
Definition autoClosed (ring : list Point) : list Point :=
  match OSMToSTL.closeRing ring with
  | Some closed => closed
  | None => ring
  end.

(** The raw height of a building. *)
Definition rawHeight (config : OSMToSTL.Config) (feature : OSMToSTL.Feature)
  : num :=
  OSMToSTL.getBuildingHeight feature (OSMToSTL.defaultHeight config).

(** What the buildings layer extrudes for one feature, as (ring, z0, z1):
    nothing for a line or for an exterior ring of more than 500 points,
    else the projected, closed exterior ring from the top of the base to
    that plus the scaled raw height. *)
Definition extrusionOf (bbox : OSMToSTL.BBox) (config : OSMToSTL.Config)
    (scale : num) (feature : OSMToSTL.Feature)
  : list (list Point * num * num) :=
  match OSMToSTL.geometry feature with
  | OSMToSTL.Polygon (exterior :: _) =>
      if (len exterior >? 500)%Z then []
      else
        [ (autoClosed (map (OSMToSTL.toModelXY bbox config) exterior),
           OSMToSTL.baseThickness config,
           (OSMToSTL.baseThickness config + rawHeight config feature * scale)%js) ]
  | _ => []
  end.

Definition extrusions (bbox : OSMToSTL.BBox) (config : OSMToSTL.Config)
    (scale : num) (features : list OSMToSTL.Feature)
  : list (list Point * num * num) :=
  flat_map (extrusionOf bbox config scale) features.

Definition extrude (mesh : Mesh) (extrusion : list Point * num * num)
  : Mesh :=
  let '(ring, z0, z1) := extrusion in
  GeometryProcessor.addPrismFromPolygon ring z0 z1 mesh.

(** The kinds of elements that the parser reads. *)
Definition isNode (element : OSMToSTL.Element) : bool :=
  match element with OSMToSTL.Node _ _ _ => true | _ => false end.

Definition isWay (element : OSMToSTL.Element) : bool :=
  match element with OSMToSTL.Way _ _ => true | _ => false end.

(** The shape of a parsed feature: a line of at least two points, or a
    polygon of exactly one ring of at least four points. *)
Definition parsedShape (feature : OSMToSTL.Feature) : Prop :=
  match OSMToSTL.geometry feature with
  | OSMToSTL.Polygon [ring] => (4 <= length ring)%nat
  | OSMToSTL.Polygon _ => False
  | OSMToSTL.LineString line => (2 <= length line)%nat
  end.

(** All the points of a feature. *)
Definition pointsOf (feature : OSMToSTL.Feature) : list Point :=
  match OSMToSTL.geometry feature with
  | OSMToSTL.Polygon rings => concat rings
  | OSMToSTL.LineString line => line
  end.

(** Every ring of the feature ends on its first point, as the ring
    consumers test it. *)
Definition closedRings (feature : OSMToSTL.Feature) : Prop :=
  match OSMToSTL.geometry feature with
  | OSMToSTL.Polygon rings =>
      Forall (fun ring => GeometryProcessor.endsMeet ring = true) rings
  | OSMToSTL.LineString _ => True
  end.

(** [block] is the text of the triangle [face] of a mesh with these
    [vertices]. *)
Definition blockOf (toFixed : num -> nat -> string)
    (vertices : list Vertex) (face : Face) (block : string) : Prop :=
  exists v0 v1 v2,
    at_index vertices (item 0%Z face 0) = Some v0 /\
    at_index vertices (item 0%Z face 1) = Some v1 /\
    at_index vertices (item 0%Z face 2) = Some v2 /\
    block = STLGenerator.facetText toFixed v0 v1 v2.

(** The faces of a mesh with every index moved up by [offset]. *)
Definition shiftFaces (offset : Z) (faces : list Face) : list Face :=
  map (map (Z.add offset)) faces.

(** [mesh] put after [this]: its vertices after those of [this], its
    faces after those of [this], pointing at the same vertices as
    before. *)
Definition attach (this mesh : Mesh) : Mesh :=
  {| vertices := vertices this ++ vertices mesh;
     faces := faces this ++ shiftFaces (len (vertices this)) (faces mesh) |}.

End Shapes.

(* ===================================================================== *)
(** ** Sample inputs *)
(* ===================================================================== *)

Module Sample.

(** The square of the repository's first test, closed. *)
Definition square : list (@Point Double) :=
  [(0, 0); (10, 0); (10, 10); (0, 10); (0, 0)]%float.

(** A triangle whose closing point is given twice. *)
Definition twiceClosed : list (@Point Double) :=
  [(0, 0); (1, 0); (0, 1); (0, 0); (0, 0)]%float.

(** The points (i, i^2) for i = 0 .. count-1: a convex polygon. *)
Definition parabola (count : Z) : list (@Point Double) :=
  map (fun i => (int i, int (i * i))) (forRange 0 count).

(** The same polygon with its first point repeated at the end. *)
Definition closedParabola (count : Z) : list (@Point Double) :=
  parabola count ++ [(int 0, int 0)].

(** The unit cube of the test suite. *)
Definition cubeVertices : list (@Vertex Double) :=
  [(0, 0, 0); (1, 0, 0); (1, 1, 0); (0, 1, 0);
   (0, 0, 1); (1, 0, 1); (1, 1, 1); (0, 1, 1)]%float.

Definition cubeFaces : list Face :=
  [[0; 1; 2]; [0; 2; 3];
   [4; 7; 6]; [4; 6; 5];
   [0; 4; 5]; [0; 5; 1];
   [2; 6; 7]; [2; 7; 3];
   [0; 3; 7]; [0; 7; 4];
   [1; 5; 6]; [1; 6; 2]]%Z.

(** A square building footprint, in degrees, with one [height] tag. *)
Definition building (height : string) : @OSMToSTL.Feature Double :=
  {| OSMToSTL.geometry :=
       OSMToSTL.Polygon
         [[(0.25, 0.25); (0.5, 0.25); (0.5, 0.5); (0.25, 0.5);
           (0.25, 0.25)]%float];
     OSMToSTL.tags := {[ "height"%string := OSMToSTL.TagString height ]} |}.

(** A building whose only height tag is its number of levels. *)
Definition levels (value : @OSMToSTL.TagValue Double)
  : @OSMToSTL.Feature Double :=
  {| OSMToSTL.geometry :=
       OSMToSTL.Polygon
         [[(0.25, 0.25); (0.5, 0.25); (0.5, 0.5); (0.25, 0.5);
           (0.25, 0.25)]%float];
     OSMToSTL.tags := {[ "building:levels"%string := value ]} |}.

Definition unitBox : @OSMToSTL.BBox Double := (1, 1, 0, 0)%float.

(** A model of 180 mm on a base of 2 mm, the tallest building at
    [maxHeight] mm. *)
Definition config (maxHeight : float) : @OSMToSTL.Config Double :=
  {| OSMToSTL.targetSize := 180%float;
     OSMToSTL.maxHeight := maxHeight;
     OSMToSTL.defaultHeight := 40%float;
     OSMToSTL.baseThickness := 2%float;
     OSMToSTL.includeRoads := false;
     OSMToSTL.includeGreens := false;
     OSMToSTL.includeWater := false;
     OSMToSTL.roadWidth := 1%float;
     OSMToSTL.roadHeight := 1%float |}.

(** The heights of the vertices of a mesh. *)
Definition heights (mesh : @Mesh Double) : list float :=
  map (fun v : Vertex => snd v) (vertices mesh).

(** Map data: a square building over four nodes, a road over three node
    references of which one does not resolve, and an element of another
    type; the ways come first, as in the answers of the map service. *)
Definition mapData : list (@OSMToSTL.Element Double) :=
  [ OSMToSTL.Way [1; 2; 3; 4; 1]%Z
      {[ "height"%string := OSMToSTL.TagString "10" ]};
    OSMToSTL.Way [1; 9; 3]%Z ∅;
    OSMToSTL.OtherElement;
    OSMToSTL.Node 1 0.25 0.25; OSMToSTL.Node 2 0.25 0.5;
    OSMToSTL.Node 3 0.5 0.5; OSMToSTL.Node 4 0.5 0.25 ]%float.

(** The diagonal of the unit square, as a road of two points. *)
Definition diagonal : list (@Point Double) := [(0, 0); (1, 1)]%float.

(** A diagonal so long that the square of its length is not a finite
    double. *)
Definition farDiagonal : list (@Point Double) :=
  [(0, 0); (0x1p600, 0x1p600)]%float.

(** A configuration whose default height is not a number, as an empty
    input field gives it. *)
Definition configWithoutDefault : @OSMToSTL.Config Double :=
  {| OSMToSTL.targetSize := 180%float;
     OSMToSTL.maxHeight := 20%float;
     OSMToSTL.defaultHeight := PrimFloat.nan;
     OSMToSTL.baseThickness := 2%float;
     OSMToSTL.includeRoads := false;
     OSMToSTL.includeGreens := false;
     OSMToSTL.includeWater := false;
     OSMToSTL.roadWidth := 1%float;
     OSMToSTL.roadHeight := 1%float |}.

(** A road along the diagonal, and a park on the footprint of the sample
    building; a configuration with every layer. *)
Definition road : @OSMToSTL.Feature Double :=
  {| OSMToSTL.geometry :=
       OSMToSTL.LineString [(0.25, 0.25); (0.75, 0.75)]%float;
     OSMToSTL.tags := ∅ |}.

Definition park : @OSMToSTL.Feature Double :=
  {| OSMToSTL.geometry :=
       OSMToSTL.Polygon
         [[(0.25, 0.25); (0.5, 0.25); (0.5, 0.5); (0.25, 0.5);
           (0.25, 0.25)]%float];
     OSMToSTL.tags := ∅ |}.

End Sample.

(** The rational number that a finite double is (0 for the others). *)
Definition exactValue (x : float) : Q :=
  match Prim2SF x with
  | S754_finite s m e =>
      ((if s then -1 else 1) * inject_Z (Zpos m) * Qpower 2 e)%Q
  | _ => 0%Q
  end.

(* ===================================================================== *)
(** * Properties *)
(* ===================================================================== *)

(** ** Arrays and loops *)

(** Decides the integer tests of a guard, one after the other. *)
Ltac decide_guards :=
  rewrite ?Z.gtb_ltb, ?Z.geb_leb;
  repeat
    (match goal with
     | |- context [Z.ltb ?a ?b] => destruct (Z.ltb_spec a b)
     | |- context [Z.leb ?a ?b] => destruct (Z.leb_spec a b)
     | |- context [Z.eqb ?a ?b] => destruct (Z.eqb_spec a b)
     end; try lia; cbn [orb andb negb]).

(** Equality of two lists of faces, index by index. *)
Ltac same_faces :=
  repeat
    (match goal with
     | |- @eq Z _ _ => lia
     | |- cons _ _ = cons _ _ => apply f_equal2
     | |- nil = nil => reflexivity
     end).

(** Every triangle of an explicit list has its indices in range. *)
Ltac each_triangle lemma :=
  repeat
    (match goal with
     | |- Forall _ (cons _ _) => constructor; [apply lemma; try assumption; try lia|]
     | |- Forall _ nil => constructor
     end).

(** Case analysis on the comparisons of integers that a statement
    holds. *)
Ltac compare_cases :=
  repeat match goal with
         | H : context [Pos.compare_cont Eq ?a ?b] |- _ =>
             change (Pos.compare_cont Eq a b) with (Pos.compare a b) in H
         | |- context [Pos.compare_cont Eq ?a ?b] =>
             change (Pos.compare_cont Eq a b) with (Pos.compare a b)
         end;
  repeat match goal with
         | H : context [Z.compare ?a ?b] |- _ =>
             destruct (Z.compare_spec a b); cbn in H; try discriminate H
         | H : context [Pos.compare ?a ?b] |- _ =>
             destruct (Pos.compare_spec a b); cbn in H; try discriminate H
         | |- context [Z.compare ?a ?b] =>
             destruct (Z.compare_spec a b); cbn
         | |- context [Pos.compare ?a ?b] =>
             destruct (Pos.compare_spec a b); cbn
         end;
  subst; try reflexivity; try discriminate; try lia.

(** Finds an edge in an explicit list of edges. *)
Ltac pick_edge :=
  cbn [In];
  repeat (first [ solve [left; apply f_equal2; apply f_equal; lia] | right ]).

(** Proves [j = (k + 1) mod n]. *)
Ltac solve_next k n :=
  first [ rewrite Z.mod_small by lia; lia
        | replace (k + 1)%Z with n by lia; rewrite Z_mod_same_full; lia ].

(** The edge is an edge of the wall over edge [k], respectively of the
    pair of cap triangles [k]. *)
Ltac use_wall k j n :=
  left; exists k, j; split; [lia|split; [solve_next k n|solve [pick_edge]]].

Ltac use_cap k :=
  right; exists k; split; [lia|solve [pick_edge]].

Ltac opposite_edge i n :=
  first [ use_wall i (i + 1)%Z n | use_wall i 0%Z n
        | use_wall (i + 1)%Z (i + 2)%Z n | use_wall (i + 1)%Z 0%Z n
        | use_wall (i - 1)%Z i n | use_wall 0%Z 1%Z n
        | use_wall (n - 1)%Z 0%Z n
        | use_cap i | use_cap (i - 1)%Z | use_cap (i + 1)%Z
        | use_cap 1%Z | use_cap (n - 2)%Z ].

Lemma length_forRange (lo hi : Z) :
  length (forRange lo hi) = Z.to_nat (hi - lo).
Proof. unfold forRange. now rewrite length_map, length_seq. Qed.

Lemma In_forRange (lo hi i : Z) :
  In i (forRange lo hi) <-> (lo <= i < hi)%Z.
Proof.
  unfold forRange. rewrite in_map_iff. split.
  - intros (k & <- & Hk). apply in_seq in Hk. lia.
  - intros Hi. exists (Z.to_nat (i - lo)). split; [lia|].
    apply in_seq. lia.
Qed.

Lemma forRange_nth_error (lo hi : Z) (k : nat) :
  (k < Z.to_nat (hi - lo))%nat ->
  nth_error (forRange lo hi) k = Some (lo + Z.of_nat k)%Z.
Proof.
  intros Hk. unfold forRange.
  rewrite nth_error_map, nth_error_seq by exact Hk.
  destruct (Nat.ltb_spec k (Z.to_nat (hi - lo))); [reflexivity|lia].
Qed.

Lemma length_flat_map_const {A B : Type} (f : A -> list B) (k : nat)
    (l : list A) :
  (forall x, In x l -> length (f x) = k) ->
  length (flat_map f l) = (k * length l)%nat.
Proof.
  induction l as [|x l IH]; intros Hk; simpl; [lia|].
  rewrite length_app, (Hk x (or_introl eq_refl)), IH; [lia|].
  intros y Hy. apply Hk. now right.
Qed.

Lemma Forall_flat_map_intro {A B : Type} (P : B -> Prop) (f : A -> list B)
    (l : list A) :
  (forall x, In x l -> Forall P (f x)) -> Forall P (flat_map f l).
Proof.
  induction l as [|x l IH]; intros Hf; simpl; [constructor|].
  apply Forall_app. split.
  - apply Hf. now left.
  - apply IH. intros y Hy. apply Hf. now right.
Qed.

Lemma len_length {A : Type} (l : list A) : len l = Z.of_nat (length l).
Proof. reflexivity. Qed.

(** ** The closing point *)

Section Arena.
Context `{Num}.
Import GeometryProcessor.

Lemma cleanCoords_cases (coords : list Point) :
  cleanCoords coords = coords \/
  (coords <> [] /\ cleanCoords coords = removelast coords).
Proof.
  unfold cleanCoords. destruct (endsMeet coords) eqn:E; [right|now left].
  split; [|reflexivity]. now intros ->.
Qed.

Lemma length_removelast {A : Type} (l : list A) :
  length (removelast l) = (length l - 1)%nat.
Proof.
  induction l as [|x [|y l] IH]; simpl in *; try reflexivity.
  rewrite IH. lia.
Qed.

Lemma length_cleanCoords (coords : list Point) :
  (length coords - 1 <= length (cleanCoords coords) <= length coords)%nat.
Proof.
  destruct (cleanCoords_cases coords) as [->|[_ ->]]; [lia|].
  rewrite length_removelast. lia.
Qed.

(** ** Fan triangulation *)

Lemma length_fan (k : Z) : length (fan k) = Z.to_nat (k - 2).
Proof.
  unfold fan. rewrite length_map, length_forRange. f_equal. lia.
Qed.

Lemma triangulatePolygon_accepts (coords : list Point) :
  (3 <= length (cleanCoords coords))%nat ->
  (length coords <= 1000)%nat ->
  triangulatePolygon coords = fan (len (cleanCoords coords)).
Proof.
  intros Hk Hraw. pose proof (length_cleanCoords coords) as Hc.
  unfold triangulatePolygon, len. decide_guards. reflexivity.
Qed.

Lemma triangulatePolygon_rejects (coords : list Point) :
  (length coords < 3 \/ 1000 < length coords \/
   length (cleanCoords coords) < 3)%nat ->
  triangulatePolygon coords = [].
Proof.
  intros Hbad. unfold triangulatePolygon, len. decide_guards; reflexivity.
Qed.

End Arena.

(** ** Prisms *)

Section Prisms.
Context `{Num}.
Import GeometryProcessor.

Lemma flat_map_map {A B C : Type} (f : B -> list C) (g : A -> B)
    (l : list A) :
  flat_map f (map g l) = flat_map (fun x => f (g x)) l.
Proof. induction l as [|x l IH]; simpl; [reflexivity|now rewrite IH]. Qed.

Lemma length_pillars (ring : list Point) (z0 z1 : num) :
  length (pillars ring z0 z1) = (2 * length ring)%nat.
Proof.
  unfold pillars. apply length_flat_map_const. now intros [x y] _.
Qed.

Lemma length_layer (ring : list Point) (z : num) :
  length (layer ring z) = length ring.
Proof. unfold layer. apply length_map. Qed.

Lemma length_walls (bottom top : Z -> Z) (n : Z) :
  length (walls bottom top n) = (2 * Z.to_nat n)%nat.
Proof.
  unfold walls. rewrite (length_flat_map_const _ 2%nat).
  - rewrite length_forRange. f_equal. lia.
  - reflexivity.
Qed.

Lemma length_caps (bottom top : Z -> Z) (triangles : list Face) :
  length (caps bottom top triangles) = (2 * length triangles)%nat.
Proof. unfold caps. now apply length_flat_map_const. Qed.

Lemma caps_fan (bottom top : Z -> Z) (k : Z) :
  caps bottom top (fan k) =
  flat_map (fun i => [[bottom 0; bottom (i + 1); bottom i];
                      [top 0; top i; top (i + 1)]]%Z) (forRange 1 (k - 1)).
Proof. unfold caps, fan. now rewrite flat_map_map. Qed.

(** C1. For a ring of n points after the closing point is dropped, with
    3 <= n <= 500, [addPrismFromPolygon] appends exactly 2n vertices, for
    each point its copy at z0 and then its copy at z1, and exactly
    2n + 2(n-2) faces: two wall triangles per edge, then the fan of the
    ring on the bottom copies (reversed) and on the top copies. *)
Theorem addPrismFromPolygon_appends_prism (this : Mesh)
    (coords : list Point) (z0 z1 : num) :
  let ring := cleanCoords coords in
  let n := length ring in
  (3 <= n <= 500)%nat ->
  let this' := addPrismFromPolygon coords z0 z1 this in
  let base := len (vertices this) in
  let bottom := fun i => (base + 2 * i)%Z in
  let top := fun i => (base + 2 * i + 1)%Z in
  vertices this' = vertices this ++ pillars ring z0 z1
  /\ length (pillars ring z0 z1) = (2 * n)%nat
  /\ faces this' =
       faces this ++ walls bottom top (Z.of_nat n)
                  ++ caps bottom top (fan (Z.of_nat n))
  /\ length (walls bottom top (Z.of_nat n)) = (2 * n)%nat
  /\ length (caps bottom top (fan (Z.of_nat n))) = (2 * (n - 2))%nat
  /\ length (vertices this') = (length (vertices this) + 2 * n)%nat
  /\ length (faces this') =
       (length (faces this) + (2 * n + 2 * (n - 2)))%nat.
Proof.
  intros ring n Hn this' base bottom top.
  pose proof (length_cleanCoords coords) as Hraw. fold ring n in Hraw.
  assert (Hv : vertices this' = vertices this ++ pillars ring z0 z1).
  { subst this'. unfold addPrismFromPolygon. fold ring.
    unfold len. fold n. decide_guards. reflexivity. }
  assert (Hf : faces this' =
               faces this ++ walls bottom top (Z.of_nat n)
                          ++ caps bottom top (fan (Z.of_nat n))).
  { subst this'. unfold addPrismFromPolygon. fold ring.
    unfold len at 1 2. fold n. decide_guards. cbn [faces].
    rewrite caps_fan. f_equal. f_equal.
    apply flat_map_ext. intros i. subst bottom top base. cbn beta.
    same_faces. }
  assert (Hw : length (walls bottom top (Z.of_nat n)) = (2 * n)%nat).
  { rewrite length_walls. lia. }
  assert (Hc : length (caps bottom top (fan (Z.of_nat n))) =
               (2 * (n - 2))%nat).
  { rewrite length_caps, length_fan. lia. }
  pose proof (length_pillars ring z0 z1) as Hp. fold n in Hp.
  repeat split; try assumption.
  - rewrite Hv, length_app. lia.
  - rewrite Hf, !length_app. lia.
Qed.

End Prisms.

Import GeometryProcessor.

(** C1, on the square of the test suite: 8 vertices and 12 faces. *)
Lemma addPrismFromPolygon_appends_prism_square :
  (3 <= length (cleanCoords Sample.square) <= 500)%nat /\
  length (vertices (addPrismFromPolygon Sample.square 0%float 5%float empty))
    = 8%nat /\
  length (faces (addPrismFromPolygon Sample.square 0%float 5%float empty))
    = 12%nat.
Proof.
  assert (Hn : (3 <= length (cleanCoords Sample.square) <= 500)%nat)
    by (vm_compute; lia).
  split; [exact Hn|].
  destruct (addPrismFromPolygon_appends_prism empty Sample.square
              0%float 5%float Hn) as (_ & _ & _ & _ & _ & Hv & Hf).
  split; [exact Hv|exact Hf].
Defined.

(** Block layout of the triangulated builder. *)

Section Blocks.
Context `{Num}.

Lemma In_triangulatePolygon (coords : list Point) (tri : Face) :
  In tri (triangulatePolygon coords) ->
  exists i, tri = [0; i; i + 1]%Z /\ (1 <= i)%Z /\ (i + 1 < len coords)%Z.
Proof.
  pose proof (length_cleanCoords coords) as Hc.
  unfold triangulatePolygon, len. decide_guards; try (intros []).
  rewrite in_map_iff. intros (i & <- & Hi). apply In_forRange in Hi.
  exists i. repeat split; lia.
Qed.

(** What the triangulated builder appends once its guards are passed. *)
Lemma addPrismFromPolygonTriangulated_accepts (this : Mesh)
    (coords : list Point) (z0 z1 : num) :
  let ring := cleanCoords coords in
  let k := len ring in
  let bottom := fun i => (len (vertices this) + i)%Z in
  let top := fun i => (len (vertices this) + k + i)%Z in
  (3 <= length ring)%nat -> (length coords <= 1000)%nat ->
  triangulatePolygon ring <> [] ->
  addPrismFromPolygonTriangulated coords z0 z1 this =
  {| vertices := vertices this ++ layer ring z0 ++ layer ring z1;
     faces := faces this ++ caps bottom top (triangulatePolygon ring)
                         ++ walls bottom top k |}.
Proof.
  intros ring k bottom top Hk Hraw Htri.
  pose proof (length_cleanCoords coords) as Hc. fold ring in Hc.
  unfold addPrismFromPolygonTriangulated. fold ring. unfold len at 1 2 3 4.
  decide_guards.
  - destruct (triangulatePolygon ring); [congruence|discriminate].
  - rewrite <- app_assoc. f_equal. f_equal. f_equal.
    + unfold caps. apply flat_map_ext. intros tri.
      subst bottom top k. cbn beta. unfold len.
      rewrite !length_app, length_map. unfold Point. same_faces.
    + unfold walls. apply flat_map_ext. intros i.
      subst bottom top k. unfold wall, len.
      rewrite !length_app, length_map. unfold Point. same_faces.
Qed.

(** C2, amended. For a ring whose cleaned point count k satisfies
    3 <= k <= 1000, whose raw point count is at most 1000, and whose
    cleaned ring does not again end on its first point,
    [addPrismFromPolygonTriangulated] appends exactly 2k vertices, the k
    bottom copies and then the k top copies, and exactly 2(k-2) + 2k
    faces: the k-2 fan triangles on the bottom block (reversed) and on the
    top block, then two wall triangles per edge. *)
Theorem addPrismFromPolygonTriangulated_appends_prism (this : Mesh)
    (coords : list Point) (z0 z1 : num) :
  let ring := cleanCoords coords in
  let k := length ring in
  (3 <= k <= 1000)%nat ->
  (length coords <= 1000)%nat ->
  endsMeet ring = false ->
  let this' := addPrismFromPolygonTriangulated coords z0 z1 this in
  let bottom := fun i => (len (vertices this) + i)%Z in
  let top := fun i => (len (vertices this) + Z.of_nat k + i)%Z in
  vertices this' = vertices this ++ layer ring z0 ++ layer ring z1
  /\ faces this' =
       faces this ++ caps bottom top (fan (Z.of_nat k))
                  ++ walls bottom top (Z.of_nat k)
  /\ length (caps bottom top (fan (Z.of_nat k))) = (2 * (k - 2))%nat
  /\ length (walls bottom top (Z.of_nat k)) = (2 * k)%nat
  /\ length (vertices this') = (length (vertices this) + 2 * k)%nat
  /\ length (faces this') =
       (length (faces this) + (2 * (k - 2) + 2 * k))%nat.
Proof.
  intros ring k Hk Hraw Hopen this' bottom top.
  assert (Hfan : triangulatePolygon ring = fan (Z.of_nat k)).
  { assert (Hclean : cleanCoords ring = ring)
      by (unfold cleanCoords at 1; now rewrite Hopen).
    rewrite triangulatePolygon_accepts; rewrite ?Hclean; fold k;
      [reflexivity|lia|lia]. }
  assert (Hlen : length (fan (Z.of_nat k)) = (k - 2)%nat)
    by (rewrite length_fan; lia).
  assert (Hstep : this' =
    {| vertices := vertices this ++ layer ring z0 ++ layer ring z1;
       faces := faces this ++ caps bottom top (fan (Z.of_nat k))
                           ++ walls bottom top (Z.of_nat k) |}).
  { subst this'. rewrite addPrismFromPolygonTriangulated_accepts;
      fold ring; [now rewrite Hfan| fold k; lia | exact Hraw |].
    rewrite Hfan. intros Hnil. apply (f_equal (@length Face)) in Hnil.
    rewrite Hlen in Hnil. simpl in Hnil. lia. }
  rewrite Hstep. cbn [vertices faces].
  rewrite !length_app, !length_layer, length_caps, length_walls, Hlen.
  fold k. repeat split; lia.
Qed.

End Blocks.

(** C2 on the square of the test suite. *)
Lemma addPrismFromPolygonTriangulated_appends_prism_square :
  ((3 <= length (cleanCoords Sample.square) <= 1000)%nat /\
   (length Sample.square <= 1000)%nat /\
   endsMeet (cleanCoords Sample.square) = false) /\
  length (vertices (addPrismFromPolygonTriangulated Sample.square
                      0%float 5%float empty)) = 8%nat /\
  length (faces (addPrismFromPolygonTriangulated Sample.square
                   0%float 5%float empty)) = 12%nat.
Proof.
  assert (Hk : (3 <= length (cleanCoords Sample.square) <= 1000)%nat)
    by (vm_compute; lia).
  assert (Hraw : (length Sample.square <= 1000)%nat) by (vm_compute; lia).
  assert (Hopen : endsMeet (cleanCoords Sample.square) = false)
    by (vm_compute; reflexivity).
  split; [exact (conj Hk (conj Hraw Hopen))|].
  destruct (addPrismFromPolygonTriangulated_appends_prism empty
              Sample.square 0%float 5%float Hk Hraw Hopen)
    as (_ & _ & _ & _ & Hv & Hf).
  split; [exact Hv|exact Hf].
Defined.

(** C2 as stated fails on a ring whose closing point is given twice: the
    cleaned ring has k = 4 points, and 10 faces are appended, not
    2(k-2) + 2k = 12, because the triangulator drops the closing point
    once more and returns a single triangle. *)
Lemma addPrismFromPolygonTriangulated_twice_closed :
  let this' :=
    addPrismFromPolygonTriangulated Sample.twiceClosed 0%float 1%float empty in
  length Sample.twiceClosed = 5%nat
  /\ length (cleanCoords Sample.twiceClosed) = 4%nat
  /\ triangulatePolygon (cleanCoords Sample.twiceClosed) = [[0; 1; 2]%Z]
  /\ length (vertices this') = 8%nat
  /\ length (faces this') = 10%nat
  /\ length (faces this') <> (2 * (4 - 2) + 2 * 4)%nat.
Proof. vm_compute. repeat split; lia. Qed.

(** ** The fan triangulator *)

Section Triangulator.
Context `{Num}.

Lemma fan_nth_error (k : Z) (i : nat) :
  (1 <= i)%nat -> (Z.of_nat i <= k - 2)%Z ->
  nth_error (fan k) (i - 1) = Some [0; Z.of_nat i; Z.of_nat i + 1]%Z.
Proof.
  intros Hi Hk. unfold fan.
  rewrite nth_error_map, forRange_nth_error by lia.
  cbn [option_map]. do 2 f_equal; same_faces.
Qed.

(** C3, amended. For a ring whose cleaned point count k satisfies
    3 <= k <= 1000 and whose raw point count is at most 1000,
    [triangulatePolygon] returns exactly k-2 triangles, the i-th being
    (0, i, i+1) for i = 1 .. k-2; for an input of fewer than 3 or more than
    1000 points it returns the empty list. *)
Theorem triangulatePolygon_fan (coords : list Point) :
  let k := length (cleanCoords coords) in
  ((3 <= k <= 1000)%nat -> (length coords <= 1000)%nat ->
   triangulatePolygon coords = fan (Z.of_nat k)
   /\ length (triangulatePolygon coords) = (k - 2)%nat
   /\ forall i, (1 <= i <= k - 2)%nat ->
        nth_error (triangulatePolygon coords) (i - 1)
        = Some [0; Z.of_nat i; Z.of_nat i + 1]%Z)
  /\ ((length coords < 3 \/ 1000 < length coords)%nat ->
      triangulatePolygon coords = []).
Proof.
  intros k. split.
  - intros Hk Hraw.
    assert (Hfan : triangulatePolygon coords = fan (Z.of_nat k))
      by (apply triangulatePolygon_accepts; fold k; lia).
    rewrite Hfan. split; [reflexivity|]. split.
    + rewrite length_fan. lia.
    + intros i Hi. apply fan_nth_error; lia.
  - intros Hbad. apply triangulatePolygon_rejects. lia.
Qed.

End Triangulator.

(** C3 on the pentagon of the test suite: three triangles; and on a line
    of two points: none. *)
Lemma triangulatePolygon_fan_pentagon :
  let pentagon : list (@Point Double) :=
    [(0, 0); (5, 0); (6, 3); (3, 5); (0, 3); (0, 0)]%float in
  let segment : list (@Point Double) := [(0, 0); (1, 1)]%float in
  ((3 <= length (cleanCoords pentagon) <= 1000)%nat /\
   (length pentagon <= 1000)%nat /\
   (length segment < 3 \/ 1000 < length segment)%nat) /\
  triangulatePolygon pentagon = [[0; 1; 2]; [0; 2; 3]; [0; 3; 4]]%Z /\
  triangulatePolygon segment = [].
Proof.
  intros pentagon segment.
  assert (Hk : (3 <= length (cleanCoords pentagon) <= 1000)%nat)
    by (vm_compute; lia).
  assert (Hraw : (length pentagon <= 1000)%nat) by (vm_compute; lia).
  assert (Hbad : (length segment < 3 \/ 1000 < length segment)%nat)
    by (left; vm_compute; lia).
  split; [exact (conj Hk (conj Hraw Hbad))|].
  split.
  - exact (proj1 (proj1 (triangulatePolygon_fan pentagon) Hk Hraw)).
  - exact (proj2 (triangulatePolygon_fan segment) Hbad).
Defined.

(** C3 as stated fails on a closed ring of 1001 points: its cleaned point
    count is k = 1000, yet the first guard, on the raw count, rejects it
    and no triangle is returned. *)
Lemma triangulatePolygon_closed_1000_gon :
  let ring := Sample.closedParabola 1000 in
  length ring = 1001%nat
  /\ length (cleanCoords ring) = 1000%nat
  /\ triangulatePolygon ring = []
  /\ length (triangulatePolygon ring) <> (1000 - 2)%nat.
Proof. vm_compute. repeat split; lia. Qed.

(** ** Rejected rings *)

Section Rejection.
Context `{Num}.

Lemma addPrismFromPolygon_rejects (this : Mesh) (coords : list Point)
    (z0 z1 : num) :
  (length coords < 3 \/ 500 < length (cleanCoords coords))%nat ->
  addPrismFromPolygon coords z0 z1 this = this.
Proof.
  intros Hbad. unfold addPrismFromPolygon, len. decide_guards; reflexivity.
Qed.

Lemma addPrismFromPolygonTriangulated_rejects (this : Mesh)
    (coords : list Point) (z0 z1 : num) :
  (length coords < 3 \/ 1000 < length coords \/
   length (cleanCoords coords) < 3)%nat ->
  addPrismFromPolygonTriangulated coords z0 z1 this = this.
Proof.
  intros Hbad. unfold addPrismFromPolygonTriangulated, len at 1 2 3 4.
  decide_guards; reflexivity.
Qed.

(** C6. A ring of more than 500 points after cleanup leaves the mesh of
    [addPrismFromPolygon] unchanged; a ring of more than 1000 points, or of
    fewer than 3 (before or after cleanup), leaves the mesh of
    [addPrismFromPolygonTriangulated] unchanged and gets no triangle from
    [triangulatePolygon]. *)
Theorem oversized_rings_leave_mesh_unchanged (this : Mesh)
    (coords : list Point) (z0 z1 : num) :
  ((500 < length (cleanCoords coords))%nat ->
   addPrismFromPolygon coords z0 z1 this = this)
  /\ ((1000 < length coords \/ 1000 < length (cleanCoords coords) \/
       length coords < 3 \/ length (cleanCoords coords) < 3)%nat ->
      addPrismFromPolygonTriangulated coords z0 z1 this = this
      /\ triangulatePolygon coords = []).
Proof.
  pose proof (length_cleanCoords coords) as Hc. split.
  - intros Hbig. apply addPrismFromPolygon_rejects. now right.
  - intros Hbad. split.
    + apply addPrismFromPolygonTriangulated_rejects. lia.
    + apply triangulatePolygon_rejects. lia.
Qed.

End Rejection.

(** C6 on the test suite's kind of input: an open ring of 600 points for
    the simple builder, one of 1001 points for the triangulated one. *)
Lemma oversized_rings_leave_mesh_unchanged_samples :
  let mesh := addPrismFromPolygon Sample.square 0%float 1%float empty in
  ((500 < length (cleanCoords (Sample.parabola 600)))%nat /\
   (1000 < length (Sample.parabola 1001) \/
    1000 < length (cleanCoords (Sample.parabola 1001)) \/
    length (Sample.parabola 1001) < 3 \/
    length (cleanCoords (Sample.parabola 1001)) < 3)%nat) /\
  addPrismFromPolygon (Sample.parabola 600) 0%float 1%float mesh = mesh /\
  addPrismFromPolygonTriangulated (Sample.parabola 1001) 0%float 1%float mesh
    = mesh /\
  triangulatePolygon (Sample.parabola 1001) = [].
Proof.
  intros mesh.
  assert (H500 : (500 < length (cleanCoords (Sample.parabola 600)))%nat)
    by (vm_compute; lia).
  assert (H1000 :
    (1000 < length (Sample.parabola 1001) \/
     1000 < length (cleanCoords (Sample.parabola 1001)) \/
     length (Sample.parabola 1001) < 3 \/
     length (cleanCoords (Sample.parabola 1001)) < 3)%nat)
    by (left; vm_compute; lia).
  split; [exact (conj H500 H1000)|].
  split.
  - exact (proj1 (oversized_rings_leave_mesh_unchanged mesh
                    (Sample.parabola 600) 0%float 1%float) H500).
  - exact (proj2 (oversized_rings_leave_mesh_unchanged mesh
                    (Sample.parabola 1001) 0%float 1%float) H1000).
Defined.

(** ** The face invariant *)

Section Invariant.
Context `{Num}.

Lemma faceInRange_mono (count count' : Z) (face : Face) :
  (count <= count')%Z -> faceInRange count face -> faceInRange count' face.
Proof.
  intros Hle [Hlen Hidx]. split; [exact Hlen|].
  eapply List.Forall_impl; [|exact Hidx]. cbn beta. intros i Hi. lia.
Qed.

Lemma triangleInRange (count a b c : Z) :
  (0 <= a < count)%Z -> (0 <= b < count)%Z -> (0 <= c < count)%Z ->
  faceInRange count [a; b; c].
Proof. intros Ha Hb Hc. split; [reflexivity|]. repeat constructor; lia. Qed.

(** A mesh stays in range when vertices are appended and the new faces
    are in range of the new vertex count. *)
Lemma meshInRange_append (this : Mesh) (newVertices : list Vertex)
    (newFaces : list Face) :
  meshInRange this ->
  Forall (faceInRange (len (vertices this ++ newVertices))) newFaces ->
  meshInRange {| vertices := vertices this ++ newVertices;
                 faces := faces this ++ newFaces |}.
Proof.
  intros Hold Hnew. unfold meshInRange. cbn [vertices faces].
  apply Forall_app. split; [|exact Hnew].
  eapply List.Forall_impl; [|exact Hold]. intros face.
  apply faceInRange_mono. unfold len. rewrite length_app. lia.
Qed.

Lemma wallsInRange (bottom top : Z -> Z) (n count : Z) :
  (forall i, 0 <= i < n -> 0 <= bottom i < count /\ 0 <= top i < count)%Z ->
  Forall (faceInRange count) (walls bottom top n).
Proof.
  intros Hidx. apply Forall_flat_map_intro. intros i Hi.
  apply In_forRange in Hi.
  assert (Hj : (0 <= (i + 1) mod n < n)%Z) by (apply Z.mod_pos_bound; lia).
  destruct (Hidx i Hi) as [Hb Ht]. destruct (Hidx _ Hj) as [Hb' Ht'].
  unfold wall. each_triangle triangleInRange.
Qed.

Lemma capsInRange (bottom top : Z -> Z) (n count : Z)
    (triangles : list Face) :
  (forall i, 0 <= i < n -> 0 <= bottom i < count /\ 0 <= top i < count)%Z ->
  (forall tri, In tri triangles ->
     exists i, tri = [0; i; i + 1] /\ 1 <= i /\ i + 1 < n)%Z ->
  Forall (faceInRange count) (caps bottom top triangles).
Proof.
  intros Hidx Hfan. apply Forall_flat_map_intro. intros tri Htri.
  destruct (Hfan tri Htri) as (i & -> & Hlo & Hhi). unfold item. cbn.
  destruct (Hidx 0%Z) as [? ?]; [lia|].
  destruct (Hidx i) as [? ?]; [lia|].
  destruct (Hidx (i + 1)%Z) as [? ?]; [lia|].
  each_triangle triangleInRange.
Qed.

Lemma In_fan (k : Z) (tri : Face) :
  In tri (fan k) ->
  exists i, tri = [0; i; i + 1]%Z /\ (1 <= i)%Z /\ (i + 1 < k)%Z.
Proof.
  unfold fan. rewrite in_map_iff. intros (i & <- & Hi).
  apply In_forRange in Hi. exists i. repeat split; lia.
Qed.

Lemma createSolidBase_inRange (baseSize baseThickness : num) :
  meshInRange (createSolidBase baseSize baseThickness).
Proof.
  unfold meshInRange, createSolidBase, len. cbn.
  repeat constructor; lia.
Qed.

Lemma addPrismFromPolygon_inRange (this : Mesh) (coords : list Point)
    (z0 z1 : num) :
  meshInRange this -> meshInRange (addPrismFromPolygon coords z0 z1 this).
Proof.
  intros Hok. pose proof (length_cleanCoords coords) as Hc.
  unfold addPrismFromPolygon, len at 1 2. decide_guards; try exact Hok.
  set (ring := cleanCoords coords) in *.
  set (base := len (vertices this)).
  apply (meshInRange_append this
           (flat_map (fun '(x, y) => [(x, y, z0); (x, y, z1)]) ring));
    [exact Hok|].
  assert (Hcount :
    len (vertices this
         ++ flat_map (fun '(x, y) => [(x, y, z0); (x, y, z1)]) ring)
    = (base + 2 * Z.of_nat (length ring))%Z).
  { unfold len, base. rewrite length_app.
    change (flat_map _ ring) with (pillars ring z0 z1).
    rewrite length_pillars. unfold len. lia. }
  rewrite Hcount. unfold base, len.
  apply Forall_app. split.
  - apply (wallsInRange (fun i => _ + 2 * i)%Z (fun i => _ + 2 * i + 1)%Z).
    intros i Hi. lia.
  - apply Forall_flat_map_intro. intros i Hi. apply In_forRange in Hi.
    each_triangle triangleInRange.
Qed.

Lemma addPrismFromPolygonTriangulated_inRange (this : Mesh)
    (coords : list Point) (z0 z1 : num) :
  meshInRange this ->
  meshInRange (addPrismFromPolygonTriangulated coords z0 z1 this).
Proof.
  intros Hok. pose proof (length_cleanCoords coords) as Hc.
  unfold addPrismFromPolygonTriangulated, len at 1 2 3 4.
  decide_guards; try exact Hok.
  set (ring := cleanCoords coords) in *.
  rewrite <- app_assoc.
  apply (meshInRange_append this (layer ring z0 ++ layer ring z1));
    [exact Hok|].
  assert (Hcount :
    len (vertices this ++ layer ring z0 ++ layer ring z1)
    = (len (vertices this) + 2 * Z.of_nat (length ring))%Z).
  { unfold len. rewrite !length_app, !length_layer. lia. }
  rewrite Hcount.
  assert (Htop : len (vertices this ++ layer ring z0)
                 = (len (vertices this) + Z.of_nat (length ring))%Z).
  { unfold len. rewrite length_app, length_layer. lia. }
  change (map (fun '(x, y) => (x, y, z0)) ring) with (layer ring z0).
  rewrite Htop. unfold len at 4. apply Forall_app. split.
  - apply (capsInRange (fun i => _ + i)%Z (fun i => _ + _ + i)%Z
             (Z.of_nat (length ring))).
    + intros i Hi. unfold len in *. lia.
    + intros tri Htri. apply In_triangulatePolygon in Htri.
      exact Htri.
  - apply (wallsInRange (fun i => _ + i)%Z (fun i => _ + _ + i)%Z).
    intros i Hi. unfold len in *. lia.
Qed.

(** C10. From a mesh whose faces all have exactly three indices, each the
    index of one of its vertices, [addPrismFromPolygon] and
    [addPrismFromPolygonTriangulated] lead, on any input, to a mesh with
    the same property, and the mesh returned by [createSolidBase] has it
    as well (the call leaves the arena as it is). *)
Theorem arena_operations_keep_faces_in_range (this : Mesh) :
  meshInRange this ->
  (forall baseSize baseThickness,
     meshInRange (createSolidBase baseSize baseThickness))
  /\ (forall coords z0 z1,
        meshInRange (addPrismFromPolygon coords z0 z1 this))
  /\ (forall coords z0 z1,
        meshInRange (addPrismFromPolygonTriangulated coords z0 z1 this)).
Proof.
  intros Hok. split; [|split].
  - intros. apply createSolidBase_inRange.
  - intros. now apply addPrismFromPolygon_inRange.
  - intros. now apply addPrismFromPolygonTriangulated_inRange.
Qed.

End Invariant.

(** C10 on the base plate of the test suite, extended by two prisms. *)
Lemma arena_operations_keep_faces_in_range_base :
  let base : @Mesh Double := createSolidBase 100%float 2%float in
  meshInRange base /\
  meshInRange (addPrismFromPolygon Sample.square 2%float 7%float base) /\
  meshInRange
    (addPrismFromPolygonTriangulated Sample.square 2%float 3%float base).
Proof.
  intros base.
  assert (Hbase : meshInRange base) by apply createSolidBase_inRange.
  split; [exact Hbase|].
  destruct (arena_operations_keep_faces_in_range base Hbase)
    as (_ & Hsimple & Htriangulated).
  split; [apply Hsimple|apply Htriangulated].
Defined.

(** ** The validator *)

Section Validator.
Context `{Num}.
Import STLGenerator.

Lemma flat_map_not_nil {A B : Type} (f : A -> list B) (l : list A) :
  flat_map f l <> [] <-> Exists (fun x => f x <> []) l.
Proof.
  induction l as [|x l IH]; simpl.
  - split; [congruence|]. intros Hex. inversion Hex.
  - split.
    + intros Hne. destruct (f x) as [|y ys] eqn:Hfx.
      * apply Exists_cons_tl. apply IH. exact Hne.
      * apply Exists_cons_hd. rewrite Hfx. discriminate.
    + intros Hex Hnil. apply app_eq_nil in Hnil as [Hx Hl].
      inversion Hex as [? ? Hhd|? ? Htl]; subst.
      * now apply Hhd.
      * now apply (proj2 IH Htl).
Qed.

(** A face gets an error exactly when it is not a triangle or holds an
    index outside the vertex list; the position [idx] only shows in the
    message. *)
Lemma faceErrors_not_nil (vertices : list Vertex) (idx : Z) (face : Face) :
  faceErrors vertices idx face <> [] <->
  length face <> 3%nat \/
  Exists (fun i => (i < 0 \/ len vertices <= i)%Z) face.
Proof.
  unfold faceErrors. unfold len at 1.
  destruct (Z.eqb_spec (Z.of_nat (length face)) 3) as [Hthree|Hother];
    cbn [negb].
  - rewrite flat_map_not_nil. split.
    + intros Hex. right. eapply List.Exists_impl; [|exact Hex].
      cbn beta. intros i. rewrite Z.geb_leb.
      destruct (Z.ltb_spec i 0); destruct (Z.leb_spec (len vertices) i);
        cbn [orb]; intros Hne; try lia. now contradiction Hne.
    + intros [Hlen|Hex]; [lia|].
      eapply List.Exists_impl; [|exact Hex].
      cbn beta. intros i Hi. rewrite Z.geb_leb.
      destruct (Z.ltb_spec i 0); destruct (Z.leb_spec (len vertices) i);
        cbn [orb]; try discriminate; lia.
  - split; [intros _; left; lia|discriminate].
Qed.

Lemma Exists_combine_r {A B : Type} (P : B -> Prop) (l1 : list A)
    (l2 : list B) :
  length l1 = length l2 ->
  (Exists (fun p => P (snd p)) (combine l1 l2) <-> Exists P l2).
Proof.
  revert l2. induction l1 as [|x l1 IH]; intros [|y l2] Hlen;
    try discriminate; simpl.
  - split; intros Hex; inversion Hex.
  - injection Hlen as Hlen. specialize (IH l2 Hlen). split.
    + intros Hex. inversion Hex; subst; [now left|right; tauto].
    + intros Hex. inversion Hex; subst; [now left|right; tauto].
Qed.

Lemma validateMesh_errors (vertices : list Vertex) (faces : list Face) :
  errors (validateMesh vertices faces) <> [] <->
  vertices = [] \/ faces = [] \/
  Exists (fun face => length face <> 3%nat) faces \/
  Exists (fun face =>
            Exists (fun i => (i < 0 \/ len vertices <= i)%Z) face) faces.
Proof.
  unfold validateMesh. cbn [errors].
  set (perFace := flat_map _ _).
  assert (HperFace : perFace <> [] <->
    Exists (fun face => length face <> 3%nat \/
              Exists (fun i => (i < 0 \/ len vertices <= i)%Z) face) faces).
  { subst perFace. rewrite flat_map_not_nil.
    rewrite <- (Exists_combine_r _ (forRange 0 (len faces)) faces)
      by (rewrite length_forRange; unfold len; lia).
    split; intros Hex; (eapply List.Exists_impl; [|exact Hex]);
      intros [idx face]; cbn [snd]; apply faceErrors_not_nil. }
  assert (Hsplit :
    Exists (fun face => length face <> 3%nat \/
              Exists (fun i => (i < 0 \/ len vertices <= i)%Z) face) faces
    <-> Exists (fun face => length face <> 3%nat) faces \/
        Exists (fun face =>
                  Exists (fun i => (i < 0 \/ len vertices <= i)%Z) face)
               faces).
  { split; [apply List.Exists_or_inv|apply List.Exists_or]. }
  rewrite <- Hsplit, <- HperFace. clear Hsplit HperFace.
  destruct vertices as [|v vs]; destruct faces as [|f fs]; cbn;
    (split; [intros Hne|intros [Hv|[Hf|Hp]]]);
    try discriminate; try congruence; auto.
Qed.

End Validator.

(** ** The serializer *)

Section Strings.

Lemma append_cons (x : ascii) (a b : string) :
  (String x a ++ b)%string = String x (a ++ b)%string.
Proof. reflexivity. Qed.

Lemma append_assoc (a b c : string) :
  ((a ++ b) ++ c)%string = (a ++ (b ++ c))%string.
Proof.
  induction a as [|x a IH]; [reflexivity|].
  rewrite !append_cons. f_equal. exact IH.
Qed.

Lemma append_empty_r (a : string) : (a ++ "")%string = a.
Proof.
  induction a as [|x a IH]; [reflexivity|].
  rewrite append_cons. f_equal. exact IH.
Qed.

Lemma replace_absent (pattern replacement s : string) :
  includes pattern s = false -> replace pattern replacement s = s.
Proof.
  induction s as [|c s IH]; cbn; intros Hno.
  - apply orb_false_iff in Hno as [Hp _]. now rewrite Hp.
  - apply orb_false_iff in Hno as [Hp Hrest]. rewrite Hp.
    now rewrite IH.
Qed.

(** [.stl] cannot begin inside a stem that does not hold it and end in the
    [.stl] that follows the stem. *)
Lemma stl_not_across (c : ascii) (stem : string) :
  includes ".stl" (String c stem) = false ->
  String.prefix ".stl" (String c stem ++ ".stl") = false.
Proof.
  intros Hno. apply orb_false_iff in Hno as [Hp _]. revert Hp.
  destruct stem as [|c2 [|c3 [|c4 rest]]];
    cbv [append String.prefix];
    repeat (destruct (ascii_dec _ _) as [<-|?]; try reflexivity);
    try discriminate; auto.
  destruct rest; discriminate.
Qed.

Lemma replace_stl_suffix (stem : string) :
  includes ".stl" stem = false ->
  replace ".stl" "" (stem ++ ".stl") = stem.
Proof.
  induction stem as [|c stem IH]; intros Hno; [reflexivity|].
  pose proof (stl_not_across c stem Hno) as Hp.
  rewrite append_cons in Hp |- *. cbn [replace]. rewrite Hp.
  f_equal. apply IH.
  cbn in Hno. now apply orb_false_iff in Hno as [_ Hrest].
Qed.

Lemma substring_prefix (stem suffix : string) :
  substring 0 (String.length stem) (stem ++ suffix) = stem.
Proof.
  induction stem as [|c stem IH].
  - cbn. now destruct suffix.
  - rewrite append_cons. cbn. f_equal. exact IH.
Qed.

Lemma length_append (a b : string) :
  String.length (a ++ b) = (String.length a + String.length b)%nat.
Proof.
  induction a as [|c a IH]; [reflexivity|].
  rewrite append_cons. cbn. now rewrite IH.
Qed.

Lemma endsWith_stem (suffix s : string) :
  endsWith suffix s = true ->
  exists stem, s = (stem ++ suffix)%string /\ stripSuffix suffix s = stem.
Proof.
  intros Hends.
  assert (Hstem : exists stem, s = (stem ++ suffix)%string).
  { induction s as [|c s IH].
    - cbn in Hends. rewrite orb_false_r in Hends.
      apply String.eqb_eq in Hends as ->. now exists EmptyString.
    - cbn [endsWith] in Hends. apply orb_true_iff in Hends as [Heq|Htail].
      + apply String.eqb_eq in Heq as ->. now exists EmptyString.
      + destruct (IH Htail) as [stem ->]. exists (String c stem).
        now rewrite append_cons. }
  destruct Hstem as [stem ->]. exists stem. split; [reflexivity|].
  unfold stripSuffix. rewrite Hends, length_append.
  replace (String.length stem + String.length suffix
           - String.length suffix)%nat with (String.length stem) by lia.
  apply substring_prefix.
Qed.

(** The name after [solid]: the file name without its first [.stl], which
    is the file name without its [.stl] ending whenever no [.stl] comes
    before that ending. *)
Lemma replace_stl_stripSuffix (filename : string) :
  includes ".stl" (stripSuffix ".stl" filename) = false ->
  replace ".stl" "" filename = stripSuffix ".stl" filename.
Proof.
  destruct (endsWith ".stl" filename) eqn:Hends.
  - destruct (endsWith_stem _ _ Hends) as (stem & -> & Hstrip).
    rewrite Hstrip. apply replace_stl_suffix.
  - unfold stripSuffix. rewrite Hends. apply replace_absent.
Qed.

End Strings.

Section Serializer.
Context `{Num}.
Variable toFixed : num -> nat -> string.
Import STLGenerator.

Lemma at_index_inRange {A : Type} (arr : list A) (i : Z) :
  (0 <= i < len arr)%Z -> exists x, at_index arr i = Some x.
Proof.
  intros Hi. unfold at_index, len in *.
  destruct (Z.ltb_spec i 0); [lia|].
  destruct (nth_error arr (Z.to_nat i)) as [x|] eqn:Hnth; [now exists x|].
  apply nth_error_None in Hnth. lia.
Qed.

(** A triangle whose indices are in range contributes its seven lines. *)
Lemma facet_inRange (vertices : list Vertex) (face : Face) :
  faceInRange (len vertices) face ->
  exists v0 v1 v2,
    at_index vertices (item 0%Z face 0) = Some v0 /\
    at_index vertices (item 0%Z face 1) = Some v1 /\
    at_index vertices (item 0%Z face 2) = Some v2 /\
    facet toFixed vertices face = Some (facetText toFixed v0 v1 v2).
Proof.
  intros [Hlen Hidx].
  destruct face as [|a [|b [|c [|d rest]]]]; try discriminate.
  inversion Hidx as [|? ? Ha Hidx1]; subst.
  inversion Hidx1 as [|? ? Hb Hidx2]; subst.
  inversion Hidx2 as [|? ? Hc _]; subst.
  destruct (at_index_inRange vertices a Ha) as [v0 Hv0].
  destruct (at_index_inRange vertices b Hb) as [v1 Hv1].
  destruct (at_index_inRange vertices c Hc) as [v2 Hv2].
  exists v0, v1, v2. unfold facet.
  change (len [a; b; c] =? 3)%Z with true.
  change (item 0%Z [a; b; c] 0) with a.
  change (item 0%Z [a; b; c] 1) with b.
  change (item 0%Z [a; b; c] 2) with c.
  cbn [negb]. rewrite Hv0, Hv1, Hv2. auto.
Qed.

Lemma facets_inRange (vertices : list Vertex) (faces : list Face)
    (stlContent : string) :
  Forall (faceInRange (len vertices)) faces ->
  exists blocks,
    Forall2 (blockOf toFixed vertices) faces blocks /\
    facets toFixed vertices faces stlContent
    = Some (stlContent ++ joined blocks)%string.
Proof.
  intros Hfaces. revert stlContent.
  induction Hfaces as [|face faces Hface _ IH]; intros stlContent.
  - exists []. split; [constructor|]. cbn. now rewrite append_empty_r.
  - destruct (facet_inRange vertices face Hface)
      as (v0 & v1 & v2 & H0 & H1 & H2 & Hfacet).
    destruct (IH (stlContent ++ facetText toFixed v0 v1 v2)%string)
      as (blocks & Hblocks & Hrest).
    exists (facetText toFixed v0 v1 v2 :: blocks). split.
    + constructor; [|exact Hblocks]. now exists v0, v1, v2.
    + cbn [facets]. rewrite Hfacet, Hrest. cbn [joined fold_right].
      now rewrite append_assoc.
Qed.

Lemma at_index_some {A : Type} (arr : list A) (i : Z) :
  (exists x, at_index arr i = Some x) <-> (0 <= i < len arr)%Z.
Proof.
  split; [|apply at_index_inRange].
  intros [x Hx]. unfold at_index, len in *.
  destruct (Z.ltb_spec i 0); [discriminate|].
  assert (Hlt : (Z.to_nat i < length arr)%nat)
    by (apply nth_error_Some; congruence).
  lia.
Qed.

(** A round of the loop ends without an exception exactly when the face is
    skipped or its three vertices exist. *)
Lemma facet_some (vertices : list Vertex) (face : Face) :
  (exists text, facet toFixed vertices face = Some text) <->
  (length face = 3%nat -> Forall (fun i => (0 <= i < len vertices)%Z) face).
Proof.
  split.
  - intros [text Htext] Hlen.
    destruct face as [|a [|b [|c [|d rest]]]]; try discriminate.
    unfold facet in Htext.
    change (len [a; b; c] =? 3)%Z with true in Htext.
    change (item 0%Z [a; b; c] 0) with a in Htext.
    change (item 0%Z [a; b; c] 1) with b in Htext.
    change (item 0%Z [a; b; c] 2) with c in Htext.
    cbn [negb] in Htext.
    destruct (at_index vertices a) as [v0|] eqn:Ha; [|discriminate].
    destruct (at_index vertices b) as [v1|] eqn:Hb; [|discriminate].
    destruct (at_index vertices c) as [v2|] eqn:Hc; [|discriminate].
    apply List.Forall_cons; [apply at_index_some; eauto|].
    apply List.Forall_cons; [apply at_index_some; eauto|].
    apply List.Forall_cons; [apply at_index_some; eauto|constructor].
  - intros Hall. destruct (Nat.eq_dec (length face) 3) as [Hlen|Hlen].
    + destruct (facet_inRange vertices face (conj Hlen (Hall Hlen)))
        as (v0 & v1 & v2 & _ & _ & _ & Hfacet).
      eauto.
    + exists EmptyString. unfold facet.
      destruct (Z.eqb_spec (len face) 3) as [Hthree|Hother];
        [unfold len in Hthree; lia|reflexivity].
Qed.

Lemma facets_some (vertices : list Vertex) (faces : list Face)
    (stlContent : string) :
  (exists text, facets toFixed vertices faces stlContent = Some text) <->
  trianglesResolve (len vertices) faces.
Proof.
  unfold trianglesResolve. revert stlContent.
  induction faces as [|face faces IH]; intros stlContent; cbn [facets].
  - split; [constructor|eauto].
  - split.
    + intros [text Htext].
      destruct (facet toFixed vertices face) as [block|] eqn:Hfacet;
        [|discriminate].
      apply List.Forall_cons.
      * apply facet_some. eauto.
      * apply (IH (stlContent ++ block)%string). eauto.
    + intros Hall. inversion Hall as [|? ? Hface Hrest]; subst.
      apply facet_some in Hface as [block Hblock]. rewrite Hblock.
      apply IH. exact Hrest.
Qed.

(** The serializer returns exactly when no triangle of the mesh refers to
    a missing vertex. *)
Lemma generateSTL_some (vertices : list Vertex) (faces : list Face)
    (filename : string) :
  (exists text, generateSTL toFixed vertices faces filename = Some text) <->
  trianglesResolve (len vertices) faces.
Proof.
  rewrite <- (facets_some vertices faces
                ("solid " ++ replace ".stl" "" filename ++ nl)%string).
  unfold generateSTL.
  destruct (facets _ _ _ _) as [content|]; split; intros [text Htext];
    try discriminate; eauto.
Qed.

Lemma normalOf_degenerate (v0 v1 v2 : Vertex) :
  (vectorLength (crossProduct v0 v1 v2) >? dec 1 (-10))%js = false ->
  normalOf v0 v1 v2 = (int 0, int 0, int 1).
Proof.
  intros Hshort. unfold normalOf.
  destruct (crossProduct v0 v1 v2) as [[nx ny] nz]. now rewrite Hshort.
Qed.

(** The text of a mesh whose faces are triangles in range. *)
Lemma generateSTL_blocks (vertices : list Vertex) (faces : list Face)
    (filename : string) :
  Forall (faceInRange (len vertices)) faces ->
  let name := replace ".stl" "" filename in
  (exists blocks,
     Forall2 (blockOf toFixed vertices) faces blocks /\
     generateSTL toFixed vertices faces filename
     = Some ("solid " ++ name ++ nl ++ joined blocks
             ++ "endsolid " ++ name ++ nl)%string)
  /\ (includes ".stl" (stripSuffix ".stl" filename) = false ->
      name = stripSuffix ".stl" filename)
  /\ (forall v0 v1 v2 : Vertex,
        let '(x0, y0, z0) := v0 in
        let '(x1, y1, z1) := v1 in
        let '(x2, y2, z2) := v2 in
        let '(nx, ny, nz) := normalOf v0 v1 v2 in
        let f := fun n => toFixed n 6 in
        facetText toFixed v0 v1 v2 =
        ("  facet normal " ++ f nx ++ " " ++ f ny ++ " " ++ f nz ++ nl
         ++ "    outer loop" ++ nl
         ++ ("      vertex " ++ f x0 ++ " " ++ f y0 ++ " " ++ f z0 ++ nl)
         ++ ("      vertex " ++ f x1 ++ " " ++ f y1 ++ " " ++ f z1 ++ nl)
         ++ ("      vertex " ++ f x2 ++ " " ++ f y2 ++ " " ++ f z2 ++ nl)
         ++ "    endloop" ++ nl
         ++ "  endfacet" ++ nl)%string)
  /\ (forall v0 v1 v2 : Vertex,
        (vectorLength (crossProduct v0 v1 v2) >? dec 1 (-10))%js = false ->
        normalOf v0 v1 v2 = (int 0, int 0, int 1)).
Proof.
  intros Hfaces name. split; [|split; [|split]].
  - destruct (facets_inRange vertices faces
                ("solid " ++ name ++ nl)%string Hfaces)
      as (blocks & Hblocks & Hfacets).
    exists blocks. split; [exact Hblocks|].
    unfold generateSTL. fold name. rewrite Hfacets.
    now rewrite !append_assoc.
  - apply replace_stl_stripSuffix.
  - intros [[x0 y0] z0] [[x1 y1] z1] [[x2 y2] z2].
    unfold facetText.
    destruct (normalOf _ _ _) as [[nx ny] nz]. reflexivity.
  - apply normalOf_degenerate.
Qed.

End Serializer.

(** *** The wrapper of the pipeline *)

Section Advisory.
Context `{Num}.
Variable toFixed : num -> nat -> string.

(** C9, amended. [validateMesh] returns a non-empty error list if and only
    if the vertex list is empty, or the face list is empty, or some face
    does not have exactly three indices, or some face holds an index that
    is negative or not below the vertex count; [valid] says whether the
    list is empty.  The wrapper of the pipeline warns with that list when
    it is not empty and, in either case, calls the serializer on the same
    mesh and file name and returns its result: the text, unless a face of
    exactly three indices holds an index that is negative or not below the
    vertex count, in which case the serializer throws. *)
Theorem validateMesh_is_advisory (vertices : list Vertex)
    (faces : list Face) (filename : string) :
  let validation := STLGenerator.validateMesh vertices faces in
  (STLGenerator.errors validation <> [] <->
     vertices = [] \/ faces = [] \/
     Exists (fun face => length face <> 3%nat) faces \/
     Exists (fun face =>
               Exists (fun i => (i < 0 \/ len vertices <= i)%Z) face) faces)
  /\ (STLGenerator.valid validation = true <->
        STLGenerator.errors validation = [])
  /\ fst (OSMToSTL.generateSTL toFixed vertices faces filename)
       = (if STLGenerator.valid validation
          then []
          else [STLGenerator.errors validation])
  /\ snd (OSMToSTL.generateSTL toFixed vertices faces filename)
       = STLGenerator.generateSTL toFixed vertices faces filename
  /\ ((exists text,
         snd (OSMToSTL.generateSTL toFixed vertices faces filename)
         = Some text)
      <-> trianglesResolve (len vertices) faces).
Proof.
  intros validation. split; [apply validateMesh_errors|]. split.
  - subst validation. unfold STLGenerator.validateMesh.
    cbn [STLGenerator.valid STLGenerator.errors].
    set (errors := _ ++ _). unfold len.
    destruct (Z.eqb_spec (Z.of_nat (length errors)) 0) as [Hz|Hnz];
      split; intros Hx; try reflexivity; try discriminate.
    + destruct errors; [reflexivity|cbn in Hz; lia].
    + rewrite Hx in Hnz. now contradiction Hnz.
  - unfold OSMToSTL.generateSTL. fold validation. cbn [fst snd].
    split; [now destruct (STLGenerator.valid validation)|].
    split; [reflexivity|apply generateSTL_some].
Qed.

End Advisory.

(** C9 on the unit cube with a face of four indices: the validation
    fails, and the text is returned all the same. *)
Lemma validateMesh_is_advisory_quad :
  let faces := [[0; 1; 2; 3]%Z] in
  trianglesResolve (len Sample.cubeVertices) faces
  /\ fst (OSMToSTL.generateSTL double_toFixed Sample.cubeVertices faces
            "test.stl")
     = [["Face 0 has 4 vertices (expected 3)"%string]]
  /\ exists text,
       snd (OSMToSTL.generateSTL double_toFixed Sample.cubeVertices faces
              "test.stl") = Some text.
Proof.
  intros faces.
  assert (Hfaces : trianglesResolve (len Sample.cubeVertices) faces)
    by (repeat constructor; discriminate).
  split; [exact Hfaces|].
  destruct (validateMesh_is_advisory double_toFixed Sample.cubeVertices
              faces "test.stl") as (_ & _ & Hwarned & _ & Htext).
  split; [rewrite Hwarned; vm_compute; reflexivity|].
  apply Htext. exact Hfaces.
Defined.

(** C9 as stated fails on a mesh of one vertex with the face (0, 1, 2):
    the validation fails, the wrapper warns, and the serializer that it
    then calls throws, so that nothing is serialized. *)
Lemma generateSTL_warns_then_throws :
  let vertices : list (@Vertex Double) := [(0, 0, 0)]%float in
  STLGenerator.valid (STLGenerator.validateMesh vertices [[0; 1; 2]%Z])
  = false
  /\ OSMToSTL.generateSTL double_toFixed vertices [[0; 1; 2]%Z] "mesh.stl"
     = ([["Face 0 references invalid vertex index 1"%string;
          "Face 0 references invalid vertex index 2"%string]], None).
Proof. vm_compute. split; reflexivity. Qed.

(** *** Six decimals *)

Section Decimals.

Lemma digitsOnly_append (a b : string) :
  digitsOnly (a ++ b) = digitsOnly a && digitsOnly b.
Proof.
  induction a as [|c a IH]; [reflexivity|].
  rewrite append_cons. cbn [digitsOnly]. now rewrite IH, andb_assoc.
Qed.

Lemma digitsOnly_zeros (k : nat) : digitsOnly (zeros k) = true.
Proof. induction k as [|k IH]; [reflexivity|exact IH]. Qed.

Lemma length_zeros (k : nat) : String.length (zeros k) = k.
Proof. induction k as [|k IH]; [reflexivity|]. cbn. now rewrite IH. Qed.

Lemma digitsOnly_substring (n m : nat) (s : string) :
  digitsOnly s = true -> digitsOnly (substring n m s) = true.
Proof.
  revert n m. induction s as [|c s IH]; intros n m Hs.
  - now destruct n, m.
  - cbn [digitsOnly] in Hs. apply andb_true_iff in Hs as [Hc Hs].
    destruct n as [|n]; destruct m as [|m]; cbn [substring];
      try reflexivity; try (now apply IH).
    cbn [digitsOnly]. rewrite Hc. now apply IH.
Qed.

Lemma length_substring (n m : nat) (s : string) :
  (n + m <= String.length s)%nat -> String.length (substring n m s) = m.
Proof.
  revert n m. induction s as [|c s IH]; intros n m Hlen; cbn in Hlen.
  - assert (n = 0%nat /\ m = 0%nat) as [-> ->] by lia. reflexivity.
  - destruct n as [|n]; destruct m as [|m]; cbn [substring];
      try reflexivity.
    + cbn. f_equal. apply IH. lia.
    + apply IH. lia.
    + apply IH. lia.
Qed.

Lemma digitsOf_digits (n : Z) :
  digitsOnly (digitsOf n) = true /\ digitsOf n <> EmptyString.
Proof.
  unfold digitsOf, NilZero.string_of_uint.
  assert (Hdigits : forall d,
            digitsOnly (NilEmpty.string_of_uint d) = true)
    by (induction d; cbn; auto).
  destruct (N.to_uint (Z.to_N n)) eqn:Hd;
    (split; [try reflexivity; rewrite <- Hd at 1; apply Hdigits
            |discriminate]).
Qed.

Lemma fixedDigits_six (n : Z) :
  exists whole fraction : string,
    fixedDigits n 6 = (whole ++ "." ++ fraction)%string
    /\ whole <> EmptyString
    /\ digitsOnly whole = true
    /\ digitsOnly fraction = true
    /\ String.length fraction = 6%nat.
Proof.
  destruct (digitsOf_digits n) as [Hdigits Hnonempty].
  unfold fixedDigits. cbn [Nat.eqb].
  set (m := digitsOf n) in *.
  set (padded := if (String.length m <=? 6)%nat
                 then (zeros (6 + 1 - String.length m) ++ m)%string
                 else m).
  assert (Hpadded : digitsOnly padded = true
                    /\ (7 <= String.length padded)%nat).
  { subst padded. destruct (Nat.leb_spec (String.length m) 6).
    - rewrite digitsOnly_append, digitsOnly_zeros, Hdigits.
      rewrite length_append, length_zeros. split; [reflexivity|lia].
    - split; [exact Hdigits|lia]. }
  destruct Hpadded as [Hall Hlong].
  exists (substring 0 (String.length padded - 6) padded),
    (substring (String.length padded - 6) 6 padded).
  split; [reflexivity|]. split.
  - intros Hempty. apply (f_equal String.length) in Hempty.
    rewrite length_substring in Hempty by lia. cbn in Hempty. lia.
  - split; [now apply digitsOnly_substring|].
    split; [now apply digitsOnly_substring|].
    apply length_substring. lia.
Qed.

(** [toFixed(6)] of a finite double of magnitude below 1e21 is in fixed
    notation with six decimals. *)
Lemma double_toFixed_six (x : float) :
  fixedRange x = true -> sixDecimals (double_toFixed x 6).
Proof.
  unfold fixedRange, double_toFixed.
  destruct (Prim2SF x) as [sign| | |sign m e]; try discriminate.
  - intros _.
    destruct (fixedDigits_six 0) as (whole & fraction & Htext & Hrest).
    exists EmptyString, whole, fraction. rewrite Htext.
    split; [reflexivity|]. split; [now left|exact Hrest].
  - intros Hrange. apply negb_true_iff in Hrange. rewrite Hrange.
    destruct (fixedDigits_six (scaledNearest (Z.pos m) e 6))
      as (whole & fraction & Htext & Hrest).
    exists (if sign then "-"%string else EmptyString), whole, fraction.
    rewrite Htext.
    split; [reflexivity|]. split; [destruct sign; auto|exact Hrest].
Qed.

End Decimals.

(** C8, amended. For a mesh whose faces all have exactly three indices,
    each the index of a vertex, and for every file name, [generateSTL]
    returns a text: the line [solid <name>], one block of seven lines per
    face, in order, and the line [endsolid <name>] with the same name.
    <name> is the file name without its first [.stl]: the file name
    without its [.stl] ending whenever no [.stl] comes before that ending.
    Every number of a block is printed by [toFixed] with 6 digits, which
    on a finite double of magnitude below 1e21 is fixed notation with six
    decimals, and the normal of a face whose cross product is not longer
    than 1e-10 is (0, 0, 1). *)
Theorem generateSTL_text :
  (forall (N : Num) (toFixed : num -> nat -> string)
          (vertices : list Vertex) (faces : list Face) (filename : string),
     Forall (faceInRange (len vertices)) faces ->
     let name := replace ".stl" "" filename in
     (exists blocks,
        Forall2 (blockOf toFixed vertices) faces blocks /\
        STLGenerator.generateSTL toFixed vertices faces filename
        = Some ("solid " ++ name ++ nl ++ joined blocks
                ++ "endsolid " ++ name ++ nl)%string)
     /\ (includes ".stl" (stripSuffix ".stl" filename) = false ->
         name = stripSuffix ".stl" filename)
     /\ (forall v0 v1 v2 : Vertex,
           let '(x0, y0, z0) := v0 in
           let '(x1, y1, z1) := v1 in
           let '(x2, y2, z2) := v2 in
           let '(nx, ny, nz) := STLGenerator.normalOf v0 v1 v2 in
           let f := fun n => toFixed n 6 in
           STLGenerator.facetText toFixed v0 v1 v2 =
           ("  facet normal " ++ f nx ++ " " ++ f ny ++ " " ++ f nz ++ nl
            ++ "    outer loop" ++ nl
            ++ ("      vertex " ++ f x0 ++ " " ++ f y0 ++ " " ++ f z0 ++ nl)
            ++ ("      vertex " ++ f x1 ++ " " ++ f y1 ++ " " ++ f z1 ++ nl)
            ++ ("      vertex " ++ f x2 ++ " " ++ f y2 ++ " " ++ f z2 ++ nl)
            ++ "    endloop" ++ nl
            ++ "  endfacet" ++ nl)%string)
     /\ (forall v0 v1 v2 : Vertex,
           (STLGenerator.vectorLength (STLGenerator.crossProduct v0 v1 v2)
            >? dec 1 (-10))%js = false ->
           STLGenerator.normalOf v0 v1 v2 = (int 0, int 0, int 1)))
  /\ (forall x : float,
        fixedRange x = true -> sixDecimals (double_toFixed x 6)).
Proof.
  split.
  - intros N toFixed vertices faces filename.
    apply generateSTL_blocks.
  - apply double_toFixed_six.
Qed.

(** C8 on the unit cube of the test suite: twelve blocks between
    [solid test] and [endsolid test]. *)
Lemma generateSTL_text_cube :
  (Forall (faceInRange (len Sample.cubeVertices)) Sample.cubeFaces
   /\ fixedRange 0.5%float = true)
  /\ (exists blocks,
        length blocks = 12%nat /\
        STLGenerator.generateSTL double_toFixed Sample.cubeVertices
          Sample.cubeFaces "test.stl"
        = Some ("solid test" ++ nl ++ joined blocks
                ++ "endsolid test" ++ nl)%string)
  /\ sixDecimals (double_toFixed 0.5%float 6).
Proof.
  assert (Hrange : fixedRange 0.5%float = true) by (vm_compute; reflexivity).
  assert (Hcube :
    Forall (faceInRange (len Sample.cubeVertices)) Sample.cubeFaces).
  { change (len Sample.cubeVertices) with 8%Z. unfold Sample.cubeFaces.
    each_triangle triangleInRange. }
  split; [exact (conj Hcube Hrange)|].
  split; [|exact (proj2 generateSTL_text 0.5%float Hrange)].
  destruct (proj1 generateSTL_text Double double_toFixed
              Sample.cubeVertices Sample.cubeFaces "test.stl" Hcube)
    as ((blocks & Hblocks & Htext) & _).
  exists blocks. split.
  - symmetry. exact (Forall2_length _ _ _ Hblocks).
  - exact Htext.
Defined.

(** The text of one triangle, as the serializer prints it. *)
Lemma generateSTL_triangle :
  STLGenerator.generateSTL double_toFixed
    [(0, 0, 0); (1, 0, 0); (0, 1, 0)]%float [[0; 1; 2]%Z] "test.stl"
  = Some ("solid test" ++ nl
          ++ "  facet normal 0.000000 0.000000 1.000000" ++ nl
          ++ "    outer loop" ++ nl
          ++ "      vertex 0.000000 0.000000 0.000000" ++ nl
          ++ "      vertex 1.000000 0.000000 0.000000" ++ nl
          ++ "      vertex 0.000000 1.000000 0.000000" ++ nl
          ++ "    endloop" ++ nl
          ++ "  endfacet" ++ nl
          ++ "endsolid test" ++ nl)%string.
Proof. vm_compute. reflexivity. Qed.

(** C8 as stated fails in three places.  A face with three indices of
    which one is not the index of a vertex makes the serializer throw; the
    name is not the file name without its [.stl] ending when [.stl] occurs
    earlier in the file name; and a coordinate of 1e21 is printed in
    exponent notation, without decimals. *)
Lemma generateSTL_missing_vertex_and_inner_stl :
  let vertices : list (@Vertex Double) := [(0, 0, 0)]%float in
  Forall (fun face : Face => length face = 3%nat) [[0; 1; 2]%Z]
  /\ STLGenerator.generateSTL double_toFixed vertices [[0; 1; 2]%Z] "mesh.stl"
     = None
  /\ STLGenerator.generateSTL double_toFixed vertices [] "a.stl.txt"
     = Some ("solid a.txt" ++ nl ++ "endsolid a.txt" ++ nl)%string
  /\ stripSuffix ".stl" "a.stl.txt" = "a.stl.txt"%string
  /\ STLGenerator.vertexLine double_toFixed (dec 1 21, 0, 0)%float
     = ("      vertex 1e+21 0.000000 0.000000" ++ nl)%string.
Proof. vm_compute. repeat split. repeat constructor. Qed.

(** ** The line bufferer *)

Section Bufferer.
Context `{Num}.

Lemma length_offsets (coords : list Point) (halfWidth : num)
    (indices : list Z) :
  length (flat_map (offsetAt coords halfWidth) indices)
  = length (List.filter (fun i =>
                      negb (tangentLength coords i <? dec 1 (-10))%js)
                   indices).
Proof.
  induction indices as [|i indices IH]; [reflexivity|].
  cbn [flat_map List.filter]. rewrite length_app, IH.
  unfold offsetAt, tangentLength.
  destruct (tangent coords i) as [dx dy].
  destruct (sqrt (dx * dx + dy * dy) <? dec 1 (-10))%js; cbn; lia.
Qed.

(** The number of quads, for every line and width. *)
Lemma bufferLineString_count (coords : list Point) (width : num) :
  length (bufferLineString coords width) = (leftCount coords - 1)%nat.
Proof.
  unfold bufferLineString, leftCount.
  destruct (Z.ltb_spec (len coords) 2) as [Hshort|Hlong].
  - assert (Hle : (length (List.filter (fun i =>
        negb (tangentLength coords i <? dec 1 (-10))%js)
        (forRange 0 (len coords))) <= length (forRange 0 (len coords)))%nat)
      by apply List.filter_length_le.
    rewrite length_forRange in Hle. unfold len in *. cbn. lia.
  - rewrite length_map, length_forRange. unfold len at 1.
    rewrite length_map, length_offsets. lia.
Qed.

(** The only quad of a line of two points. *)
Lemma bufferLineString_segment (p0 p1 : Point) (width : num) :
  let dx := (fst p1 - fst p0)%js in
  let dy := (snd p1 - snd p0)%js in
  let len := sqrt (dx * dx + dy * dy)%js in
  let perpX := (- dy / len * (width / int 2))%js in
  let perpY := (dx / len * (width / int 2))%js in
  (len <? dec 1 (-10))%js = false ->
  bufferLineString [p0; p1] width =
  [[ ((fst p0 + perpX)%js, (snd p0 + perpY)%js);
     ((fst p0 - perpX)%js, (snd p0 - perpY)%js);
     ((fst p1 - perpX)%js, (snd p1 - perpY)%js);
     ((fst p1 + perpX)%js, (snd p1 + perpY)%js) ]].
Proof.
  intros dx dy norm perpX perpY Hlen.
  unfold bufferLineString.
  change (len [p0; p1] <? 2)%Z with false. cbv iota.
  change (forRange 0 (len [p0; p1])) with [0; 1]%Z.
  cbn [flat_map]. unfold offsetAt.
  change (tangent [p0; p1] 0) with (dx, dy).
  change (tangent [p0; p1] 1) with (dx, dy).
  cbv iota beta. fold norm. rewrite Hlen.
  change (item (int 0, int 0) [p0; p1] 0) with p0.
  change (item (int 0, int 0) [p0; p1] 1) with p1.
  reflexivity.
Qed.

End Bufferer.

(** C7, amended. For every line of two points whose computed length is
    not below the epsilon 1e-10 and for every width w, [bufferLineString]
    returns exactly one quadrilateral, ordered left[0], right[0], right[1],
    left[1], whose corners are the two end points moved by plus and by
    minus the vector (-dy / len * (w / 2), dx / len * (w / 2)), every
    operation being that of the arithmetic of the program.  In general the
    function returns leftCount - 1 quadrilaterals (none when leftCount is
    0), leftCount being the number of points whose tangent length is not
    below the epsilon.  The distance of a corner from its end point is
    what this vector gives, which in double precision need not be
    w / 2. *)
Theorem bufferLineString_ribbon :
  (forall (N : Num) (p0 p1 : Point) (width : num),
     let dx := (fst p1 - fst p0)%js in
     let dy := (snd p1 - snd p0)%js in
     let len := sqrt (dx * dx + dy * dy)%js in
     let perpX := (- dy / len * (width / int 2))%js in
     let perpY := (dx / len * (width / int 2))%js in
     (len <? dec 1 (-10))%js = false ->
     bufferLineString [p0; p1] width =
     [[ ((fst p0 + perpX)%js, (snd p0 + perpY)%js);
        ((fst p0 - perpX)%js, (snd p0 - perpY)%js);
        ((fst p1 - perpX)%js, (snd p1 - perpY)%js);
        ((fst p1 + perpX)%js, (snd p1 + perpY)%js) ]])
  /\ (forall (N : Num) (coords : list Point) (width : num),
        length (bufferLineString coords width) = (leftCount coords - 1)%nat).
Proof.
  split.
  - intros N. apply bufferLineString_segment.
  - intros N. apply bufferLineString_count.
Qed.

(** C7 on the diagonal of the unit square with width 2, in double
    precision: one quadrilateral, which is the one of the formula. *)
Lemma bufferLineString_ribbon_samples :
  @ltb Double (PrimFloat.sqrt ((1 - 0) * (1 - 0) + (1 - 0) * (1 - 0)))
              (dec 1 (-10)) = false
  /\ length (bufferLineString Sample.diagonal 2%float) = 1%nat
  /\ length (bufferLineString Sample.diagonal 2%float)
     = (leftCount Sample.diagonal - 1)%nat.
Proof.
  assert (Hdouble :
    @ltb Double (PrimFloat.sqrt ((1 - 0) * (1 - 0) + (1 - 0) * (1 - 0)))
                (dec 1 (-10)) = false) by (vm_compute; reflexivity).
  split; [exact Hdouble|].
  destruct bufferLineString_ribbon as (Hsegment & Hcount).
  split.
  - exact (f_equal (@length _)
             (Hsegment Double (0, 0)%float (1, 1)%float 2%float Hdouble)).
  - exact (Hcount Double Sample.diagonal 2%float).
Defined.

(** C7 as stated fails in double precision: on the diagonal of the unit
    square with width 2 the first corner is not at distance 1 from the end
    point (0, 0), its squared distance, taken exactly, being below 1; and
    on a diagonal whose length overflows, the corners are the end points
    themselves. *)
Lemma bufferLineString_diagonal_is_rounded :
  let quads := bufferLineString Sample.diagonal 2%float in
  length quads = 1%nat
  /\ match quads with
     | [(cx, cy) :: _] =>
         (exactValue cx * exactValue cx + exactValue cy * exactValue cy < 1)%Q
     | _ => False
     end
  /\ bufferLineString Sample.farDiagonal 2%float
     = [[(0, 0); (0, 0); (0x1p600, 0x1p600); (0x1p600, 0x1p600)]]%float.
Proof. vm_compute. repeat split; reflexivity. Qed.

(** ** The buildings layer *)

Section Loops.

Lemma map_seq_shift (lo : Z) (a b s : nat) :
  map (fun k => lo + Z.of_nat a + Z.of_nat k)%Z (seq s b)
  = map (fun k => lo + Z.of_nat k)%Z (seq (a + s) b).
Proof.
  revert s. induction b as [|b IH]; intros s; [reflexivity|].
  cbn [seq map]. f_equal; [lia|].
  rewrite IH. now replace (a + S s)%nat with (S (a + s)) by lia.
Qed.

Lemma forRange_app (lo mid hi : Z) :
  (lo <= mid <= hi)%Z ->
  forRange lo mid ++ forRange mid hi = forRange lo hi.
Proof.
  intros Hle. unfold forRange.
  replace (Z.to_nat (hi - lo))
    with (Z.to_nat (mid - lo) + Z.to_nat (hi - mid))%nat by lia.
  rewrite seq_app, map_app. f_equal.
  replace (0 + Z.to_nat (mid - lo))%nat
    with (Z.to_nat (mid - lo) + 0)%nat by lia.
  rewrite <- map_seq_shift. apply map_ext. intros k. lia.
Qed.

Lemma forRange_empty (lo hi : Z) : (hi <= lo)%Z -> forRange lo hi = [].
Proof.
  intros Hle. unfold forRange.
  now replace (Z.to_nat (hi - lo)) with 0%nat by lia.
Qed.

Lemma forRange_single (i : Z) : forRange i (i + 1) = [i].
Proof.
  unfold forRange. replace (Z.to_nat (i + 1 - i)) with 1%nat by lia.
  cbn. f_equal. lia.
Qed.

(** The chunks of fifty, one after the other, are all the indices. *)
Lemma chunks_cover (length : Z) (chunks : nat) :
  (0 <= length)%Z ->
  flat_map (fun chunk =>
              forRange (chunk * OSMToSTL.CHUNK_SIZE)
                (Z.min (chunk * OSMToSTL.CHUNK_SIZE + OSMToSTL.CHUNK_SIZE)
                       length))
           (forRange 0 (Z.of_nat chunks))
  = forRange 0 (Z.min (Z.of_nat chunks * OSMToSTL.CHUNK_SIZE) length).
Proof.
  intros Hlen. unfold OSMToSTL.CHUNK_SIZE.
  induction chunks as [|chunks IH].
  - cbn. symmetry. apply forRange_empty. lia.
  - replace (Z.of_nat (S chunks)) with (Z.of_nat chunks + 1)%Z by lia.
    rewrite <- (forRange_app 0 (Z.of_nat chunks)) by lia.
    rewrite forRange_single, flat_map_app, IH. cbn [flat_map].
    rewrite app_nil_r.
    destruct (Z.le_gt_cases length (Z.of_nat chunks * 50)) as [Hdone|Hmore].
    + rewrite (forRange_empty (Z.of_nat chunks * 50)) by lia.
      rewrite app_nil_r. f_equal. lia.
    + rewrite Z.min_l by lia.
      rewrite forRange_app by lia. f_equal. lia.
Qed.

Lemma chunkedIndices_all (length : Z) :
  (0 <= length)%Z -> OSMToSTL.chunkedIndices length = forRange 0 length.
Proof.
  intros Hlen. unfold OSMToSTL.chunkedIndices.
  set (totalChunks := ((length + OSMToSTL.CHUNK_SIZE - 1)
                       / OSMToSTL.CHUNK_SIZE)%Z).
  assert (Htotal : (0 <= totalChunks /\ length <= totalChunks * 50)%Z).
  { subst totalChunks. unfold OSMToSTL.CHUNK_SIZE.
    pose proof (Z.div_mod (length + 50 - 1) 50) as Hdiv.
    pose proof (Z.mod_pos_bound (length + 50 - 1) 50) as Hmod.
    split; [apply Z.div_pos; lia|lia]. }
  replace totalChunks with (Z.of_nat (Z.to_nat totalChunks)) by lia.
  rewrite chunks_cover by exact Hlen. f_equal.
  unfold OSMToSTL.CHUNK_SIZE. lia.
Qed.

Lemma at_index_all {A : Type} (arr : list A) :
  map (at_index arr) (forRange 0 (len arr)) = map Some arr.
Proof.
  induction arr as [|x arr IH]; [reflexivity|].
  unfold len. cbn [length].
  replace (Z.of_nat (S (length arr))) with (1 + len arr)%Z
    by (unfold len; lia).
  rewrite <- (forRange_app 0 1) by (unfold len; lia).
  rewrite map_app. cbn [map app]. f_equal.
  rewrite <- IH. unfold forRange.
  replace (Z.to_nat (1 + len arr - 1)) with (Z.to_nat (len arr - 0)) by lia.
  rewrite !map_map. apply map_ext. intros k.
  unfold at_index.
  destruct (Z.ltb_spec (1 + Z.of_nat k) 0); [lia|].
  destruct (Z.ltb_spec (0 + Z.of_nat k) 0); [lia|].
  replace (Z.to_nat (1 + Z.of_nat k)) with (S k) by lia.
  replace (Z.to_nat (0 + Z.of_nat k)) with k by lia.
  reflexivity.
Qed.

End Loops.

Section BuildingsLayer.
Context `{Num}.
Import OSMToSTL.

Lemma fold_left_over_map {A B S : Type} (f : S -> B -> S) (g : A -> B)
    (l : list A) (s : S) :
  fold_left f (map g l) s = fold_left (fun acc x => f acc (g x)) l s.
Proof.
  revert s. induction l as [|x l IH]; intros s; [reflexivity|]. apply IH.
Qed.

Lemma fold_left_over_flat_map {A B S : Type} (f : S -> B -> S)
    (g : A -> list B) (l : list A) (s : S) :
  fold_left f (flat_map g l) s
  = fold_left (fun acc x => fold_left f (g x) acc) l s.
Proof.
  revert s. induction l as [|x l IH]; intros s; [reflexivity|].
  cbn [flat_map]. rewrite fold_left_app. apply IH.
Qed.

(** A loop whose rounds do not throw is a plain fold. *)
Lemma forEachM_total {I S : Type} (body : I -> S -> option S)
    (round : S -> I -> S) (items : list I) (s : S) :
  (forall i s', In i items -> body i s' = Some (round s' i)) ->
  forEachM body items s = Some (fold_left round items s).
Proof.
  unfold forEachM. revert s.
  induction items as [|i items IH]; intros s Hbody; [reflexivity|].
  cbn [fold_left]. rewrite Hbody by now left.
  apply IH. intros j s' Hj. apply Hbody. now right.
Qed.

(** Visiting the features by index is visiting them in order. *)
Lemma forEachM_atFeature (step : Feature -> Mesh -> option Mesh)
    (features : list Feature) (this : Mesh) :
  forEachM (atFeature step features) (forRange 0 (len features)) this
  = forEachM step features this.
Proof.
  unfold forEachM.
  transitivity
    (fold_left (fun acc o =>
                  match acc with
                  | Some s' =>
                      match o with
                      | Some feature => step feature s'
                      | None => None
                      end
                  | None => None
                  end)
               (map (at_index features) (forRange 0 (len features)))
               (Some this)).
  - now rewrite fold_left_over_map.
  - now rewrite at_index_all, fold_left_over_map.
Qed.

Lemma closeRing_autoClosed (ring : list Point) :
  ring <> [] -> closeRing ring = Some (autoClosed ring).
Proof.
  intros Hne. unfold autoClosed.
  destruct ring as [|first rest]; [congruence|]. cbn.
  now destruct (_ || _).
Qed.

Lemma buildingStep_wellFormed (bbox : BBox) (config : Config)
    (scale : num) (feature : Feature) (this : Mesh) :
  wellFormed feature ->
  buildingStep bbox config scale feature this
  = Some (fold_left extrude (extrusionOf bbox config scale feature) this).
Proof.
  unfold wellFormed, buildingStep, extrusionOf, rawHeight.
  destruct (geometry feature) as [[|exterior rings]|line];
    [intros []| |reflexivity].
  intros Hne. destruct (len exterior >? 500)%Z; [reflexivity|].
  rewrite closeRing_autoClosed; [reflexivity|].
  destruct exterior; [congruence|discriminate].
Qed.

Lemma buildings_loop (bbox : BBox) (config : Config) (scale : num)
    (features : list Feature) (this : Mesh) :
  Forall wellFormed features ->
  forEachM (buildingStep bbox config scale) features this
  = Some (fold_left extrude (extrusions bbox config scale features) this).
Proof.
  intros Hwf. unfold extrusions. rewrite fold_left_over_flat_map.
  apply forEachM_total. intros feature s' Hin.
  apply buildingStep_wellFormed.
  exact (proj1 (List.Forall_forall _ _) Hwf feature Hin).
Qed.

Lemma processLayer_buildings (features : list Feature) (bbox : BBox)
    (config : Config) :
  Forall wellFormed features ->
  processLayer features bbox config "buildings"
  = Some (fold_left extrude
            (extrusions bbox config (heightScaleOf features config) features)
            GeometryProcessor.empty).
Proof.
  intros Hwf. unfold processLayer.
  destruct (Z.eqb_spec (len features) 0) as [Hnone|Hsome].
  - destruct features; [reflexivity|discriminate].
  - change (String.eqb "buildings" "buildings") with true. cbv iota.
    rewrite chunkedIndices_all by (unfold len; lia).
    rewrite forEachM_atFeature. now apply buildings_loop.
Qed.

Lemma scaleCoordinates_buildings (buildings : list Feature) (bbox : BBox)
    (config : Config) :
  Forall wellFormed buildings ->
  scaleCoordinates buildings [] [] [] bbox config
  = Some (fold_left extrude
            (extrusions bbox config (heightScaleOf buildings config)
                        buildings)
            (createSolidBase (baseSizeOf config) (baseThickness config))).
Proof.
  intros Hwf. unfold scaleCoordinates.
  change (len (@nil Feature) >? 0)%Z with false.
  rewrite !andb_false_r. cbn [app andb].
  destruct (Z.gtb_spec (len buildings) 0) as [Hsome|Hnone].
  - rewrite forEachM_atFeature, buildings_loop by exact Hwf. reflexivity.
  - destruct buildings; [reflexivity|].
    unfold len in Hnone. cbn [length] in Hnone. lia.
Qed.

Lemma In_extrusions (bbox : BBox) (config : Config) (scale : num)
    (features : list Feature) (ring : list Point) (z0 z1 : num) :
  In (ring, z0, z1) (extrusions bbox config scale features) ->
  z0 = baseThickness config
  /\ exists feature,
       In feature features
       /\ z1 = (baseThickness config + rawHeight config feature * scale)%js.
Proof.
  unfold extrusions. rewrite in_flat_map. intros (feature & Hin & Hex).
  unfold extrusionOf in Hex.
  destruct (geometry feature) as [[|exterior rings]|line]; try now destruct Hex.
  destruct (len exterior >? 500)%Z; [now destruct Hex|].
  destruct Hex as [Heq|[]]. injection Heq as _ <- <-.
  split; [reflexivity|]. now exists feature.
Qed.

End BuildingsLayer.

(** *** In double precision *)

Section SpecOrder.

Lemma SFcompare_refl (x : spec_float) :
  x <> S754_nan -> SFcompare x x = Some Eq.
Proof.
  destruct x as [s|s| |s m e]; intros Hx; try congruence;
    try (now destruct s).
  cbn. destruct s; rewrite Z.compare_refl, ?Pos.compare_cont_refl;
    reflexivity.
Qed.

Lemma SFltb_irrefl (x : spec_float) : SFltb x x = false.
Proof.
  unfold SFltb. destruct x as [[]|[]| |[] m e]; cbn; try reflexivity;
    rewrite Z.compare_refl, Pos.compare_cont_refl; reflexivity.
Qed.

Lemma SFltb_asym (x y : spec_float) :
  SFltb x y = true -> SFltb y x = false.
Proof.
  unfold SFltb.
  destruct x as [[]|[]| |[] mx ex], y as [[]|[]| |[] my ey]; cbn;
    try reflexivity; try discriminate; intros H; compare_cases.
Qed.

(** The order of the numbers is transitive. *)
Lemma SFltb_le_trans (x y z : spec_float) :
  x <> S754_nan -> y <> S754_nan -> z <> S754_nan ->
  SFltb y x = false -> SFltb z y = false -> SFltb z x = false.
Proof.
  unfold SFltb.
  destruct x as [[]|[]| |[] mx ex], y as [[]|[]| |[] my ey],
    z as [[]|[]| |[] mz ez]; cbn;
    try reflexivity; try discriminate; try congruence;
    intros _ _ _ H1 H2; compare_cases.
Qed.

(** Two numbers of which none is below the other, one of them above
    zero, are the same number. *)
Lemma SFltb_antisym (x y : spec_float) :
  y <> S754_nan ->
  SFltb (S754_zero false) x = true ->
  SFltb x y = false -> SFltb y x = false -> x = y.
Proof.
  unfold SFltb.
  destruct x as [[]|[]| |[] mx ex], y as [[]|[]| |[] my ey]; cbn;
    try reflexivity; try discriminate; try congruence;
    intros _ _ H1 H2; compare_cases.
Qed.

End SpecOrder.

Section DoubleOrder.

Lemma double_number (x : float) :
  PrimFloat.is_nan x = false <-> Prim2SF x <> S754_nan.
Proof.
  unfold PrimFloat.is_nan. rewrite FloatAxioms.eqb_spec. unfold SFeqb.
  split.
  - intros Hx Hnan. rewrite Hnan in Hx. discriminate.
  - intros Hx. now rewrite SFcompare_refl.
Qed.

Lemma double_ltb_irrefl (x : float) : PrimFloat.ltb x x = false.
Proof. rewrite FloatAxioms.ltb_spec. apply SFltb_irrefl. Qed.

Lemma double_ltb_asym (x y : float) :
  PrimFloat.ltb x y = true -> PrimFloat.ltb y x = false.
Proof. rewrite !FloatAxioms.ltb_spec. apply SFltb_asym. Qed.

Lemma double_le_trans (x y z : float) :
  PrimFloat.is_nan x = false -> PrimFloat.is_nan y = false ->
  PrimFloat.is_nan z = false ->
  PrimFloat.ltb y x = false -> PrimFloat.ltb z y = false ->
  PrimFloat.ltb z x = false.
Proof.
  rewrite !double_number, !FloatAxioms.ltb_spec. apply SFltb_le_trans.
Qed.

Lemma double_antisym (x y : float) :
  PrimFloat.is_nan y = false ->
  PrimFloat.ltb 0 x = true ->
  PrimFloat.ltb x y = false -> PrimFloat.ltb y x = false -> x = y.
Proof.
  rewrite double_number, !FloatAxioms.ltb_spec.
  change (Prim2SF 0) with (S754_zero false).
  intros Hy Hpos Hxy Hyx.
  rewrite <- (FloatAxioms.SF2Prim_Prim2SF x), <- (FloatAxioms.SF2Prim_Prim2SF y).
  f_equal. now apply SFltb_antisym.
Qed.

(** [Math.max] of two numbers is one of them, and none of them is
    above it. *)
Lemma double_max_bounds (a b : float) :
  PrimFloat.is_nan a = false -> PrimFloat.is_nan b = false ->
  PrimFloat.is_nan (double_max a b) = false
  /\ (double_max a b = a \/ double_max a b = b)
  /\ PrimFloat.ltb (double_max a b) a = false
  /\ PrimFloat.ltb (double_max a b) b = false.
Proof.
  intros Ha Hb. unfold double_max. rewrite Ha, Hb. cbn [orb].
  destruct (PrimFloat.ltb a b) eqn:Hab.
  - repeat split; auto using double_ltb_irrefl, double_ltb_asym.
  - destruct (PrimFloat.ltb b a) eqn:Hba.
    + repeat split; auto using double_ltb_irrefl.
    + destruct (PrimFloat.get_sign a);
        repeat split; auto using double_ltb_irrefl.
Qed.

Lemma double_max_nan (a b : float) :
  PrimFloat.is_nan a = true \/ PrimFloat.is_nan b = true ->
  PrimFloat.is_nan (double_max a b) = true.
Proof.
  intros Hnan. unfold double_max.
  destruct (PrimFloat.is_nan a), (PrimFloat.is_nan b);
    try reflexivity. destruct Hnan; discriminate.
Qed.

(** The greatest of the numbers met by the loop of [Math.max]. *)
Lemma double_fold_max {A : Type} (raw : A -> float) (items : list A)
    (init : float) :
  PrimFloat.is_nan init = false ->
  (forall x, In x items -> PrimFloat.is_nan (raw x) = false) ->
  let top := fold_left (fun m x => double_max m (raw x)) items init in
  PrimFloat.is_nan top = false
  /\ (top = init \/ exists x, In x items /\ top = raw x)
  /\ PrimFloat.ltb top init = false
  /\ forall x, In x items -> PrimFloat.ltb top (raw x) = false.
Proof.
  revert init. induction items as [|y items IH]; intros init Hinit Hitems.
  - cbn. repeat split; auto using double_ltb_irrefl. intros x [].
  - cbn [fold_left].
    assert (Hy : PrimFloat.is_nan (raw y) = false) by (apply Hitems; now left).
    destruct (double_max_bounds init (raw y) Hinit Hy)
      as (Hm & Hwhich & Hminit & Hmy).
    destruct (IH (double_max init (raw y)) Hm
                (fun x Hx => Hitems x (or_intror Hx)))
      as (Htop & Hfrom & Habove & Hall).
    cbv zeta in *.
    set (top := fold_left _ items _) in *.
    split; [exact Htop|]. split; [|split].
    + destruct Hfrom as [->|(x & Hx & ->)].
      * destruct Hwhich as [->| ->]; [now left|].
        right. exists y. split; [now left|reflexivity].
      * right. exists x. split; [now right|reflexivity].
    + exact (double_le_trans _ _ _ Hinit Hm Htop Hminit Habove).
    + intros x [<-|Hx]; [|now apply Hall].
      exact (double_le_trans _ _ _ Hy Hm Htop Hmy Habove).
Qed.

Lemma double_fold_nan {A : Type} (raw : A -> float) (items : list A)
    (init : float) :
  PrimFloat.is_nan init = true
  \/ (exists x, In x items /\ PrimFloat.is_nan (raw x) = true) ->
  PrimFloat.is_nan (fold_left (fun m x => double_max m (raw x)) items init)
  = true.
Proof.
  revert init. induction items as [|y items IH]; intros init Hnan.
  - destruct Hnan as [Hinit|(x & [] & _)]. exact Hinit.
  - cbn [fold_left]. apply IH.
    destruct Hnan as [Hinit|(x & [<-|Hx] & Hnan)].
    + left. apply double_max_nan. now left.
    + left. apply double_max_nan. now right.
    + right. now exists x.
Qed.

End DoubleOrder.

Section DoubleHeights.
Import OSMToSTL.

Lemma double_heightScaleOf (features : list (@Feature Double))
    (config : @Config Double) :
  heightScaleOf features config
  = if PrimFloat.ltb 0 (maxBuildingHeightOf features config)
    then PrimFloat.div (maxHeight config) (maxBuildingHeightOf features config)
    else 1%float.
Proof. reflexivity. Qed.

Lemma double_maxBuildingHeightOf (features : list (@Feature Double))
    (config : @Config Double) :
  maxBuildingHeightOf features config
  = fold_left (fun m f => double_max m (rawHeight config f)) features 0%float.
Proof. reflexivity. Qed.

Lemma double_scaling (features : list (@Feature Double))
    (config : @Config Double) (tallest : @Feature Double) :
  In tallest features ->
  (forall f, In f features -> PrimFloat.is_nan (rawHeight config f) = false) ->
  (forall f, In f features ->
     PrimFloat.ltb (rawHeight config tallest) (rawHeight config f) = false) ->
  PrimFloat.ltb 0 (rawHeight config tallest) = true ->
  maxBuildingHeightOf features config = rawHeight config tallest
  /\ heightScaleOf features config
     = PrimFloat.div (maxHeight config) (rawHeight config tallest).
Proof.
  intros Hin Hnumbers Hmax Hpos.
  assert (Htop : maxBuildingHeightOf features config
                 = rawHeight config tallest).
  { rewrite double_maxBuildingHeightOf.
    destruct (double_fold_max (rawHeight config) features 0%float eq_refl
                Hnumbers) as (Hnumber & Hfrom & _ & Hall).
    cbv zeta in *. set (top := fold_left _ features _) in *.
    symmetry. apply double_antisym.
    - exact Hnumber.
    - exact Hpos.
    - destruct Hfrom as [->|(g & Hg & ->)].
      + now apply double_ltb_asym.
      + now apply Hmax.
    - now apply Hall. }
  split; [exact Htop|].
  rewrite double_heightScaleOf, Htop, Hpos. reflexivity.
Qed.

Lemma double_scaling_none (features : list (@Feature Double))
    (config : @Config Double) :
  (forall f, In f features -> PrimFloat.is_nan (rawHeight config f) = false) ->
  (forall f, In f features ->
     PrimFloat.ltb 0 (rawHeight config f) = false) ->
  heightScaleOf features config = 1%float.
Proof.
  intros Hnumbers Hlow.
  rewrite double_heightScaleOf, double_maxBuildingHeightOf.
  destruct (double_fold_max (rawHeight config) features 0%float eq_refl
              Hnumbers) as (_ & Hfrom & _).
  cbv zeta in *. set (top := fold_left _ features _) in *.
  destruct Hfrom as [->|(g & Hg & ->)].
  - reflexivity.
  - now rewrite Hlow.
Qed.

Lemma double_scaling_nan (features : list (@Feature Double))
    (config : @Config Double) (feature : @Feature Double) :
  In feature features ->
  PrimFloat.is_nan (rawHeight config feature) = true ->
  PrimFloat.is_nan (maxBuildingHeightOf features config) = true
  /\ heightScaleOf features config = 1%float.
Proof.
  intros Hin Hnan.
  assert (Htop : PrimFloat.is_nan (maxBuildingHeightOf features config)
                 = true).
  { rewrite double_maxBuildingHeightOf. apply double_fold_nan.
    right. now exists feature. }
  split; [exact Htop|].
  rewrite double_heightScaleOf.
  destruct (PrimFloat.ltb 0 (maxBuildingHeightOf features config)) eqn:Hlt;
    [|reflexivity].
  exfalso. rewrite FloatAxioms.ltb_spec in Hlt.
  assert (Hspec : Prim2SF (maxBuildingHeightOf features config) = S754_nan).
  { destruct (Prim2SF (maxBuildingHeightOf features config)) eqn:Hsf;
      try reflexivity;
      exfalso;
      assert (Hno : PrimFloat.is_nan (maxBuildingHeightOf features config)
                    = false)
        by (apply double_number; rewrite Hsf; discriminate);
      congruence. }
  rewrite Hspec in Hlt. change (Prim2SF 0) with (S754_zero false) in Hlt.
  discriminate.
Qed.

End DoubleHeights.

(** C5, amended. The buildings layer takes M, the result of [Math.max]
    over 0 and the raw heights of the whole feature set, uses the scale
    factor maxHeight / M when M > 0 and 1.0 otherwise, and extrudes each
    building (a polygon whose exterior ring has at most 500 points) with
    the simple prism builder from z0 = baseThickness to
    z1 = baseThickness + rawHeight * scale, in [processLayer] and in
    [scaleCoordinates] alike.  In the double precision of the program:
    when no raw height is NaN and the greatest raw height h is positive,
    M is h, the scale is the double maxHeight / h and the top of that
    building is the double baseThickness + h * (maxHeight / h), which need
    not be baseThickness + maxHeight; when no raw height is NaN and none
    is positive the scale is 1.0; when a raw height is NaN, M is NaN and
    the scale is 1.0. *)
Theorem buildings_are_scaled :
  (forall (N : Num) (features : list OSMToSTL.Feature)
          (bbox : OSMToSTL.BBox) (config : OSMToSTL.Config),
     Forall wellFormed features ->
     let maxRaw := OSMToSTL.maxBuildingHeightOf features config in
     let scale := OSMToSTL.heightScaleOf features config in
     maxRaw = fold_left (fun m f => max m (rawHeight config f)) features
                        (int 0)
     /\ scale = (if (maxRaw >? int 0)%js
                 then (OSMToSTL.maxHeight config / maxRaw)%js
                 else int 1)
     /\ OSMToSTL.processLayer features bbox config "buildings"
        = Some (fold_left extrude (extrusions bbox config scale features)
                          GeometryProcessor.empty)
     /\ OSMToSTL.scaleCoordinates features [] [] [] bbox config
        = Some (fold_left extrude (extrusions bbox config scale features)
                  (createSolidBase (OSMToSTL.baseSizeOf config)
                                   (OSMToSTL.baseThickness config)))
     /\ forall ring z0 z1,
          In (ring, z0, z1) (extrusions bbox config scale features) ->
          z0 = OSMToSTL.baseThickness config
          /\ exists feature,
               In feature features
               /\ z1 = (OSMToSTL.baseThickness config
                        + rawHeight config feature * scale)%js)
  /\ (forall (features : list (@OSMToSTL.Feature Double))
             (config : @OSMToSTL.Config Double)
             (tallest : @OSMToSTL.Feature Double),
        In tallest features ->
        (forall f, In f features ->
           PrimFloat.is_nan (rawHeight config f) = false) ->
        (forall f, In f features ->
           PrimFloat.ltb (rawHeight config tallest) (rawHeight config f)
           = false) ->
        PrimFloat.ltb 0 (rawHeight config tallest) = true ->
        let scale := OSMToSTL.heightScaleOf features config in
        OSMToSTL.maxBuildingHeightOf features config
        = rawHeight config tallest
        /\ scale = (OSMToSTL.maxHeight config / rawHeight config tallest)%float
        /\ (OSMToSTL.baseThickness config + rawHeight config tallest * scale
            = OSMToSTL.baseThickness config
              + rawHeight config tallest
                * (OSMToSTL.maxHeight config / rawHeight config tallest))%float)
  /\ (forall (features : list (@OSMToSTL.Feature Double))
             (config : @OSMToSTL.Config Double),
        (forall f, In f features ->
           PrimFloat.is_nan (rawHeight config f) = false) ->
        (forall f, In f features ->
           PrimFloat.ltb 0 (rawHeight config f) = false) ->
        OSMToSTL.heightScaleOf features config = 1%float)
  /\ (forall (features : list (@OSMToSTL.Feature Double))
             (config : @OSMToSTL.Config Double)
             (feature : @OSMToSTL.Feature Double),
        In feature features ->
        PrimFloat.is_nan (rawHeight config feature) = true ->
        PrimFloat.is_nan (OSMToSTL.maxBuildingHeightOf features config) = true
        /\ OSMToSTL.heightScaleOf features config = 1%float).
Proof.
  split; [|split; [|split]].
  - intros N features bbox config Hwf maxRaw scale.
    split; [reflexivity|]. split; [reflexivity|].
    split; [now apply processLayer_buildings|].
    split; [now apply scaleCoordinates_buildings|].
    apply In_extrusions.
  - intros features config tallest Hin Hnumbers Hmax Hpos scale.
    destruct (double_scaling features config tallest Hin Hnumbers Hmax Hpos)
      as [Htop Hscale].
    split; [exact Htop|]. split; [exact Hscale|].
    subst scale. now rewrite Hscale.
  - apply double_scaling_none.
  - apply double_scaling_nan.
Qed.

(** C5 on the example of the specification, in double precision: raw
    heights 10, 20 and 40 with maxHeight 20 on a base of 2 give M = 40, the
    scale 0.5 and tops at 7, 12 and 22; and with a default height that is
    not a number, a building without a height tag makes the scale 1.0. *)
Lemma buildings_are_scaled_samples :
  let features :=
    [Sample.building "10"; Sample.building "20"; Sample.building "40"] in
  let config := Sample.config 20 in
  let tallest := Sample.building "40" in
  let untagged := Sample.levels (OSMToSTL.TagString "many") in
  (Forall wellFormed features
   /\ In tallest features
   /\ (forall f, In f features ->
         PrimFloat.is_nan (rawHeight config f) = false)
   /\ (forall f, In f features ->
         PrimFloat.ltb (rawHeight config tallest) (rawHeight config f)
         = false)
   /\ PrimFloat.ltb 0 (rawHeight config tallest) = true
   /\ PrimFloat.is_nan (rawHeight Sample.configWithoutDefault untagged)
      = true)
  /\ option_map Sample.heights
       (OSMToSTL.processLayer features Sample.unitBox config "buildings")
     = Some [2; 7; 2; 7; 2; 7; 2; 7;
             2; 12; 2; 12; 2; 12; 2; 12;
             2; 22; 2; 22; 2; 22; 2; 22]%float
  /\ OSMToSTL.maxBuildingHeightOf features config = 40%float
  /\ OSMToSTL.heightScaleOf features config = 0.5%float
  /\ OSMToSTL.heightScaleOf [Sample.building "40"; untagged]
       Sample.configWithoutDefault = 1%float.
Proof.
  intros features config tallest untagged.
  assert (Hwf : Forall wellFormed features)
    by (repeat constructor; discriminate).
  assert (Hin : In tallest features) by (right; right; now left).
  assert (Hnumbers : forall f, In f features ->
            PrimFloat.is_nan (rawHeight config f) = false)
    by (intros f [<-|[<-|[<-|[]]]]; vm_compute; reflexivity).
  assert (Hmax : forall f, In f features ->
            PrimFloat.ltb (rawHeight config tallest) (rawHeight config f)
            = false)
    by (intros f [<-|[<-|[<-|[]]]]; vm_compute; reflexivity).
  assert (Hpos : PrimFloat.ltb 0 (rawHeight config tallest) = true)
    by (vm_compute; reflexivity).
  assert (Hnan : PrimFloat.is_nan
                   (rawHeight Sample.configWithoutDefault untagged) = true)
    by (vm_compute; reflexivity).
  split; [exact (conj Hwf (conj Hin (conj Hnumbers (conj Hmax
                   (conj Hpos Hnan)))))|].
  destruct buildings_are_scaled as (Hgeneric & Hdouble & _ & Hnot).
  split; [|split; [|split]].
  - destruct (Hgeneric Double features Sample.unitBox config Hwf)
      as (_ & _ & Hlayer & _).
    rewrite Hlayer. vm_compute. reflexivity.
  - destruct (Hdouble features config tallest Hin Hnumbers Hmax Hpos)
      as (Htop & _).
    rewrite Htop. vm_compute. reflexivity.
  - destruct (Hdouble features config tallest Hin Hnumbers Hmax Hpos)
      as (_ & Hscale & _).
    rewrite Hscale. vm_compute. reflexivity.
  - exact (proj2 (Hnot [Sample.building "40"; untagged]
                    Sample.configWithoutDefault untagged
                    (or_intror (or_introl eq_refl)) Hnan)).
Defined.

(** C5 as stated fails in double precision: with raw heights 5, 8 and 11,
    maxHeight 30 and a base of 2, every vertex of the layer, the top of
    the tallest building included, is below baseThickness + maxHeight. *)
Lemma buildings_top_is_rounded :
  match OSMToSTL.processLayer
          [Sample.building "5"; Sample.building "8"; Sample.building "11"]
          Sample.unitBox (Sample.config 30) "buildings" with
  | Some mesh =>
      length (vertices mesh) = 24%nat
      /\ forallb (fun z => PrimFloat.ltb z (2 + 30)) (Sample.heights mesh)
         = true
      /\ PrimFloat.eqb (2 + 11 * (30 / 11)) (2 + 30) = false
      /\ nth 23 (Sample.heights mesh) 0%float = (2 + 11 * (30 / 11))%float
  | None => False
  end.
Proof. vm_compute. repeat split. Qed.

(** ** The height of a building *)

Section Heights.
Context `{Num}.
Import OSMToSTL.

(** The fallback chain: the first of [height], [building:height] and
    [building:levels] whose value gives a height decides, the default
    height otherwise. *)
Lemma getBuildingHeight_chain (feature : Feature) (defaultHeight : num) :
  getBuildingHeight feature defaultHeight =
  match heightOfTag "height" (tags feature !! "height"%string) with
  | Some height => height
  | None =>
      match heightOfTag "building:height"
              (tags feature !! "building:height"%string) with
      | Some height => height
      | None =>
          match heightOfTag "building:levels"
                  (tags feature !! "building:levels"%string) with
          | Some height => height
          | None => defaultHeight
          end
      end
  end.
Proof.
  unfold getBuildingHeight, heightAttrs, heightFrom, heightOfTag.
  repeat
    (match goal with
     | |- context [tags feature !! ?attr] =>
         destruct (tags feature !! attr) as [[?|?|]|]
     | |- context [isNaN ?h] => destruct (isNaN h)
     | |- context [matchDecimal ?t] => destruct (matchDecimal t)
     end; cbn [negb option_map String.eqb Ascii.eqb Bool.eqb]);
    reflexivity.
Qed.

End Heights.

(** The decimal token of a tag value: the leftmost one, wherever it
    starts. *)
Lemma matchDecimal_samples :
  OSMToSTL.matchDecimal "12.5 m" = Some "12.5"%string
  /\ OSMToSTL.matchDecimal "ca. 7.25m" = Some "7.25"%string
  /\ OSMToSTL.matchDecimal "3" = Some "3"%string
  /\ OSMToSTL.matchDecimal "12." = Some "12."%string
  /\ OSMToSTL.matchDecimal "1.2.3" = Some "1.2"%string
  /\ OSMToSTL.matchDecimal "tall" = None
  /\ @parseFloat Double "12.5" = 12.5%float
  /\ @parseFloat Double "12." = 12%float.
Proof. vm_compute. repeat split. Qed.

(** C4 at its failing input: a [building:levels] tag of "5", as the tags
    of the map data are strings, gives 5, where the same tag as the number
    5 gives 15; with no usable tag the default is returned. *)
Lemma getBuildingHeight_string_levels :
  OSMToSTL.getBuildingHeight
    (Sample.levels (OSMToSTL.TagString "5")) 10%float = 5%float
  /\ OSMToSTL.getBuildingHeight
       (Sample.levels (OSMToSTL.TagNumber 5%float)) 10%float = 15%float
  /\ OSMToSTL.getBuildingHeight
       (Sample.levels (OSMToSTL.TagString "many")) 10%float = 10%float.
Proof. vm_compute. repeat split. Qed.

(* ===================================================================== *)
(** * Further properties *)
(* ===================================================================== *)

(** ** Prisms as surfaces *)

Section Surfaces.
Context `{Num}.

Lemma addPrismFromPolygon_accepts (this : Mesh) (coords : list Point)
    (z0 z1 : num) :
  let ring := cleanCoords coords in
  let n := len ring in
  let bottom := fun i => (len (vertices this) + 2 * i)%Z in
  let top := fun i => (len (vertices this) + 2 * i + 1)%Z in
  (3 <= length coords)%nat -> (length ring <= 500)%nat ->
  addPrismFromPolygon coords z0 z1 this =
  {| vertices := vertices this ++ pillars ring z0 z1;
     faces := faces this ++ walls bottom top n ++ caps bottom top (fan n) |}.
Proof.
  intros ring n bottom top Hraw Hn.
  unfold addPrismFromPolygon. fold ring. unfold len at 1 2.
  decide_guards. fold n. f_equal. f_equal. rewrite caps_fan. f_equal.
  apply flat_map_ext. intros i. subst bottom top. cbn beta. same_faces.
Qed.

Lemma flat_map_flat_map {A B C : Type} (f : B -> list C) (g : A -> list B)
    (l : list A) :
  flat_map f (flat_map g l) = flat_map (fun x => flat_map f (g x)) l.
Proof.
  induction l as [|x l IH]; [reflexivity|].
  cbn [flat_map]. now rewrite flat_map_app, IH.
Qed.

Lemma meshEdges_app (faces1 faces2 : list Face) :
  meshEdges (faces1 ++ faces2) = meshEdges faces1 ++ meshEdges faces2.
Proof. apply flat_map_app. Qed.

Lemma next_cases (n k : Z) :
  (0 <= k < n)%Z ->
  (((k + 1) mod n = k + 1 /\ k + 1 < n) \/ ((k + 1) mod n = 0 /\ k = n - 1))%Z.
Proof.
  intros Hk. destruct (Z.eq_dec k (n - 1)%Z) as [->|Hne].
  - right. split; [|reflexivity].
    replace (n - 1 + 1)%Z with n by lia. apply Z_mod_same_full.
  - left. split; [apply Z.mod_small|]; lia.
Qed.

Lemma In_wall_edges (bottom top : Z -> Z) (n : Z) (e : Z * Z) :
  In e (meshEdges (walls bottom top n)) <->
  exists i j, (0 <= i < n)%Z /\ j = ((i + 1) mod n)%Z /\
    In e [(bottom i, bottom j); (bottom j, top i); (top i, bottom i);
          (top i, bottom j); (bottom j, top j); (top j, top i)].
Proof.
  unfold meshEdges, walls. rewrite flat_map_flat_map, in_flat_map. split.
  - intros (i & Hi & He). apply In_forRange in Hi.
    exists i, ((i + 1) mod n)%Z. repeat split; try lia. exact He.
  - intros (i & j & Hi & -> & He). exists i. split; [|exact He].
    apply In_forRange. lia.
Qed.

Lemma In_cap_edges (bottom top : Z -> Z) (n : Z) (e : Z * Z) :
  In e (meshEdges (caps bottom top (fan n))) <->
  exists i, (1 <= i <= n - 2)%Z /\
    In e [(bottom 0, bottom (i + 1)); (bottom (i + 1), bottom i);
          (bottom i, bottom 0);
          (top 0, top i); (top i, top (i + 1)); (top (i + 1), top 0)]%Z.
Proof.
  unfold meshEdges. rewrite caps_fan, flat_map_flat_map, in_flat_map. split.
  - intros (i & Hi & He). apply In_forRange in Hi.
    exists i. split; [lia|exact He].
  - intros (i & Hi & He). exists i. split; [|exact He].
    apply In_forRange. lia.
Qed.


Lemma prism_closed (bottom top : Z -> Z) (n : Z) :
  (2 <= n)%Z ->
  closedSurface (walls bottom top n ++ caps bottom top (fan n)).
Proof.
  intros Hn a b.
  rewrite meshEdges_app, !in_app_iff, !In_wall_edges, !In_cap_edges.
  destruct (Z.eq_dec n 2%Z) as [Htwo|Hmore].
  - intros [(i & j & Hi & Hj & He)|(i & Hi & He)]; [|lia].
    destruct (next_cases n i Hi) as [[Hnext Hlt]|[Hnext Hwrap]];
      rewrite Hnext in Hj; subst j;
      cbn [In] in He;
      destruct He as [He|[He|[He|[He|[He|[He|[]]]]]]];
      injection He as <- <-; opposite_edge i n.
  - intros [(i & j & Hi & Hj & He)|(i & Hi & He)].
    + destruct (Z.eq_dec i 0%Z) as [Hzero|Hpos];
        destruct (Z.eq_dec (i + 1)%Z (n - 1)%Z) as [Hlast|Hnotlast];
        (destruct (next_cases n i Hi) as [[Hnext Hlt]|[Hnext Hwrap]];
         rewrite Hnext in Hj; subst j;
         cbn [In] in He;
         destruct He as [He|[He|[He|[He|[He|[He|[]]]]]]];
         injection He as <- <-; opposite_edge i n).
    + destruct (Z.eq_dec i 1%Z) as [Hone|Hnotone];
        destruct (Z.eq_dec i (n - 2)%Z) as [Hlast|Hnotlast];
        cbn [In] in He;
        destruct He as [He|[He|[He|[He|[He|[He|[]]]]]]];
        injection He as <- <-; opposite_edge i n.
Qed.


Lemma closedSurface_app (faces1 faces2 : list Face) :
  closedSurface faces1 -> closedSurface faces2 ->
  closedSurface (faces1 ++ faces2).
Proof.
  intros H1 H2 a b. rewrite meshEdges_app, !in_app_iff.
  intros [Hin|Hin]; [left; now apply H1|right; now apply H2].
Qed.

Lemma addPrismFromPolygon_cases (this : Mesh) (coords : list Point)
    (z0 z1 : num) :
  let ring := cleanCoords coords in
  let n := len ring in
  let bottom := fun i => (len (vertices this) + 2 * i)%Z in
  let top := fun i => (len (vertices this) + 2 * i + 1)%Z in
  addPrismFromPolygon coords z0 z1 this = this
  \/ ((2 <= n <= 500)%Z /\
      addPrismFromPolygon coords z0 z1 this =
      {| vertices := vertices this ++ pillars ring z0 z1;
         faces := faces this ++ walls bottom top n
                             ++ caps bottom top (fan n) |}).
Proof.
  intros ring n bottom top.
  pose proof (length_cleanCoords coords) as Hc. fold ring in Hc.
  destruct (Nat.lt_ge_cases (length coords) 3) as [Hshort|Hraw].
  - left. apply addPrismFromPolygon_rejects. now left.
  - destruct (Nat.lt_ge_cases 500 (length ring)) as [Hbig|Hn].
    + left. apply addPrismFromPolygon_rejects. now right.
    + right. split; [unfold n, len; lia|].
      now apply addPrismFromPolygon_accepts.
Qed.

Lemma addPrismFromPolygon_closed (this : Mesh) (coords : list Point)
    (z0 z1 : num) :
  closedSurface (faces this) ->
  closedSurface (faces (addPrismFromPolygon coords z0 z1 this)).
Proof.
  intros Hclosed.
  destruct (addPrismFromPolygon_cases this coords z0 z1) as [->|[Hn ->]];
    [exact Hclosed|].
  cbn [faces]. apply closedSurface_app; [exact Hclosed|].
  apply prism_closed. lia.
Qed.

Lemma addPrismFromPolygonTriangulated_cases (this : Mesh)
    (coords : list Point) (z0 z1 : num) :
  let ring := cleanCoords coords in
  let k := len ring in
  let bottom := fun i => (len (vertices this) + i)%Z in
  let top := fun i => (len (vertices this) + k + i)%Z in
  addPrismFromPolygonTriangulated coords z0 z1 this = this
  \/ ((3 <= k <= 1000)%Z /\
      addPrismFromPolygonTriangulated coords z0 z1 this =
      {| vertices := vertices this ++ layer ring z0 ++ layer ring z1;
         faces := faces this ++ caps bottom top (triangulatePolygon ring)
                             ++ walls bottom top k |}).
Proof.
  intros ring k bottom top.
  pose proof (length_cleanCoords coords) as Hc. fold ring in Hc.
  destruct (Nat.lt_ge_cases (length coords) 3) as [Hshort|Hraw];
    [left; apply addPrismFromPolygonTriangulated_rejects; lia|].
  destruct (Nat.lt_ge_cases 1000 (length coords)) as [Hbig|Hmax];
    [left; apply addPrismFromPolygonTriangulated_rejects; lia|].
  destruct (Nat.lt_ge_cases (length ring) 3) as [Hfew|Hk];
    [left; apply addPrismFromPolygonTriangulated_rejects; fold ring; lia|].
  destruct (triangulatePolygon ring) as [|tri rest] eqn:Htri.
  - left. unfold addPrismFromPolygonTriangulated. fold ring.
    rewrite Htri. change (len (@nil Face)) with 0%Z.
    unfold len at 1 2 3 4. decide_guards; reflexivity.
  - right. split; [unfold k, len; lia|]. rewrite <- Htri.
    apply addPrismFromPolygonTriangulated_accepts; fold ring;
      [exact Hk|exact Hmax|]. rewrite Htri. discriminate.
Qed.

Lemma addPrismFromPolygonTriangulated_closed (this : Mesh)
    (coords : list Point) (z0 z1 : num) :
  endsMeet (cleanCoords coords) = false ->
  closedSurface (faces this) ->
  closedSurface (faces (addPrismFromPolygonTriangulated coords z0 z1 this)).
Proof.
  intros Hopen Hclosed.
  destruct (addPrismFromPolygonTriangulated_cases this coords z0 z1)
    as [->|[Hk ->]]; [exact Hclosed|].
  cbn [faces]. apply closedSurface_app; [exact Hclosed|].
  assert (Hfan : triangulatePolygon (cleanCoords coords)
                 = fan (len (cleanCoords coords))).
  { assert (Hclean : cleanCoords (cleanCoords coords) = cleanCoords coords)
      by (unfold cleanCoords at 1; now rewrite Hopen).
    unfold len in Hk.
    rewrite triangulatePolygon_accepts; rewrite ?Hclean;
      [reflexivity|lia|lia]. }
  rewrite Hfan. intros a b. rewrite !meshEdges_app, !in_app_iff.
  intros Hin. apply or_comm. rewrite <- in_app_iff, <- meshEdges_app.
  apply prism_closed; [lia|].
  rewrite meshEdges_app, in_app_iff. tauto.
Qed.

End Surfaces.

(** ** What the builders leave alone *)

Section Frame.
Context `{Num}.

Lemma walls_between (bottom top : Z -> Z) (n lo hi : Z) :
  (forall i, 0 <= i < n -> lo <= bottom i < hi /\ lo <= top i < hi)%Z ->
  Forall (Forall (fun i => (lo <= i < hi)%Z)) (walls bottom top n).
Proof.
  intros Hidx. apply Forall_flat_map_intro. intros i Hi.
  apply In_forRange in Hi.
  assert (Hj : (0 <= (i + 1) mod n < n)%Z) by (apply Z.mod_pos_bound; lia).
  destruct (Hidx i Hi) as [Hb Ht]. destruct (Hidx _ Hj) as [Hb' Ht'].
  unfold wall. repeat first [apply List.Forall_nil|apply List.Forall_cons]; lia.
Qed.

Lemma caps_between (bottom top : Z -> Z) (n lo hi : Z)
    (triangles : list Face) :
  (forall i, 0 <= i < n -> lo <= bottom i < hi /\ lo <= top i < hi)%Z ->
  (forall tri, In tri triangles ->
     exists i, tri = [0; i; i + 1] /\ 1 <= i /\ i + 1 < n)%Z ->
  Forall (Forall (fun i => (lo <= i < hi)%Z)) (caps bottom top triangles).
Proof.
  intros Hidx Hfan. apply Forall_flat_map_intro. intros tri Htri.
  destruct (Hfan tri Htri) as (i & -> & Hlo & Hhi). unfold item. cbn.
  destruct (Hidx 0%Z) as [? ?]; [lia|].
  destruct (Hidx i) as [? ?]; [lia|].
  destruct (Hidx (i + 1)%Z) as [? ?]; [lia|].
  repeat first [apply List.Forall_nil|apply List.Forall_cons]; assumption.
Qed.

Lemma appendsTo_refl (this : Mesh) : appendsTo this this.
Proof. exists [], []. rewrite !app_nil_r. repeat split. constructor. Qed.

Lemma appendsTo_trans (a b c : Mesh) :
  appendsTo a b -> appendsTo b c -> appendsTo a c.
Proof.
  intros (v1 & f1 & Hv1 & Hf1 & Hi1) (v2 & f2 & Hv2 & Hf2 & Hi2).
  assert (Hab : (len (vertices a) <= len (vertices b))%Z)
    by (rewrite Hv1; unfold len; rewrite length_app; lia).
  assert (Hbc : (len (vertices b) <= len (vertices c))%Z)
    by (rewrite Hv2; unfold len; rewrite length_app; lia).
  exists (v1 ++ v2), (f1 ++ f2).
  split; [now rewrite Hv2, Hv1, <- app_assoc|].
  split; [now rewrite Hf2, Hf1, <- app_assoc|].
  apply Forall_app. split.
  - eapply List.Forall_impl; [|exact Hi1]. intros face.
    apply List.Forall_impl. intros i. lia.
  - eapply List.Forall_impl; [|exact Hi2]. intros face.
    apply List.Forall_impl. intros i. lia.
Qed.

Lemma addPrismFromPolygon_appends (this : Mesh) (coords : list Point)
    (z0 z1 : num) :
  appendsTo this (addPrismFromPolygon coords z0 z1 this).
Proof.
  destruct (addPrismFromPolygon_cases this coords z0 z1) as [->|[Hn ->]];
    [apply appendsTo_refl|].
  eexists _, _. cbn [vertices faces]. split; [reflexivity|].
  split; [reflexivity|].
  assert (Hcount :
    len (vertices this ++ pillars (cleanCoords coords) z0 z1)
    = (len (vertices this) + 2 * len (cleanCoords coords))%Z).
  { unfold len. rewrite length_app, length_pillars. lia. }
  rewrite Hcount. apply Forall_app. split.
  - apply walls_between. intros i Hi. unfold len in *. lia.
  - apply (caps_between _ _ (len (cleanCoords coords))).
    + intros i Hi. unfold len in *. lia.
    + apply In_fan.
Qed.

Lemma addPrismFromPolygonTriangulated_appends (this : Mesh)
    (coords : list Point) (z0 z1 : num) :
  appendsTo this (addPrismFromPolygonTriangulated coords z0 z1 this).
Proof.
  destruct (addPrismFromPolygonTriangulated_cases this coords z0 z1)
    as [->|[Hk ->]]; [apply appendsTo_refl|].
  eexists _, _. cbn [vertices faces]. split; [reflexivity|].
  split; [reflexivity|].
  assert (Hcount :
    len (vertices this ++ layer (cleanCoords coords) z0
                       ++ layer (cleanCoords coords) z1)
    = (len (vertices this) + 2 * len (cleanCoords coords))%Z).
  { unfold len. rewrite !length_app, !length_layer. lia. }
  rewrite Hcount. apply Forall_app. split.
  - apply (caps_between _ _ (len (cleanCoords coords))).
    + intros i Hi. unfold len in *. lia.
    + intros tri Htri. apply In_triangulatePolygon in Htri. exact Htri.
  - apply walls_between. intros i Hi. unfold len in *. lia.
Qed.

End Frame.

(** ** The layer loops *)

Section Pipeline.
Context `{Num}.
Import OSMToSTL.

Lemma forEachM_cons {I S : Type} (body : I -> S -> option S) (i : I)
    (items : list I) (s : S) :
  forEachM body (i :: items) s =
  match body i s with
  | Some s' => forEachM body items s'
  | None => None
  end.
Proof.
  unfold forEachM. cbn [fold_left].
  destruct (body i s) as [s'|]; [reflexivity|].
  induction items as [|j items IH]; [reflexivity|exact IH].
Qed.

Lemma forEachM_some_iff {I S : Type} (body : I -> S -> option S)
    (Q : I -> Prop) (items : list I) (s : S) :
  (forall i s', (exists s'', body i s' = Some s'') <-> Q i) ->
  ((exists s', forEachM body items s = Some s') <-> Forall Q items).
Proof.
  intros Hbody. revert s.
  induction items as [|i items IH]; intros s.
  - split; [constructor|]. intros _. now exists s.
  - rewrite forEachM_cons. split.
    + intros [s' Hs']. destruct (body i s) as [s1|] eqn:Hstep; [|discriminate].
      apply List.Forall_cons.
      * apply (Hbody i s). eauto.
      * apply (IH s1). eauto.
    + intros Hall. inversion Hall as [|? ? Hi Hrest]; subst.
      apply (Hbody i s) in Hi as [s1 Hs1]. rewrite Hs1.
      now apply IH.
Qed.

Lemma forEachM_invariant {I S : Type} (body : I -> S -> option S)
    (P : S -> Prop) (items : list I) (s s' : S) :
  (forall i a b, body i a = Some b -> P a -> P b) ->
  P s -> forEachM body items s = Some s' -> P s'.
Proof.
  intros Hbody. revert s.
  induction items as [|i items IH]; intros s Hs.
  - intros [= <-]. exact Hs.
  - rewrite forEachM_cons.
    destruct (body i s) as [s1|] eqn:Hstep; [|discriminate].
    apply IH. now apply (Hbody i s).
Qed.

Lemma buildingStep_some_iff (bbox : BBox) (config : Config) (scale : num)
    (feature : Feature) (this : Mesh) :
  (exists mesh, buildingStep bbox config scale feature this = Some mesh)
  <-> wellFormed feature.
Proof.
  split; [|intros Hwf; rewrite buildingStep_wellFormed; eauto].
  unfold buildingStep, wellFormed.
  destruct (geometry feature) as [[|exterior rings]|line];
    [intros [mesh [=]]| |auto].
  destruct exterior as [|p exterior]; [|discriminate].
  cbn. intros [mesh [=]].
Qed.

Lemma areaStep_some_iff (bbox : BBox) (config : Config)
    (feature : Feature) (this : Mesh) :
  (exists mesh, areaStep bbox config feature this = Some mesh)
  <-> wellFormed feature.
Proof.
  unfold areaStep, wellFormed.
  destruct (geometry feature) as [[|exterior rings]|line].
  - split; [intros [mesh [=]]|intros []].
  - destruct exterior as [|p exterior].
    + cbn. split; [intros [mesh [=]]|congruence].
    + rewrite closeRing_autoClosed by discriminate.
      split; [discriminate|eauto].
  - split; eauto.
Qed.

Lemma roadStep_some (bbox : BBox) (config : Config) (feature : Feature)
    (this : Mesh) :
  exists mesh, roadStep bbox config feature this = Some mesh.
Proof.
  unfold roadStep. destruct (geometry feature) as [rings|line]; [eauto|].
  destruct (len line >=? 2)%Z; eauto.
Qed.

(** Every step of a layer loop is a sequence of calls of a prism
    builder. *)
Lemma buildingStep_preserves (P : Mesh -> Prop) :
  (forall coords z0 z1 this,
     P this -> P (addPrismFromPolygon coords z0 z1 this)) ->
  forall (bbox : BBox) (config : Config) (scale : num) (feature : Feature)
         (this mesh : Mesh),
    buildingStep bbox config scale feature this = Some mesh ->
    P this -> P mesh.
Proof.
  intros Hsimple bbox config scale feature this mesh Hstep Hthis.
  revert Hstep. unfold buildingStep, OSMToSTL.addPrismFromPolygon.
  destruct (geometry feature) as [[|exterior rings]|line];
    [discriminate| |now intros [= <-]].
  destruct (len exterior >? 500)%Z; [now intros [= <-]|].
  destruct (closeRing _) as [ring|]; [|discriminate].
  intros [= <-]. now apply Hsimple.
Qed.

Lemma areaStep_preserves (P : Mesh -> Prop) :
  (forall coords z0 z1 this,
     P this -> P (addPrismFromPolygonTriangulated coords z0 z1 this)) ->
  forall (bbox : BBox) (config : Config) (feature : Feature)
         (this mesh : Mesh),
    areaStep bbox config feature this = Some mesh ->
    P this -> P mesh.
Proof.
  intros Htriangulated bbox config feature this mesh Hstep Hthis.
  revert Hstep. unfold areaStep, OSMToSTL.addPrismFromPolygonTriangulated.
  destruct (geometry feature) as [[|exterior rings]|line];
    [discriminate| |now intros [= <-]].
  destruct (closeRing _) as [ring|]; [|discriminate].
  intros [= <-]. now apply Htriangulated.
Qed.

Lemma roadStep_preserves (P : Mesh -> Prop) :
  (forall coords z0 z1 this,
     P this -> P (addPrismFromPolygonTriangulated coords z0 z1 this)) ->
  forall (bbox : BBox) (config : Config) (feature : Feature)
         (this mesh : Mesh),
    roadStep bbox config feature this = Some mesh ->
    P this -> P mesh.
Proof.
  intros Htriangulated bbox config feature this mesh Hstep Hthis.
  revert Hstep. unfold roadStep, OSMToSTL.addPrismFromPolygonTriangulated.
  destruct (geometry feature) as [rings|line]; [now intros [= <-]|].
  destruct (len line >=? 2)%Z; [|now intros [= <-]].
  intros [= <-].
  generalize (OSMToSTL.bufferLineString
                (map (toModelXY bbox config) line) (roadWidth config)).
  intros quads. revert this Hthis.
  induction quads as [|quad quads IH]; intros this Hthis; [exact Hthis|].
  cbn [fold_left]. apply IH.
  repeat match goal with
         | |- context [if ?c then this else _] => destruct c; cbv iota
         | |- context [if ?c then _ else this] => destruct c; cbv iota
         end; try exact Hthis.
  now apply Htriangulated.
Qed.

Lemma stage_forEachM (enabled : bool) (step : Feature -> Mesh -> option Mesh)
    (features : list Feature) (this : Mesh) :
  (if enabled && (len features >? 0)%Z
   then forEachM (atFeature step features) (forRange 0 (len features)) this
   else Some this)
  = if enabled then forEachM step features this else Some this.
Proof.
  destruct enabled; [|reflexivity]. cbn [andb].
  destruct features as [|feature features]; [reflexivity|].
  change (len (feature :: features) >? 0)%Z
    with (Z.pos (Pos.of_succ_nat (length features)) >? 0)%Z.
  cbn [Z.gtb Z.compare]. apply forEachM_atFeature.
Qed.

Lemma scaleCoordinates_stages (buildings roads greens water : list Feature)
    (bbox : BBox) (config : Config) :
  scaleCoordinates buildings roads greens water bbox config =
  match forEachM (buildingStep bbox config (heightScaleOf buildings config))
          buildings
          (createSolidBase (baseSizeOf config) (baseThickness config)) with
  | None => None
  | Some this =>
      match (if includeRoads config
             then forEachM (roadStep bbox config) roads this
             else Some this) with
      | None => None
      | Some this =>
          match (if includeGreens config
                 then forEachM (areaStep bbox config) greens this
                 else Some this) with
          | None => None
          | Some this =>
              if includeWater config
              then forEachM (areaStep bbox config) water this
              else Some this
          end
      end
  end.
Proof.
  unfold scaleCoordinates. rewrite !stage_forEachM. cbn [app andb].
  destruct (forEachM _ buildings _) as [this1|]; [|reflexivity].
  rewrite stage_forEachM.
  destruct (if includeRoads config then _ else _) as [this2|];
    [|reflexivity].
  rewrite stage_forEachM.
  destruct (if includeGreens config then _ else _) as [this3|];
    [|reflexivity].
  apply stage_forEachM.
Qed.

Lemma roads_loop_some (bbox : BBox) (config : Config)
    (features : list Feature) (this : Mesh) :
  exists mesh, forEachM (roadStep bbox config) features this = Some mesh.
Proof.
  apply (forEachM_some_iff _ (fun _ => True)).
  - intros feature s. split; [auto|]. intros _. apply roadStep_some.
  - apply List.Forall_forall. auto.
Qed.

Lemma buildings_loop_some_iff (bbox : BBox) (config : Config) (scale : num)
    (features : list Feature) (this : Mesh) :
  (exists mesh,
     forEachM (buildingStep bbox config scale) features this = Some mesh)
  <-> Forall wellFormed features.
Proof.
  apply forEachM_some_iff. intros feature s. apply buildingStep_some_iff.
Qed.

Lemma areas_loop_some_iff (bbox : BBox) (config : Config)
    (features : list Feature) (this : Mesh) :
  (exists mesh, forEachM (areaStep bbox config) features this = Some mesh)
  <-> Forall wellFormed features.
Proof.
  apply forEachM_some_iff. intros feature s. apply areaStep_some_iff.
Qed.

Lemma scaleCoordinates_some_iff (buildings roads greens water : list Feature)
    (bbox : BBox) (config : Config) :
  (exists mesh,
     scaleCoordinates buildings roads greens water bbox config = Some mesh)
  <-> Forall wellFormed buildings
      /\ (includeGreens config = true -> Forall wellFormed greens)
      /\ (includeWater config = true -> Forall wellFormed water).
Proof.
  rewrite scaleCoordinates_stages.
  rewrite <- (buildings_loop_some_iff bbox config
                (heightScaleOf buildings config) buildings
                (createSolidBase (baseSizeOf config) (baseThickness config))).
  destruct (forEachM _ buildings _) as [this1|].
  2:{ split; [intros [mesh [=]]|intros [[mesh [=]] _]]. }
  assert (Hroads : exists this2,
            (if includeRoads config
             then forEachM (roadStep bbox config) roads this1
             else Some this1) = Some this2).
  { destruct (includeRoads config); [apply roads_loop_some|eauto]. }
  destruct Hroads as [this2 ->].
  destruct (includeGreens config).
  - rewrite <- (areas_loop_some_iff bbox config greens this2).
    destruct (forEachM _ greens this2) as [this3|].
    2:{ split; [intros [mesh [=]]|intros (_ & Hg & _)].
        destruct (Hg eq_refl) as [mesh [=]]. }
    destruct (includeWater config).
    + rewrite <- (areas_loop_some_iff bbox config water this3).
      split; [intros Hw; repeat split; eauto|intros (_ & _ & Hw); auto].
    + split; [intros _; repeat split; eauto; discriminate|eauto].
  - destruct (includeWater config).
    + rewrite <- (areas_loop_some_iff bbox config water this2).
      split; [intros Hw; repeat split; eauto; discriminate
             |intros (_ & _ & Hw); auto].
    + split; [intros _; repeat split; eauto; discriminate|eauto].
Qed.

Lemma buildings_loop_preserves (P : Mesh -> Prop) :
  (forall coords z0 z1 this,
     P this -> P (addPrismFromPolygon coords z0 z1 this)) ->
  forall (bbox : BBox) (config : Config) (scale : num)
         (features : list Feature) (this mesh : Mesh),
    forEachM (buildingStep bbox config scale) features this = Some mesh ->
    P this -> P mesh.
Proof.
  intros Hsimple bbox config scale features this mesh Hloop Hthis.
  eapply forEachM_invariant; [|exact Hthis|exact Hloop].
  intros feature a b. now apply buildingStep_preserves.
Qed.

Lemma roads_loop_preserves (P : Mesh -> Prop) :
  (forall coords z0 z1 this,
     P this -> P (addPrismFromPolygonTriangulated coords z0 z1 this)) ->
  forall (bbox : BBox) (config : Config) (features : list Feature)
         (this mesh : Mesh),
    forEachM (roadStep bbox config) features this = Some mesh ->
    P this -> P mesh.
Proof.
  intros Htriangulated bbox config features this mesh Hloop Hthis.
  eapply forEachM_invariant; [|exact Hthis|exact Hloop].
  intros feature a b. now apply roadStep_preserves.
Qed.

Lemma areas_loop_preserves (P : Mesh -> Prop) :
  (forall coords z0 z1 this,
     P this -> P (addPrismFromPolygonTriangulated coords z0 z1 this)) ->
  forall (bbox : BBox) (config : Config) (features : list Feature)
         (this mesh : Mesh),
    forEachM (areaStep bbox config) features this = Some mesh ->
    P this -> P mesh.
Proof.
  intros Htriangulated bbox config features this mesh Hloop Hthis.
  eapply forEachM_invariant; [|exact Hthis|exact Hloop].
  intros feature a b. now apply areaStep_preserves.
Qed.

(** Whatever the two prism builders keep, the combined pipeline keeps
    from the base plate on. *)
Lemma scaleCoordinates_preserves (P : Mesh -> Prop) :
  (forall coords z0 z1 this,
     P this -> P (addPrismFromPolygon coords z0 z1 this)) ->
  (forall coords z0 z1 this,
     P this -> P (addPrismFromPolygonTriangulated coords z0 z1 this)) ->
  forall (buildings roads greens water : list Feature) (bbox : BBox)
         (config : Config) (mesh : Mesh),
    P (createSolidBase (baseSizeOf config) (baseThickness config)) ->
    scaleCoordinates buildings roads greens water bbox config = Some mesh ->
    P mesh.
Proof.
  intros Hsimple Htriangulated buildings roads greens water bbox config mesh
    Hbase.
  rewrite scaleCoordinates_stages.
  destruct (forEachM _ buildings _) as [this1|] eqn:H1; [|discriminate].
  assert (P1 : P this1)
    by (eapply buildings_loop_preserves; eauto).
  destruct (if includeRoads config then _ else _) as [this2|] eqn:H2;
    [|discriminate].
  assert (P2 : P this2).
  { destruct (includeRoads config); [|now injection H2 as <-].
    eapply roads_loop_preserves; eauto. }
  destruct (if includeGreens config then _ else _) as [this3|] eqn:H3;
    [|discriminate].
  assert (P3 : P this3).
  { destruct (includeGreens config); [|now injection H3 as <-].
    eapply areas_loop_preserves; eauto. }
  destruct (includeWater config); [|now intros [= <-]].
  intros H4. eapply areas_loop_preserves; eauto.
Qed.

Lemma processLayer_loops (features : list Feature) (bbox : BBox)
    (config : Config) (layerType : string) :
  processLayer features bbox config layerType =
  if String.eqb layerType "buildings" then
    forEachM (buildingStep bbox config (heightScaleOf features config))
             features GeometryProcessor.empty
  else if String.eqb layerType "roads" then
    forEachM (roadStep bbox config) features GeometryProcessor.empty
  else if String.eqb layerType "greens" || String.eqb layerType "water" then
    forEachM (areaStep bbox config) features GeometryProcessor.empty
  else Some GeometryProcessor.empty.
Proof.
  unfold processLayer.
  destruct (Z.eqb_spec (len features) 0) as [Hnone|Hsome].
  - destruct features; [|discriminate].
    repeat match goal with |- context [if ?c then _ else _] => destruct c end;
      reflexivity.
  - rewrite chunkedIndices_all by (unfold len; lia).
    rewrite !forEachM_atFeature. reflexivity.
Qed.

Lemma processLayer_preserves (P : Mesh -> Prop) :
  (forall coords z0 z1 this,
     P this -> P (addPrismFromPolygon coords z0 z1 this)) ->
  (forall coords z0 z1 this,
     P this -> P (addPrismFromPolygonTriangulated coords z0 z1 this)) ->
  forall (features : list Feature) (bbox : BBox) (config : Config)
         (layerType : string) (mesh : Mesh),
    P GeometryProcessor.empty ->
    processLayer features bbox config layerType = Some mesh ->
    P mesh.
Proof.
  intros Hsimple Htriangulated features bbox config layerType mesh Hempty.
  rewrite processLayer_loops.
  destruct (String.eqb layerType "buildings");
    [intros Hloop; eapply buildings_loop_preserves; eauto|].
  destruct (String.eqb layerType "roads");
    [intros Hloop; eapply roads_loop_preserves; eauto|].
  destruct (_ || _);
    [intros Hloop; eapply areas_loop_preserves; eauto|].
  now intros [= <-].
Qed.

Lemma processLayer_some_iff (features : list Feature) (bbox : BBox)
    (config : Config) (layerType : string) :
  (exists mesh, processLayer features bbox config layerType = Some mesh)
  <-> (String.eqb layerType "buildings" || String.eqb layerType "greens"
       || String.eqb layerType "water" = true ->
       Forall wellFormed features).
Proof.
  rewrite processLayer_loops.
  destruct (String.eqb_spec layerType "buildings") as [->|Hb].
  - rewrite buildings_loop_some_iff. cbn. tauto.
  - destruct (String.eqb_spec layerType "roads") as [->|Hr].
    + cbn. split; [discriminate|]. intros _. apply roads_loop_some.
    + cbn [orb].
      destruct (String.eqb layerType "greens" || String.eqb layerType "water").
      * rewrite areas_loop_some_iff. tauto.
      * split; [discriminate|eauto].
Qed.

End Pipeline.

(** ** Validation and serialization *)

Section Output.
Context `{Num}.
Variable toFixed : num -> nat -> string.

Lemma validateMesh_valid_errors (vertices : list Vertex) (faces : list Face) :
  STLGenerator.valid (STLGenerator.validateMesh vertices faces) = true <->
  STLGenerator.errors (STLGenerator.validateMesh vertices faces) = [].
Proof.
  unfold STLGenerator.validateMesh.
  cbn [STLGenerator.valid STLGenerator.errors].
  set (errors := _ ++ _). unfold len.
  destruct (Z.eqb_spec (Z.of_nat (length errors)) 0) as [Hz|Hnz];
    split; intros Hx; try reflexivity; try discriminate.
  - destruct errors; [reflexivity|cbn in Hz; lia].
  - rewrite Hx in Hnz. now contradiction Hnz.
Qed.

Lemma validateMesh_valid_iff (vertices : list Vertex) (faces : list Face) :
  STLGenerator.valid (STLGenerator.validateMesh vertices faces) = true <->
  vertices <> [] /\ faces <> []
  /\ Forall (faceInRange (len vertices)) faces.
Proof.
  rewrite validateMesh_valid_errors.
  pose proof (validateMesh_errors vertices faces) as Herrors.
  set (errors := STLGenerator.errors _) in *.
  split.
  - intros Hnone.
    assert (Hnot : ~ (vertices = [] \/ faces = [] \/
              Exists (fun face => length face <> 3%nat) faces \/
              Exists (fun face =>
                Exists (fun i => (i < 0 \/ len vertices <= i)%Z) face) faces))
      by (intros Hbad; now apply Herrors in Hbad).
    split; [tauto|]. split; [tauto|].
    apply List.Forall_forall. intros face Hface. split.
    + destruct (Nat.eq_dec (length face) 3) as [Hthree|Hother]; [exact Hthree|].
      exfalso. apply Hnot. right. right. left.
      apply List.Exists_exists. eauto.
    + apply List.Forall_forall. intros i Hi.
      destruct (Z_lt_dec i 0) as [Hneg|Hpos];
        [|destruct (Z_le_dec (len vertices) i) as [Hbig|Hsmall]; [|lia]];
        exfalso; apply Hnot; right; right; right;
        apply List.Exists_exists; exists face; (split; [exact Hface|]);
        apply List.Exists_exists; exists i; (split; [exact Hi|]); lia.
  - intros (Hv & Hf & Hfaces).
    destruct errors as [|e errors'] eqn:He; [reflexivity|].
    exfalso.
    assert (Hsome : e :: errors' <> []) by discriminate.
    apply Herrors in Hsome as [Hbad|[Hbad|[Hbad|Hbad]]];
      [tauto|tauto| |];
      apply List.Exists_exists in Hbad as (face & Hface & Hbad);
      destruct (proj1 (List.Forall_forall _ _) Hfaces face Hface)
        as [Hlen Hidx].
    + tauto.
    + apply List.Exists_exists in Hbad as (i & Hi & Hbad).
      pose proof (proj1 (List.Forall_forall _ _) Hidx i Hi) as Hok.
      cbn beta in Hok. lia.
Qed.

Lemma facets_skips (vertices : list Vertex) (faces : list Face)
    (stlContent : string) :
  STLGenerator.facets toFixed vertices faces stlContent =
  STLGenerator.facets toFixed vertices
    (List.filter (fun face : Face => (len face =? 3)%Z) faces) stlContent.
Proof.
  revert stlContent.
  induction faces as [|face faces IH]; intros stlContent; [reflexivity|].
  cbn [List.filter STLGenerator.facets].
  destruct (len face =? 3)%Z eqn:Hthree.
  - cbn [STLGenerator.facets].
    destruct (STLGenerator.facet toFixed vertices face); [apply IH|reflexivity].
  - unfold STLGenerator.facet. rewrite Hthree. cbn [negb].
    rewrite append_empty_r. apply IH.
Qed.

Lemma generateSTL_skips (vertices : list Vertex) (faces : list Face)
    (filename : string) :
  STLGenerator.generateSTL toFixed vertices faces filename =
  STLGenerator.generateSTL toFixed vertices
    (List.filter (fun face : Face => (len face =? 3)%Z) faces) filename.
Proof. unfold STLGenerator.generateSTL. now rewrite facets_skips. Qed.

Lemma triangles_inRange (count : Z) (faces : list Face) :
  trianglesResolve count faces ->
  Forall (faceInRange count)
         (List.filter (fun face : Face => (len face =? 3)%Z) faces).
Proof.
  intros Hfaces. apply List.Forall_forall. intros face Hface.
  apply filter_In in Hface as [Hin Hthree].
  apply Z.eqb_eq in Hthree. unfold len in Hthree.
  assert (Hlen : length face = 3%nat) by lia.
  split; [exact Hlen|].
  exact (proj1 (List.Forall_forall _ _) Hfaces face Hin Hlen).
Qed.

End Output.

(** ** Meshes of the pipeline *)

Section MeshFacts.
Context `{Num}.

Lemma closedSurface_nil : closedSurface [].
Proof. intros a b []. Qed.

(** A mesh has vertices and faces, or neither. *)
Lemma addPrismFromPolygon_occupied (this : Mesh) (coords : list Point)
    (z0 z1 : num) :
  (vertices this = [] <-> faces this = []) ->
  (vertices (addPrismFromPolygon coords z0 z1 this) = [] <->
   faces (addPrismFromPolygon coords z0 z1 this) = []).
Proof.
  intros Hthis.
  destruct (addPrismFromPolygon_cases this coords z0 z1) as [->|[Hn ->]];
    [exact Hthis|].
  cbn [vertices faces]. split; intros Hnil; exfalso;
    apply (f_equal (@length _)) in Hnil; revert Hnil;
    rewrite !length_app, ?length_pillars, ?length_walls;
    unfold len, Point in *; cbn [length]; lia.
Qed.

Lemma addPrismFromPolygonTriangulated_occupied (this : Mesh)
    (coords : list Point) (z0 z1 : num) :
  (vertices this = [] <-> faces this = []) ->
  (vertices (addPrismFromPolygonTriangulated coords z0 z1 this) = [] <->
   faces (addPrismFromPolygonTriangulated coords z0 z1 this) = []).
Proof.
  intros Hthis.
  destruct (addPrismFromPolygonTriangulated_cases this coords z0 z1)
    as [->|[Hk ->]]; [exact Hthis|].
  cbn [vertices faces]. split; intros Hnil; exfalso;
    apply (f_equal (@length _)) in Hnil; revert Hnil;
    rewrite !length_app, ?length_layer, ?length_walls;
    unfold len, Point in *; cbn [length]; lia.
Qed.

End MeshFacts.

(** X1. The two prism builders only append: the vertices and faces that
    the mesh held come first and are left as they were, and every index of
    a new face is the index of a new vertex. *)
Theorem arena_operations_only_append :
  forall (N : Num) (this : Mesh) (coords : list Point) (z0 z1 : num),
    appendsTo this (addPrismFromPolygon coords z0 z1 this)
    /\ appendsTo this (addPrismFromPolygonTriangulated coords z0 z1 this).
Proof.
  intros N this coords z0 z1. split.
  - apply addPrismFromPolygon_appends.
  - apply addPrismFromPolygonTriangulated_appends.
Qed.

(** X2. The faces that [addPrismFromPolygon] appends form a surface
    without boundary, on every input: each edge of each triangle is run
    through in the opposite direction by another triangle.  The same holds
    for [addPrismFromPolygonTriangulated] when the cleaned ring does not
    end on its first point again, and so for the whole mesh of the
    buildings layer. *)
Theorem prisms_are_closed_surfaces :
  (forall (N : Num) (this : Mesh) (coords : list Point) (z0 z1 : num),
     closedSurface (faces this) ->
     closedSurface (faces (addPrismFromPolygon coords z0 z1 this))
     /\ (endsMeet (cleanCoords coords) = false ->
         closedSurface
           (faces (addPrismFromPolygonTriangulated coords z0 z1 this))))
  /\ (forall (N : Num) (features : list OSMToSTL.Feature)
             (bbox : OSMToSTL.BBox) (config : OSMToSTL.Config)
             (mesh : Mesh),
        OSMToSTL.processLayer features bbox config "buildings" = Some mesh ->
        closedSurface (faces mesh)).
Proof.
  split.
  - intros N this coords z0 z1 Hclosed. split.
    + now apply addPrismFromPolygon_closed.
    + intros Hopen. now apply addPrismFromPolygonTriangulated_closed.
  - intros N features bbox config mesh. rewrite processLayer_loops.
    change (String.eqb "buildings" "buildings") with true. cbv iota.
    intros Hloop.
    apply (buildings_loop_preserves (fun m => closedSurface (faces m))
             (fun coords z0 z1 this =>
                addPrismFromPolygon_closed this coords z0 z1)
             _ _ _ _ _ _ Hloop).
    apply closedSurface_nil.
Qed.

(** X2 on the square of the test suite, and on a layer of one building. *)
Lemma prisms_are_closed_surfaces_square :
  (closedSurface (faces (@empty Double))
   /\ endsMeet (cleanCoords Sample.square) = false)
  /\ closedSurface
       (faces (addPrismFromPolygon Sample.square 0%float 5%float empty))
  /\ closedSurface
       (faces (addPrismFromPolygonTriangulated Sample.square 0%float 5%float
                 empty))
  /\ exists mesh,
       OSMToSTL.processLayer [Sample.building "10"] Sample.unitBox
         (Sample.config 20) "buildings" = Some mesh
       /\ closedSurface (faces mesh).
Proof.
  assert (Hempty : closedSurface (faces (@empty Double)))
    by apply closedSurface_nil.
  assert (Hopen : endsMeet (cleanCoords Sample.square) = false)
    by (vm_compute; reflexivity).
  split; [exact (conj Hempty Hopen)|].
  destruct prisms_are_closed_surfaces as [Hprism Hlayer].
  destruct (Hprism Double empty Sample.square 0%float 5%float Hempty)
    as [Hsimple Htriangulated].
  split; [exact Hsimple|]. split; [exact (Htriangulated Hopen)|].
  assert (Hwf : Forall wellFormed [Sample.building "10"])
    by (repeat constructor; discriminate).
  destruct (proj2 (processLayer_some_iff [Sample.building "10"]
                     Sample.unitBox (Sample.config 20) "buildings")
              (fun _ => Hwf)) as [mesh Hmesh].
  exists mesh. split; [exact Hmesh|].
  exact (Hlayer Double _ _ _ mesh Hmesh).
Defined.

(** X3. The combined pipeline throws exactly when a polygon without
    points (no ring, or an empty exterior ring) is among the buildings, or
    among the greens or the water features of a layer that is switched on;
    roads never make it throw.  A single layer throws exactly when it is a
    buildings, greens or water layer with such a polygon. *)
Theorem pipeline_returns_iff_polygons_have_points :
  forall (N : Num) (buildings roads greens water : list OSMToSTL.Feature)
         (bbox : OSMToSTL.BBox) (config : OSMToSTL.Config)
         (layerType : string),
    ((exists mesh,
        OSMToSTL.scaleCoordinates buildings roads greens water bbox config
        = Some mesh)
     <-> Forall wellFormed buildings
         /\ (OSMToSTL.includeGreens config = true -> Forall wellFormed greens)
         /\ (OSMToSTL.includeWater config = true -> Forall wellFormed water))
    /\ ((exists mesh,
           OSMToSTL.processLayer buildings bbox config layerType = Some mesh)
        <-> (String.eqb layerType "buildings"
             || String.eqb layerType "greens"
             || String.eqb layerType "water" = true ->
             Forall wellFormed buildings)).
Proof.
  intros N buildings roads greens water bbox config layerType. split.
  - apply scaleCoordinates_some_iff.
  - apply processLayer_some_iff.
Qed.

(** X3 on a polygon without rings: as a building or a green it makes the
    pipeline throw, as a road it is passed over. *)
Lemma pipeline_returns_iff_polygons_have_points_samples :
  let hollow : @OSMToSTL.Feature Double :=
    {| OSMToSTL.geometry := OSMToSTL.Polygon []; OSMToSTL.tags := ∅ |} in
  OSMToSTL.scaleCoordinates [hollow] [] [] [] Sample.unitBox
    (Sample.config 20) = None
  /\ OSMToSTL.processLayer [hollow] Sample.unitBox (Sample.config 20)
       "greens" = None
  /\ exists mesh,
       OSMToSTL.processLayer [hollow] Sample.unitBox (Sample.config 20)
         "roads" = Some mesh.
Proof.
  intros hollow.
  assert (Hbad : ~ Forall wellFormed [hollow])
    by (intros Hall; now inversion Hall).
  pose proof (pipeline_returns_iff_polygons_have_points Double
                [hollow] [] [] [] Sample.unitBox (Sample.config 20))
    as Hpipeline.
  assert (Hnone : forall result : option (@Mesh Double),
            ~ (exists mesh, result = Some mesh) -> result = None).
  { intros [mesh|] Hno; [|reflexivity]. exfalso. apply Hno. now exists mesh. }
  split; [|split].
  - apply Hnone. intros Hsome. apply Hbad.
    now apply (proj1 (Hpipeline "buildings")).
  - apply Hnone. intros Hsome. apply Hbad.
    now apply (proj1 (proj2 (Hpipeline "greens"))).
  - apply (proj2 (proj2 (Hpipeline "roads"))). discriminate.
Defined.

Section MeshOutput.
Context `{Num}.
Variable toFixed : num -> nat -> string.

Lemma appendsTo_occupied (base mesh : Mesh) :
  vertices base <> [] -> faces base <> [] -> appendsTo base mesh ->
  vertices mesh <> [] /\ faces mesh <> [].
Proof.
  intros Hv Hf (newVertices & newFaces & -> & -> & _).
  split; intros Hnil; apply app_eq_nil in Hnil; tauto.
Qed.

Lemma valid_mesh_text (vertices : list Vertex) (faces : list Face)
    (filename : string) :
  STLGenerator.valid (STLGenerator.validateMesh vertices faces) = true ->
  fst (OSMToSTL.generateSTL toFixed vertices faces filename) = []
  /\ exists blocks,
       Forall2 (blockOf toFixed vertices) faces blocks
       /\ snd (OSMToSTL.generateSTL toFixed vertices faces filename)
          = Some ("solid " ++ replace ".stl" "" filename ++ nl
                  ++ joined blocks
                  ++ "endsolid " ++ replace ".stl" "" filename ++ nl)%string.
Proof.
  intros Hvalid. unfold OSMToSTL.generateSTL. cbn [fst snd].
  rewrite Hvalid. split; [reflexivity|].
  apply validateMesh_valid_iff in Hvalid as (_ & _ & Hfaces).
  exact (proj1 (generateSTL_blocks toFixed vertices faces filename Hfaces)).
Qed.

End MeshOutput.

(** X4. A valid mesh never makes the serializer throw: when [validateMesh]
    reports no error, the wrapper of the pipeline warns of nothing and
    returns the text with exactly one block per face, in the order of the
    faces. *)
Theorem valid_mesh_is_serialized :
  forall (N : Num) (toFixed : num -> nat -> string)
         (vertices : list Vertex) (faces : list Face) (filename : string),
    STLGenerator.valid (STLGenerator.validateMesh vertices faces) = true ->
    fst (OSMToSTL.generateSTL toFixed vertices faces filename) = []
    /\ exists blocks,
         Forall2 (blockOf toFixed vertices) faces blocks
         /\ snd (OSMToSTL.generateSTL toFixed vertices faces filename)
            = Some ("solid " ++ replace ".stl" "" filename ++ nl
                    ++ joined blocks
                    ++ "endsolid " ++ replace ".stl" "" filename ++ nl)%string.
Proof. intros N toFixed. apply valid_mesh_text. Qed.

(** X4 on the unit cube of the test suite. *)
Lemma valid_mesh_is_serialized_cube :
  STLGenerator.valid
    (STLGenerator.validateMesh Sample.cubeVertices Sample.cubeFaces) = true
  /\ exists blocks,
       length blocks = 12%nat
       /\ snd (OSMToSTL.generateSTL double_toFixed Sample.cubeVertices
                 Sample.cubeFaces "cube.stl")
          = Some ("solid cube" ++ nl ++ joined blocks
                  ++ "endsolid cube" ++ nl)%string.
Proof.
  assert (Hvalid :
    STLGenerator.valid
      (STLGenerator.validateMesh Sample.cubeVertices Sample.cubeFaces) = true)
    by (vm_compute; reflexivity).
  split; [exact Hvalid|].
  destruct (valid_mesh_is_serialized Double double_toFixed
              Sample.cubeVertices Sample.cubeFaces "cube.stl" Hvalid)
    as (_ & blocks & Hblocks & Htext).
  exists blocks. split; [|exact Htext].
  symmetry. exact (Forall2_length _ _ _ Hblocks).
Defined.

(** X5. Every mesh that the combined pipeline returns begins with the
    eight vertices and twelve faces of the base plate, has only faces of
    three indices of its own vertices, passes [validateMesh], and is
    serialized without a warning, one block per face. *)
Theorem combined_mesh_is_valid :
  forall (N : Num) (toFixed : num -> nat -> string)
         (buildings roads greens water : list OSMToSTL.Feature)
         (bbox : OSMToSTL.BBox) (config : OSMToSTL.Config) (mesh : Mesh)
         (filename : string),
    OSMToSTL.scaleCoordinates buildings roads greens water bbox config
    = Some mesh ->
    appendsTo (createSolidBase (OSMToSTL.baseSizeOf config)
                 (OSMToSTL.baseThickness config)) mesh
    /\ meshInRange mesh
    /\ STLGenerator.valid
         (STLGenerator.validateMesh (vertices mesh) (faces mesh)) = true
    /\ fst (OSMToSTL.generateSTL toFixed (vertices mesh) (faces mesh)
              filename) = []
    /\ exists blocks,
         Forall2 (blockOf toFixed (vertices mesh)) (faces mesh) blocks
         /\ snd (OSMToSTL.generateSTL toFixed (vertices mesh) (faces mesh)
                   filename)
            = Some ("solid " ++ replace ".stl" "" filename ++ nl
                    ++ joined blocks
                    ++ "endsolid " ++ replace ".stl" "" filename ++ nl)%string.
Proof.
  intros N toFixed buildings roads greens water bbox config mesh filename
    Hmesh.
  set (base := createSolidBase (OSMToSTL.baseSizeOf config)
                 (OSMToSTL.baseThickness config)).
  assert (Hboth : appendsTo base mesh /\ meshInRange mesh).
  { refine (scaleCoordinates_preserves
              (fun m => appendsTo base m /\ meshInRange m) _ _
              buildings roads greens water bbox config mesh _ Hmesh).
    - intros coords z0 z1 this [Happ Hrange]. split.
      + eapply appendsTo_trans; [exact Happ|].
        apply addPrismFromPolygon_appends.
      + now apply addPrismFromPolygon_inRange.
    - intros coords z0 z1 this [Happ Hrange]. split.
      + eapply appendsTo_trans; [exact Happ|].
        apply addPrismFromPolygonTriangulated_appends.
      + now apply addPrismFromPolygonTriangulated_inRange.
    - split; [apply appendsTo_refl|apply createSolidBase_inRange]. }
  destruct Hboth as [Happ Hrange].
  assert (Hvalid : STLGenerator.valid
            (STLGenerator.validateMesh (vertices mesh) (faces mesh)) = true).
  { apply validateMesh_valid_iff.
    destruct (appendsTo_occupied base mesh) as [Hv Hf];
      [discriminate|discriminate|exact Happ|].
    repeat split; assumption. }
  split; [exact Happ|]. split; [exact Hrange|]. split; [exact Hvalid|].
  now apply valid_mesh_text.
Qed.

(** X5 on the three buildings of the example. *)
Lemma combined_mesh_is_valid_sample :
  exists mesh,
    OSMToSTL.scaleCoordinates
      [Sample.building "10"; Sample.building "20"; Sample.building "40"]
      [] [] [] Sample.unitBox (Sample.config 20) = Some mesh
    /\ length (vertices mesh) = 32%nat
    /\ STLGenerator.valid
         (STLGenerator.validateMesh (vertices mesh) (faces mesh)) = true.
Proof.
  assert (Hwf : Forall wellFormed
            [Sample.building "10"; Sample.building "20";
             Sample.building "40"])
    by (repeat constructor; discriminate).
  destruct (proj2 (scaleCoordinates_some_iff
                     [Sample.building "10"; Sample.building "20";
                      Sample.building "40"]
                     [] [] [] Sample.unitBox (Sample.config 20))
              (conj Hwf (conj (fun _ => List.Forall_nil _)
                                (fun _ => List.Forall_nil _))))
    as [mesh Hmesh].
  exists mesh. split; [exact Hmesh|]. split.
  - assert (Hcount :
      option_map (fun m : Mesh => length (vertices m)) (Some mesh)
      = Some 32%nat) by (rewrite <- Hmesh; vm_compute; reflexivity).
    now injection Hcount.
  - exact (proj1 (proj2 (proj2
             (combined_mesh_is_valid Double double_toFixed _ _ _ _ _ _ mesh
                "model.stl" Hmesh)))).
Defined.

(** X6. Every mesh that [processLayer] returns has only faces of three
    indices of its own vertices and is serialized without an exception.
    It is either the empty mesh, for which [validateMesh] reports the two
    errors of a mesh without vertices and without faces, or a mesh that
    passes [validateMesh]. *)
Theorem layer_mesh_is_empty_or_valid :
  forall (N : Num) (toFixed : num -> nat -> string)
         (features : list OSMToSTL.Feature) (bbox : OSMToSTL.BBox)
         (config : OSMToSTL.Config) (layerType : string) (mesh : Mesh)
         (filename : string),
    OSMToSTL.processLayer features bbox config layerType = Some mesh ->
    meshInRange mesh
    /\ (exists text,
          STLGenerator.generateSTL toFixed (vertices mesh) (faces mesh)
            filename = Some text)
    /\ ((mesh = empty
         /\ STLGenerator.errors
              (STLGenerator.validateMesh (vertices mesh) (faces mesh))
            = ["No vertices in mesh"; "No faces in mesh"]%string)
        \/ STLGenerator.valid
             (STLGenerator.validateMesh (vertices mesh) (faces mesh)) = true).
Proof.
  intros N toFixed features bbox config layerType mesh filename Hmesh.
  assert (Hboth : meshInRange mesh
                  /\ (vertices mesh = [] <-> faces mesh = [])).
  { refine (processLayer_preserves
              (fun m => meshInRange m /\ (vertices m = [] <-> faces m = []))
              _ _ features bbox config layerType mesh _ Hmesh).
    - intros coords z0 z1 this [Hrange Hocc]. split.
      + now apply addPrismFromPolygon_inRange.
      + now apply addPrismFromPolygon_occupied.
    - intros coords z0 z1 this [Hrange Hocc]. split.
      + now apply addPrismFromPolygonTriangulated_inRange.
      + now apply addPrismFromPolygonTriangulated_occupied.
    - split; [constructor|]. split; reflexivity. }
  destruct Hboth as [Hrange Hocc]. split; [exact Hrange|]. split.
  - apply generateSTL_some. apply List.Forall_forall. intros face Hface _.
    exact (proj2 (proj1 (List.Forall_forall _ _) Hrange face Hface)).
  - destruct mesh as [vs fs]. cbn [vertices faces] in *.
    destruct vs as [|v vs].
    + left. rewrite (proj1 Hocc eq_refl). split; reflexivity.
    + right. apply validateMesh_valid_iff. split; [discriminate|].
      split; [|exact Hrange].
      intros Hnil. apply Hocc in Hnil. discriminate.
Qed.

(** X6 on a layer of one building, and the text of the empty mesh. *)
Lemma layer_mesh_is_empty_or_valid_samples :
  (exists mesh,
     OSMToSTL.processLayer [Sample.building "10"] Sample.unitBox
       (Sample.config 20) "buildings" = Some mesh
     /\ meshInRange mesh)
  /\ STLGenerator.generateSTL double_toFixed
       (vertices (@empty Double)) (faces (@empty Double)) "none.stl"
     = Some ("solid none" ++ nl ++ "endsolid none" ++ nl)%string.
Proof.
  split; [|vm_compute; reflexivity].
  assert (Hwf : Forall wellFormed [Sample.building "10"])
    by (repeat constructor; discriminate).
  destruct (proj2 (processLayer_some_iff [Sample.building "10"]
                     Sample.unitBox (Sample.config 20) "buildings")
              (fun _ => Hwf)) as [mesh Hmesh].
  exists mesh. split; [exact Hmesh|].
  exact (proj1 (layer_mesh_is_empty_or_valid Double double_toFixed _ _ _ _
                  mesh "layer.stl" Hmesh)).
Defined.

(** X7. The serializer passes over every face that does not have exactly
    three indices: the text of a mesh is the text of the mesh without
    those faces.  When the faces of three indices refer to vertices of the
    mesh, it holds one block for each of them, in their order. *)
Theorem generateSTL_ignores_other_faces :
  forall (N : Num) (toFixed : num -> nat -> string)
         (vertices : list Vertex) (faces : list Face) (filename : string),
    let triangles :=
      List.filter (fun face : Face => (len face =? 3)%Z) faces in
    STLGenerator.generateSTL toFixed vertices faces filename
    = STLGenerator.generateSTL toFixed vertices triangles filename
    /\ (trianglesResolve (len vertices) faces ->
        exists blocks,
          Forall2 (blockOf toFixed vertices) triangles blocks
          /\ STLGenerator.generateSTL toFixed vertices faces filename
             = Some ("solid " ++ replace ".stl" "" filename ++ nl
                     ++ joined blocks
                     ++ "endsolid " ++ replace ".stl" "" filename ++ nl)%string).
Proof.
  intros N toFixed vertices faces filename triangles. split.
  - apply generateSTL_skips.
  - intros Hfaces. rewrite generateSTL_skips. fold triangles.
    apply generateSTL_blocks. now apply triangles_inRange.
Qed.

(** X7 on the unit cube with a quadrilateral and an empty face added. *)
Lemma generateSTL_ignores_other_faces_cube :
  let faces := [0; 1; 2; 3]%Z :: Sample.cubeFaces ++ [[]] in
  trianglesResolve (len Sample.cubeVertices) faces
  /\ STLGenerator.generateSTL double_toFixed Sample.cubeVertices faces
       "cube.stl"
     = STLGenerator.generateSTL double_toFixed Sample.cubeVertices
         Sample.cubeFaces "cube.stl"
  /\ exists blocks,
       length blocks = 12%nat
       /\ STLGenerator.generateSTL double_toFixed Sample.cubeVertices faces
            "cube.stl"
          = Some ("solid cube" ++ nl ++ joined blocks
                  ++ "endsolid cube" ++ nl)%string.
Proof.
  intros faces.
  assert (Hfaces : trianglesResolve (len Sample.cubeVertices) faces).
  { change (len Sample.cubeVertices) with 8%Z.
    repeat (apply List.Forall_cons;
            [intros _;
             repeat first [apply List.Forall_nil
                          |apply List.Forall_cons; [lia|]]|]).
    apply List.Forall_nil. }
  split; [exact Hfaces|].
  destruct (generateSTL_ignores_other_faces Double double_toFixed
              Sample.cubeVertices faces "cube.stl") as [Hskip Htext].
  split; [exact Hskip|].
  destruct (Htext Hfaces) as (blocks & Hblocks & Hsome).
  exists blocks. split; [|exact Hsome].
  symmetry. exact (Forall2_length _ _ _ Hblocks).
Defined.

(** ** The parser of the map data *)

Section Parser.
Context `{Num}.
Import OSMToSTL.

Lemma firstPass_app (elements1 elements2 : list Element) :
  firstPass (elements1 ++ elements2) =
  fold_left (fun '(nodes, ways) element =>
               match element with
               | Node id lat lon => (<[id := (lat, lon)]> nodes, ways)
               | Way wayNodes wayTags => (nodes, ways ++ [(wayNodes, wayTags)])
               | OtherElement => (nodes, ways)
               end) elements2 (firstPass elements1).
Proof. unfold firstPass. apply fold_left_app. Qed.

Lemma firstPass_snoc (elements : list Element) (element : Element) :
  firstPass (elements ++ [element]) =
  let '(nodes, ways) := firstPass elements in
  match element with
  | Node id lat lon => (<[id := (lat, lon)]> nodes, ways)
  | Way wayNodes wayTags => (nodes, ways ++ [(wayNodes, wayTags)])
  | OtherElement => (nodes, ways)
  end.
Proof.
  rewrite firstPass_app. cbn [fold_left].
  now destruct (firstPass elements).
Qed.

(** The array [ways] holds the ways of the data, in their order. *)
Lemma firstPass_ways (elements : list Element) :
  snd (firstPass elements) =
  flat_map (fun element =>
              match element with
              | Way wayNodes wayTags => [(wayNodes, wayTags)]
              | _ => []
              end) elements.
Proof.
  induction elements as [|element elements IH] using rev_ind; [reflexivity|].
  rewrite firstPass_snoc, flat_map_app. cbn [flat_map].
  destruct (firstPass elements) as [nodes ways]. cbn [snd] in IH. subst ways.
  destruct element; cbn [snd]; now rewrite ?app_nil_r.
Qed.

(** The object [nodes] holds coordinates of nodes of the data only. *)
Lemma firstPass_nodes (elements : list Element) (id : Z) (lat lon : num) :
  fst (firstPass elements) !! id = Some (lat, lon) ->
  In (Node id lat lon) elements.
Proof.
  induction elements as [|element elements IH] using rev_ind.
  - cbn. rewrite lookup_empty. discriminate.
  - rewrite firstPass_snoc. destruct (firstPass elements) as [nodes ways].
    cbn [fst] in IH. rewrite in_app_iff.
    destruct element as [id' lat' lon'|wayNodes wayTags|]; cbn [fst];
      try (intros Hlook; left; now apply IH).
    destruct (decide (id' = id)) as [->|Hne].
    + rewrite lookup_insert_eq. intros [= -> ->]. right. now left.
    + rewrite lookup_insert_ne by exact Hne. intros Hlook. left. now apply IH.
Qed.


Lemma In_wayCoords (nodes : gmap Z (num * num)) (wayNodes : list Z)
    (lon lat : num) :
  In (lon, lat) (wayCoords nodes wayNodes) <->
  exists nodeId, In nodeId wayNodes /\ nodes !! nodeId = Some (lat, lon).
Proof.
  unfold wayCoords. rewrite flat_map_map, in_flat_map. split.
  - intros (nodeId & Hin & Hpoint). exists nodeId. split; [exact Hin|].
    destruct (nodes !! nodeId) as [[lat' lon']|]; [|destruct Hpoint].
    destruct Hpoint as [[= -> ->]|[]]. reflexivity.
  - intros (nodeId & Hin & Hlook). exists nodeId. split; [exact Hin|].
    rewrite Hlook. now left.
Qed.

Lemma item_In {A : Type} (d : A) (arr : list A) (i : Z) :
  (0 <= i < len arr)%Z -> In (item d arr i) arr.
Proof. intros Hi. unfold item, len in *. apply nth_In. lia. Qed.

(** What one way contributes: nothing, or one feature with the tags of
    the way, made of resolved points of the way. *)
Lemma geometryOfWay_cases (nodes : gmap Z (num * num)) (wayNodes : list Z)
    (wayTags : gmap string TagValue) :
  geometryOfWay nodes (wayNodes, wayTags) = []
  \/ exists feature,
       geometryOfWay nodes (wayNodes, wayTags) = [feature]
       /\ tags feature = wayTags
       /\ parsedShape feature
       /\ forall p, In p (pointsOf feature) ->
                    In p (wayCoords nodes wayNodes).
Proof.
  unfold geometryOfWay.
  destruct (len wayNodes >=? 2)%Z; [|now left].
  set (coords := wayCoords nodes wayNodes).
  destruct (Z.geb_spec (len coords) 2) as [Htwo|_]; [|now left].
  set (first := item (int 0, int 0) coords 0).
  destruct (Z.geb_spec (len coords) 4) as [Hfour|Hfew]; cbn [andb].
  - destruct (_ && _).
    + right. eexists. split; [reflexivity|]. split; [reflexivity|].
      unfold parsedShape, pointsOf. cbn [geometry concat].
      rewrite app_nil_r.
      destruct (_ || _).
      * split; [rewrite length_app; unfold len in Hfour; lia|].
        intros p Hp. apply in_app_iff in Hp as [Hp|[<-|[]]]; [exact Hp|].
        apply item_In. lia.
      * split; [unfold len in Hfour; lia|auto].
    + right. eexists. split; [reflexivity|]. split; [reflexivity|].
      unfold parsedShape, pointsOf. cbn [geometry].
      split; [unfold len in Htwo; lia|auto].
  - right. eexists. split; [reflexivity|]. split; [reflexivity|].
    unfold parsedShape, pointsOf. cbn [geometry].
    split; [unfold len in Htwo; lia|auto].
Qed.

Lemma parseOSMData_ways (elements : list Element) :
  parseOSMData elements =
  flat_map (geometryOfWay (fst (firstPass elements)))
           (snd (firstPass elements)).
Proof. unfold parseOSMData. now destruct (firstPass elements). Qed.

Lemma In_parseOSMData (elements : list Element) (feature : Feature) :
  In feature (parseOSMData elements) ->
  exists wayNodes,
    In (Way wayNodes (tags feature)) elements
    /\ parsedShape feature
    /\ forall p, In p (pointsOf feature) ->
                 In p (wayCoords (fst (firstPass elements)) wayNodes).
Proof.
  rewrite parseOSMData_ways, firstPass_ways, in_flat_map.
  intros ([wayNodes wayTags] & Hway & Hfeature).
  apply in_flat_map in Hway as (element & Helement & Hway).
  destruct element as [| wayNodes' wayTags' |]; try now destruct Hway.
  destruct Hway as [[= -> ->]|[]].
  destruct (geometryOfWay_cases (fst (firstPass elements)) wayNodes wayTags)
    as [Hnone|(f & Hone & Htags & Hshape & Hpoints)];
    rewrite ?Hnone, ?Hone in Hfeature; [destruct Hfeature|].
  destruct Hfeature as [<-|[]]. exists wayNodes. rewrite Htags. auto.
Qed.

Lemma parsedShape_wellFormed (feature : Feature) :
  parsedShape feature -> wellFormed feature.
Proof.
  unfold parsedShape, wellFormed.
  destruct (geometry feature) as [[|ring [|ring' rings]]|line]; try tauto.
  intros Hlen ->. cbn in Hlen. lia.
Qed.

Lemma length_parseOSMData (elements : list Element) :
  (length (parseOSMData elements)
   <= length (List.filter isWay elements))%nat.
Proof.
  rewrite parseOSMData_ways, firstPass_ways.
  generalize (fst (firstPass elements)). intros nodes.
  induction elements as [|element elements IH]; [reflexivity|].
  cbn [flat_map List.filter].
  destruct element as [| wayNodes wayTags |]; cbn [isWay app]; try exact IH.
  cbn [flat_map length]. rewrite length_app.
  destruct (geometryOfWay_cases nodes wayNodes wayTags)
    as [->|(f & -> & _)]; cbn [length]; lia.
Qed.


(** The node index does not depend on the ways, nor the list of ways on
    the nodes. *)
Lemma firstPass_split (elements : list Element) :
  firstPass elements =
  (fst (firstPass (List.filter isNode elements)),
   snd (firstPass (List.filter isWay elements))).
Proof.
  induction elements as [|element elements IH] using rev_ind; [reflexivity|].
  rewrite !List.filter_app, firstPass_snoc, IH. cbn [List.filter].
  destruct element as [id lat lon|wayNodes wayTags|]; cbn [isNode isWay];
    rewrite ?app_nil_r; try reflexivity.
  - rewrite firstPass_snoc.
    now destruct (firstPass (List.filter isNode elements)).
  - rewrite firstPass_snoc.
    now destruct (firstPass (List.filter isWay elements)).
Qed.

Lemma filter_filter_false {A : Type} (f g : A -> bool) (l : list A) :
  (forall x, f x = true -> g x = false) ->
  List.filter g (List.filter f l) = [].
Proof.
  intros Hfg. induction l as [|x l IH]; [reflexivity|].
  cbn [List.filter]. destruct (f x) eqn:Hf; [|exact IH].
  cbn [List.filter]. now rewrite (Hfg x Hf).
Qed.

Lemma filter_idem {A : Type} (f : A -> bool) (l : list A) :
  List.filter f (List.filter f l) = List.filter f l.
Proof.
  induction l as [|x l IH]; [reflexivity|].
  cbn [List.filter]. destruct (f x) eqn:Hf; [|exact IH].
  cbn [List.filter]. now rewrite Hf, IH.
Qed.

Lemma parseOSMData_nodes_first (elements : list Element) :
  parseOSMData elements =
  parseOSMData (List.filter isNode elements ++ List.filter isWay elements).
Proof.
  rewrite !parseOSMData_ways.
  rewrite (firstPass_split elements).
  rewrite (firstPass_split (List.filter isNode elements ++ _)).
  rewrite !List.filter_app, !filter_idem.
  rewrite (filter_filter_false isWay isNode), (filter_filter_false isNode isWay);
    [|now intros []|now intros []].
  now rewrite app_nil_r.
Qed.

End Parser.

Section ClosedRings.
Context `{Num}.
Import OSMToSTL.

(** Of the arithmetic: two numbers at a distance below a bound are
    numbers, each equal to itself. *)
Hypothesis near_is_number :
  forall x y c : num, (abs (x - y) <? c)%js = true -> (x === x)%js = true.

Lemma last_nth {A : Type} (l : list A) (d d' : A) :
  l <> [] -> List.last l d = nth (length l - 1) l d'.
Proof.
  induction l as [|x [|y l] IH]; intros Hne; [congruence|reflexivity|].
  change (List.last (x :: y :: l) d) with (List.last (y :: l) d).
  rewrite IH by discriminate. cbn [length].
  replace (S (S (length l)) - 1)%nat with (S (length l)) by lia.
  replace (S (length l) - 1)%nat with (length l) by lia.
  reflexivity.
Qed.

Lemma geometryOfWay_closedRings (nodes : gmap Z (num * num))
    (way : list Z * gmap string TagValue) :
  Forall closedRings (geometryOfWay nodes way).
Proof using near_is_number.
  destruct way as [wayNodes wayTags]. unfold geometryOfWay.
  destruct (len wayNodes >=? 2)%Z; [|constructor].
  set (coords := wayCoords nodes wayNodes).
  destruct (len coords >=? 2)%Z; [|constructor].
  destruct (Z.geb_spec (len coords) 4) as [Hfour|Hfew]; cbn [andb];
    [|repeat constructor].
  set (first := item (int 0, int 0) coords 0).
  set (last := item (int 0, int 0) coords (len coords - 1)).
  destruct (abs (fst first - fst last) <? dec 1 (-9))%js eqn:Hx;
    [|repeat constructor].
  destruct (abs (snd first - snd last) <? dec 1 (-9))%js eqn:Hy;
    [|repeat constructor].
  cbn [andb]. apply near_is_number in Hx, Hy.
  constructor; [|constructor]. unfold closedRings. cbn [geometry].
  constructor; [|constructor].
  destruct coords as [|p rest] eqn:Hcoords;
    [unfold len in Hfour; cbn in Hfour; lia|].
  assert (Hfirst : first = p) by reflexivity.
  destruct ((fst first !== fst last)%js || (snd first !== snd last)%js)
    eqn:Hpush.
  - rewrite Hfirst in *. change ((p :: rest) ++ [p]) with (p :: (rest ++ [p])).
    unfold endsMeet.
    change (List.last (p :: rest ++ [p]) p)
      with (List.last ((p :: rest) ++ [p]) p).
    rewrite last_last. cbn zeta. now rewrite Hx, Hy.
  - apply orb_false_iff in Hpush as [Hpx Hpy].
    apply negb_false_iff in Hpx, Hpy.
    unfold endsMeet. cbn zeta.
    rewrite (last_nth (p :: rest) p (int 0, int 0)) by discriminate.
    assert (Hlast : nth (length (p :: rest) - 1) (p :: rest) (int 0, int 0)
                    = last).
    { subst last. unfold item, len. f_equal. lia. }
    rewrite Hlast, <- Hfirst. now rewrite Hpx, Hpy.
Qed.

Lemma parseOSMData_closedRings (elements : list Element) :
  Forall closedRings (parseOSMData elements).
Proof using near_is_number.
  rewrite parseOSMData_ways. apply Forall_flat_map_intro.
  intros way _. apply geometryOfWay_closedRings.
Qed.

End ClosedRings.

Section Numbers.

Lemma double_near_is_number (x y c : float) :
  PrimFloat.ltb (PrimFloat.abs (x - y)) c = true ->
  PrimFloat.eqb x x = true.
Proof.
  rewrite FloatAxioms.ltb_spec, FloatAxioms.abs_spec, FloatAxioms.sub_spec,
    FloatAxioms.eqb_spec. unfold FloatAxioms.SF64sub.
  intros Hlt. unfold SFeqb. rewrite SFcompare_refl; [reflexivity|].
  intros Hnan. rewrite Hnan in Hlt. cbn in Hlt.
  destruct (Prim2SF y); discriminate.
Qed.

Lemma exact_near_is_number (x y c : R) :
  real_ltb (Rabs (x - y)) c = true -> real_eqb x x = true.
Proof.
  intros _. unfold real_eqb. destruct (Req_dec_T x x); [reflexivity|].
  congruence.
Qed.

End Numbers.

(** X8. Every feature that [parseOSMData] returns is a line of at least
    two points or a polygon of exactly one ring of at least four points;
    its tags are the tags of a way of the data and its points are the
    [[lon, lat]] of nodes of the data that this way refers to; and there
    are at most as many features as ways. *)
Theorem parseOSMData_shape :
  forall (N : Num) (elements : list OSMToSTL.Element),
    let features := OSMToSTL.parseOSMData elements in
    Forall parsedShape features
    /\ (length features <= length (List.filter isWay elements))%nat
    /\ forall feature, In feature features ->
         exists wayNodes,
           In (OSMToSTL.Way wayNodes (OSMToSTL.tags feature)) elements
           /\ forall lon lat, In (lon, lat) (pointsOf feature) ->
                exists nodeId,
                  In nodeId wayNodes
                  /\ In (OSMToSTL.Node nodeId lat lon) elements.
Proof.
  intros N elements features. split; [|split].
  - apply List.Forall_forall. intros feature Hin.
    now destruct (In_parseOSMData elements feature Hin) as (_ & _ & Hshape & _).
  - apply length_parseOSMData.
  - intros feature Hin.
    destruct (In_parseOSMData elements feature Hin)
      as (wayNodes & Hway & _ & Hpoints).
    exists wayNodes. split; [exact Hway|]. intros lon lat Hpoint.
    apply Hpoints, In_wayCoords in Hpoint as (nodeId & Hid & Hlook).
    exists nodeId. split; [exact Hid|]. now apply firstPass_nodes.
Qed.

(** The features of the sample data: the building, as a closed polygon,
    and the road, without the node that does not resolve. *)
Lemma parseOSMData_sample :
  map pointsOf (OSMToSTL.parseOSMData Sample.mapData)
  = [ [(0.25, 0.25); (0.5, 0.25); (0.5, 0.5); (0.25, 0.5); (0.25, 0.25)];
      [(0.25, 0.25); (0.5, 0.5)] ]%float
  /\ map (fun feature =>
            match OSMToSTL.geometry feature with
            | OSMToSTL.Polygon _ => true
            | OSMToSTL.LineString _ => false
            end) (OSMToSTL.parseOSMData Sample.mapData)
     = [true; false].
Proof. vm_compute. split; reflexivity. Qed.

(** X9. [parseOSMData] reads the nodes before it reads the ways: a way
    may refer to nodes that come after it, elements that are neither nodes
    nor ways are passed over, and the result is that of the data with all
    its nodes moved before its ways. *)
Theorem parseOSMData_nodes_may_follow :
  forall (N : Num) (elements : list OSMToSTL.Element),
    OSMToSTL.parseOSMData elements
    = OSMToSTL.parseOSMData
        (List.filter isNode elements ++ List.filter isWay elements).
Proof. intros N. apply parseOSMData_nodes_first. Qed.

(** X10. In the arithmetic of the program as in exact arithmetic, every
    polygon that [parseOSMData] returns is closed: its ring ends on a
    point equal to its first point, as the ring consumers test it. *)
Theorem parsed_polygons_are_closed :
  (forall elements : list (@OSMToSTL.Element Double),
     Forall closedRings (OSMToSTL.parseOSMData elements))
  /\ (forall elements : list (@OSMToSTL.Element Exact),
        Forall closedRings (OSMToSTL.parseOSMData elements)).
Proof.
  split; intros elements.
  - apply (parseOSMData_closedRings (H := Double)).
    exact double_near_is_number.
  - apply (parseOSMData_closedRings (H := Exact)).
    exact exact_near_is_number.
Qed.

(** X11. The pipeline does not throw on parsed data: when the buildings,
    the greens and the water features are features that [parseOSMData]
    returned, the combined pipeline returns a mesh, whatever the roads;
    and every layer of parsed features returns a mesh. *)
Theorem parsed_data_never_throws :
  forall (N : Num) (elements : list OSMToSTL.Element)
         (buildings roads greens water : list OSMToSTL.Feature)
         (bbox : OSMToSTL.BBox) (config : OSMToSTL.Config)
         (layerType : string),
    (forall feature, In feature (buildings ++ greens ++ water) ->
       In feature (OSMToSTL.parseOSMData elements)) ->
    (exists mesh,
       OSMToSTL.scaleCoordinates buildings roads greens water bbox config
       = Some mesh)
    /\ (exists mesh,
          OSMToSTL.processLayer buildings bbox config layerType = Some mesh).
Proof.
  intros N elements buildings roads greens water bbox config layerType
    Hparsed.
  assert (Hwf : forall features,
            (forall feature, In feature features ->
               In feature (buildings ++ greens ++ water)) ->
            Forall wellFormed features).
  { intros features Hsub. apply List.Forall_forall. intros feature Hin.
    apply parsedShape_wellFormed.
    now destruct (In_parseOSMData elements feature
                    (Hparsed feature (Hsub feature Hin)))
      as (_ & _ & Hshape & _). }
  split.
  - apply scaleCoordinates_some_iff. repeat split; intros; apply Hwf;
      intros feature Hin; rewrite !in_app_iff; auto.
  - apply processLayer_some_iff. intros _. apply Hwf.
    intros feature Hin. rewrite !in_app_iff. auto.
Qed.

(** X11 on the sample data: the polygon as a building, the line as a
    road. *)
Lemma parsed_data_never_throws_sample :
  let features := OSMToSTL.parseOSMData Sample.mapData in
  (forall feature, In feature (features ++ [] ++ []) -> In feature features)
  /\ exists mesh,
       OSMToSTL.scaleCoordinates features features [] [] Sample.unitBox
         (Sample.config 20) = Some mesh.
Proof.
  intros features.
  assert (Hparsed : forall feature,
            In feature (features ++ [] ++ []) -> In feature features)
    by (intros feature Hin; now rewrite app_nil_r in Hin).
  split; [exact Hparsed|].
  exact (proj1 (parsed_data_never_throws Double Sample.mapData
                  features features [] [] Sample.unitBox (Sample.config 20)
                  "buildings" Hparsed)).
Defined.

(* ===================================================================== *)
(** * Layers and heights *)
(* ===================================================================== *)

(** ** The flat layers *)

Section FlatLayers.
Context `{Num}.

Lemma In_removelast {A : Type} (l : list A) (x : A) :
  In x (removelast l) -> In x l.
Proof.
  induction l as [|y [|z l] IH]; cbn; [tauto|tauto|].
  intros [Hx|Hx]; [now left|right; now apply IH].
Qed.

Lemma In_cleanCoords (coords : list Point) (p : Point) :
  In p (cleanCoords coords) -> In p coords.
Proof.
  unfold cleanCoords. destruct (endsMeet coords); [apply In_removelast|auto].
Qed.

(** The vertices of a prism are the points of its ring at the two
    heights. *)
Lemma addPrismFromPolygonTriangulated_vertices (Q : Vertex -> Prop)
    (this : Mesh) (coords : list Point) (z0 z1 : num) :
  (forall x y, In (x, y) coords -> Q (x, y, z0) /\ Q (x, y, z1)) ->
  Forall Q (vertices this) ->
  Forall Q (vertices (addPrismFromPolygonTriangulated coords z0 z1 this)).
Proof.
  intros Hring Hthis.
  destruct (addPrismFromPolygonTriangulated_cases this coords z0 z1)
    as [->|[_ ->]]; [exact Hthis|].
  cbn [vertices]. rewrite !Forall_app. repeat split; [exact Hthis| |];
    apply List.Forall_forall; intros v Hv; unfold layer in Hv;
    apply in_map_iff in Hv as ([x y] & <- & Hp);
    apply In_cleanCoords in Hp; now apply Hring.
Qed.

Import OSMToSTL.

(** The test of the road filter. *)
Lemma roadStep_vertices (bbox : BBox) (config : Config) (feature : Feature)
    (this mesh : Mesh) :
  let w := roadWidth config in
  let z0 := (baseThickness config + dec 2 (-2))%js in
  let z1 := (z0 + roadHeight config)%js in
  let Q := fun v : Vertex =>
    let '(x, y, z) := v in
    ((x >=? int 0 - w)%js && (x <=? baseSizeOf config + w)%js
     && (y >=? int 0 - w)%js && (y <=? baseSizeOf config + w)%js = true)
    /\ (z = z0 \/ z = z1) in
  roadStep bbox config feature this = Some mesh ->
  Forall Q (vertices this) -> Forall Q (vertices mesh).
Proof.
  intros w z0 z1 Q.
  unfold roadStep, OSMToSTL.addPrismFromPolygonTriangulated,
    OSMToSTL.bufferLineString.
  destruct (geometry feature) as [rings|line]; [now intros [= <-]|].
  destruct (len line >=? 2)%Z; [|now intros [= <-]].
  intros [= <-].
  match goal with |- context [fold_left _ ?q _] => generalize q end.
  intros quads. revert this.
  induction quads as [|quad quads IH]; intros this Hthis; [exact Hthis|].
  cbn [fold_left]. apply IH.
  match goal with
  | |- context [if ?c then this else _] => destruct c; [exact Hthis|]
  end.
  match goal with
  | |- context [List.filter ?f quad] => set (validQuad := List.filter f quad)
  end.
  destruct (Z.geb_spec (len validQuad) 3) as [Hthree|_]; [|exact Hthis].
  apply addPrismFromPolygonTriangulated_vertices; [|exact Hthis].
  assert (Hvalid : forall x y, In (x, y) validQuad ->
            Q (x, y, z0) /\ Q (x, y, z1)).
  { intros x y Hin. apply filter_In in Hin as [_ Hclip].
    subst Q. cbn beta iota. fold w in Hclip. auto. }
  intros x y Hin. apply Hvalid.
  match type of Hin with
  | In _ (if ?c then _ else _) => destruct c; [|exact Hin]
  end.
  apply in_app_iff in Hin as [Hin|[<-|[]]]; [exact Hin|].
  apply item_In. lia.
Qed.

Lemma areaStep_vertices (bbox : BBox) (config : Config) (feature : Feature)
    (this mesh : Mesh) :
  let z0 := (baseThickness config + dec 1 (-2))%js in
  let z1 := (z0 + dec 5 (-1))%js in
  let Q := fun v : Vertex => snd v = z0 \/ snd v = z1 in
  areaStep bbox config feature this = Some mesh ->
  Forall Q (vertices this) -> Forall Q (vertices mesh).
Proof.
  intros z0 z1 Q.
  unfold areaStep, OSMToSTL.addPrismFromPolygonTriangulated.
  destruct (geometry feature) as [[|exterior rings]|line];
    [discriminate| |now intros [= <-]].
  destruct (closeRing _) as [ring|]; [|discriminate].
  intros [= <-] Hthis.
  apply addPrismFromPolygonTriangulated_vertices; [|exact Hthis].
  intros x y _. subst Q. cbn. auto.
Qed.

End FlatLayers.

(** X12. The flat layers.  Every vertex of a roads layer passed the test
    of the road filter, its x and y within [roadWidth] of the base plate,
    and lies at baseThickness + 0.02 or at that plus [roadHeight]; every
    vertex of a greens or water layer lies at baseThickness + 0.01 or at
    that plus 0.5, whatever the configured heights. *)
Theorem flat_layers_are_clipped_and_level :
  forall (N : Num) (features : list OSMToSTL.Feature) (bbox : OSMToSTL.BBox)
         (config : OSMToSTL.Config) (layerType : string) (mesh : Mesh),
    OSMToSTL.processLayer features bbox config layerType = Some mesh ->
    let w := OSMToSTL.roadWidth config in
    let size := OSMToSTL.baseSizeOf config in
    let base := OSMToSTL.baseThickness config in
    (layerType = "roads"%string ->
     Forall (fun v : Vertex =>
               let '(x, y, z) := v in
               ((x >=? int 0 - w)%js && (x <=? size + w)%js
                && (y >=? int 0 - w)%js && (y <=? size + w)%js = true)
               /\ (z = (base + dec 2 (-2))%js
                   \/ z = (base + dec 2 (-2) + OSMToSTL.roadHeight config)%js))
            (vertices mesh))
    /\ (layerType = "greens"%string \/ layerType = "water"%string ->
        Forall (fun v : Vertex =>
                  snd v = (base + dec 1 (-2))%js
                  \/ snd v = (base + dec 1 (-2) + dec 5 (-1))%js)
               (vertices mesh)).
Proof.
  intros N features bbox config layerType mesh Hmesh w size base.
  rewrite processLayer_loops in Hmesh. split.
  - intros ->. cbn in Hmesh.
    refine (forEachM_invariant _ (fun m => Forall _ (vertices m)) _ _ _
              _ _ Hmesh); [|apply List.Forall_nil].
    intros feature a b. apply roadStep_vertices.
  - intros Hkind.
    assert (Hloop : OSMToSTL.forEachM (OSMToSTL.areaStep bbox config) features
                      GeometryProcessor.empty = Some mesh)
      by (destruct Hkind as [->| ->]; exact Hmesh).
    refine (forEachM_invariant _ (fun m => Forall _ (vertices m)) _ _ _
              _ _ Hloop); [|apply List.Forall_nil].
    intros feature a b. apply areaStep_vertices.
Qed.

(** X12 on a road of two points and on a park: eight vertices each. *)
Lemma flat_layers_are_clipped_and_level_samples :
  (exists mesh,
     OSMToSTL.processLayer [Sample.road] Sample.unitBox (Sample.config 20)
       "roads" = Some mesh
     /\ Forall (fun v : Vertex => snd v = @dec Double 202 (-2) \/ snd v = @dec Double 302 (-2))
               (vertices mesh))
  /\ option_map (fun mesh => length (vertices mesh))
       (OSMToSTL.processLayer [Sample.road] Sample.unitBox (Sample.config 20)
          "roads") = Some 8%nat
  /\ (exists mesh,
        OSMToSTL.processLayer [Sample.park] Sample.unitBox (Sample.config 20)
          "water" = Some mesh
        /\ Forall (fun v : Vertex => snd v = @dec Double 201 (-2) \/ snd v = @dec Double 251 (-2))
                  (vertices mesh))
  /\ option_map (fun mesh => length (vertices mesh))
       (OSMToSTL.processLayer [Sample.park] Sample.unitBox (Sample.config 20)
          "water") = Some 8%nat.
Proof.
  split; [|split; [vm_compute; reflexivity|split; [|vm_compute; reflexivity]]].
  - destruct (proj2 (processLayer_some_iff [Sample.road] Sample.unitBox
                       (Sample.config 20) "roads")) as [mesh Hmesh];
      [discriminate|].
    exists mesh. split; [exact Hmesh|].
    pose proof (proj1 (flat_layers_are_clipped_and_level Double _ _ _ _ mesh
                         Hmesh) eq_refl) as Hall.
    eapply List.Forall_impl; [|exact Hall].
    intros [[x y] z] [_ Hz]. exact Hz.
  - assert (Hwf : Forall wellFormed [Sample.park])
      by (repeat constructor; discriminate).
    destruct (proj2 (processLayer_some_iff [Sample.park] Sample.unitBox
                       (Sample.config 20) "water") (fun _ => Hwf))
      as [mesh Hmesh].
    exists mesh. split; [exact Hmesh|].
    exact (proj2 (flat_layers_are_clipped_and_level Double _ _ _ _ mesh
                    Hmesh) (or_intror eq_refl)).
Defined.

(** ** Chunks *)

(** X13. Processing in chunks of fifty visits every feature exactly once,
    in the order of the list, and never reads past it: a layer is what one
    loop over its features gives.  An empty list of features gives the
    empty mesh, and so does a layer type that is none of the four. *)
Theorem chunks_visit_each_feature_once :
  forall (N : Num) (features : list OSMToSTL.Feature) (bbox : OSMToSTL.BBox)
         (config : OSMToSTL.Config) (layerType : string),
    map (at_index features) (OSMToSTL.chunkedIndices (len features))
    = map Some features
    /\ OSMToSTL.processLayer features bbox config layerType
       = (if String.eqb layerType "buildings" then
            OSMToSTL.forEachM
              (OSMToSTL.buildingStep bbox config
                 (OSMToSTL.heightScaleOf features config))
              features empty
          else if String.eqb layerType "roads" then
            OSMToSTL.forEachM (OSMToSTL.roadStep bbox config) features empty
          else if String.eqb layerType "greens"
                  || String.eqb layerType "water" then
            OSMToSTL.forEachM (OSMToSTL.areaStep bbox config) features empty
          else Some empty)
    /\ OSMToSTL.processLayer [] bbox config layerType = Some empty.
Proof.
  intros N features bbox config layerType. split; [|split].
  - rewrite chunkedIndices_all by (unfold len; lia). apply at_index_all.
  - apply processLayer_loops.
  - reflexivity.
Qed.

(** ** Heights of map data *)

Section Unsigned.
Context `{Num}.
Import OSMToSTL.




End Unsigned.



(** ** The pattern of the height parser *)

Section Tokens.
Import OSMToSTL.

Lemma takeDigits_spec (s : string) :
  let '(d, r) := takeDigits s in
  s = (d ++ r)%string /\ digitsOnly d = true /\ leadsWith is_digit r = false.
Proof.
  induction s as [|c s IH]; [repeat split|].
  cbn [takeDigits]. destruct (is_digit c) eqn:Hc.
  - destruct (takeDigits s) as [d r]. destruct IH as (-> & Hd & Hr).
    rewrite append_cons. cbn [digitsOnly]. now rewrite Hc, Hd.
  - repeat split. cbn. exact Hc.
Qed.

Lemma takeDigits_empty (s : string) :
  fst (takeDigits s) = EmptyString -> leadsWith is_digit s = false.
Proof.
  destruct s as [|c s]; [reflexivity|]. cbn.
  destruct (is_digit c); [|reflexivity].
  destruct (takeDigits s). discriminate.
Qed.

(** What the pattern matches at the start of a text. *)
Lemma decimalPrefix_spec (s : string) :
  match decimalPrefix s with
  | None => leadsWith is_digit s = false
  | Some token =>
      exists whole after,
        s = (token ++ after)%string
        /\ whole <> EmptyString /\ digitsOnly whole = true
        /\ ((token = whole /\ leadsWith is_digit after = false
             /\ leadsWith (Ascii.eqb ".") after = false)
            \/ exists fraction,
                 token = (whole ++ "." ++ fraction)%string
                 /\ digitsOnly fraction = true
                 /\ leadsWith is_digit after = false)
  end.
Proof.
  unfold decimalPrefix.
  pose proof (takeDigits_spec s) as Hfirst.
  pose proof (takeDigits_empty s) as Hempty.
  destruct (takeDigits s) as [d1 r1]. destruct Hfirst as (Hs & Hd1 & Hr1).
  destruct d1 as [|c d1]; [now apply Hempty|].
  set (whole := String c d1) in *.
  assert (Hwhole : whole <> EmptyString) by discriminate.
  destruct r1 as [|c1 r2].
  - exists whole, EmptyString. repeat split; [exact Hs|exact Hwhole|exact Hd1|].
    left. repeat split.
  - destruct (Ascii.eqb_spec c1 ".") as [->|Hdot].
    + pose proof (takeDigits_spec r2) as Hsecond.
      destruct (takeDigits r2) as [d2 r3].
      destruct Hsecond as (-> & Hd2 & Hr3).
      exists whole, r3. split.
      * rewrite Hs, !append_assoc. reflexivity.
      * repeat split; [exact Hwhole|exact Hd1|]. right. now exists d2.
    + exists whole, (String c1 r2).
      repeat split; [exact Hs|exact Hwhole|exact Hd1|].
      left. repeat split; [exact Hr1|]. unfold leadsWith.
      destruct (Ascii.eqb_spec "." c1); [congruence|reflexivity].
Qed.

End Tokens.

(** X17. The pattern of the height parser finds the first decimal number
    of a text: no digit comes before the token, the token is a greatest
    run of digits, with a point and the digits after it when a point
    follows the run; a text is passed over exactly when it holds no
    digit.  A sign before the number is not part of the token. *)
Theorem matchDecimal_finds_first_number :
  forall s : string,
    match OSMToSTL.matchDecimal s with
    | None => noDigits s = true
    | Some token =>
        exists before whole after,
          s = (before ++ token ++ after)%string
          /\ noDigits before = true
          /\ whole <> EmptyString /\ digitsOnly whole = true
          /\ ((token = whole /\ leadsWith is_digit after = false
               /\ leadsWith (Ascii.eqb ".") after = false)
              \/ exists fraction,
                   token = (whole ++ "." ++ fraction)%string
                   /\ digitsOnly fraction = true
                   /\ leadsWith is_digit after = false)
    end.
Proof.
  induction s as [|c s IH].
  - reflexivity.
  - cbn [OSMToSTL.matchDecimal].
    pose proof (decimalPrefix_spec (String c s)) as Hprefix.
    destruct (OSMToSTL.decimalPrefix (String c s)) as [token|].
    + destruct Hprefix as (whole & after & Hs & Hrest).
      exists EmptyString, whole, after. split; [exact Hs|].
      split; [reflexivity|exact Hrest].
    + cbn in Hprefix.
      destruct (OSMToSTL.matchDecimal s) as [token|].
      * destruct IH as (before & whole & after & -> & Hbefore & Hrest).
        exists (String c before), whole, after.
        split; [now rewrite append_cons|].
        split; [|exact Hrest]. cbn. now rewrite Hprefix, Hbefore.
      * cbn. now rewrite Hprefix, IH.
Qed.

(** ** Rings and ribbons *)

Section Rings.
Context `{Num}.
Import OSMToSTL.

Lemma endsMeet_closed (ring : list Point) (first : Point) :
  head ring = Some first ->
  (fst first === fst first)%js = true ->
  (snd first === snd first)%js = true ->
  endsMeet (ring ++ [first]) = true.
Proof.
  intros Hhead Hx Hy. destruct ring as [|p ring]; [discriminate|].
  injection Hhead as ->. unfold endsMeet. cbn [app].
  change (first :: ring ++ [first]) with ((first :: ring) ++ [first]).
  rewrite last_last. now rewrite Hx, Hy.
Qed.

Lemma closeRing_cleanCoords (ring closed : list Point) :
  (forall first, head ring = Some first ->
     (fst first === fst first)%js = true
     /\ (snd first === snd first)%js = true) ->
  closeRing ring = Some closed ->
  cleanCoords closed = cleanCoords ring
  /\ (closed = ring \/ closed = ring ++ [hd (int 0, int 0) ring]).
Proof.
  intros Hnumber. unfold closeRing.
  destruct ring as [|first rest]; [discriminate|].
  destruct (Hnumber first eq_refl) as [Hx Hy].
  set (ring := first :: rest) in *. cbn [hd].
  destruct (_ || _) eqn:Hopen; intros [= <-]; [|now split; [|left]].
  split; [|now right].
  change (first :: rest ++ [first]) with (ring ++ [first]).
  unfold cleanCoords at 1.
  rewrite endsMeet_closed by auto.
  rewrite removelast_last.
  unfold cleanCoords, endsMeet. subst ring. cbv beta iota zeta.
  destruct (fst first === fst (List.last (first :: rest) first))%js;
    destruct (snd first === snd (List.last (first :: rest) first))%js;
    try reflexivity.
  discriminate Hopen.
Qed.

End Rings.

(** X19. Closing a ring and then dropping the closing point gives the
    ring that dropping the closing point of the ring as given gives, when
    the coordinates of its first point are numbers: the closing point that
    the pipeline adds to an open ring, and only that, is taken away again,
    and the simple prism builder gives two vertices for each point that is
    left. *)
Theorem closing_point_is_not_extruded :
  forall (N : Num) (ring closed : list Point) (z0 z1 : num) (this : Mesh),
    (forall first, head ring = Some first ->
       (fst first === fst first)%js = true
       /\ (snd first === snd first)%js = true) ->
    OSMToSTL.closeRing ring = Some closed ->
    cleanCoords closed = cleanCoords ring
    /\ (closed = ring \/ closed = ring ++ [hd (int 0, int 0) ring])
    /\ ((3 <= length closed)%nat ->
        (length (cleanCoords ring) <= 500)%nat ->
        vertices (addPrismFromPolygon closed z0 z1 this)
        = vertices this ++ pillars (cleanCoords ring) z0 z1).
Proof.
  intros N ring closed z0 z1 this Hnumber Hclosed.
  destruct (closeRing_cleanCoords ring closed Hnumber Hclosed)
    as [Hclean Hshape].
  split; [exact Hclean|]. split; [exact Hshape|].
  intros Hthree Hsize. rewrite <- Hclean in Hsize.
  rewrite addPrismFromPolygon_accepts by assumption.
  cbn [vertices]. now rewrite Hclean.
Qed.

(** X19 on an open triangle and on the same triangle closed: six vertices
    in both cases. *)
Lemma closing_point_is_not_extruded_triangle :
  let open : list (@Point Double) := [(0, 0); (1, 0); (1, 1)]%float in
  ((forall first, head open = Some first ->
      (fst first === fst first)%js = true
      /\ (snd first === snd first)%js = true)
   /\ OSMToSTL.closeRing open = Some (open ++ [(0, 0)%float]))
  /\ length (vertices (addPrismFromPolygon (open ++ [(0, 0)%float])
                         2%float 5%float empty)) = 6%nat
  /\ length (vertices (addPrismFromPolygon open 2%float 5%float empty))
     = 6%nat.
Proof.
  intros open.
  assert (Hnumber : forall first, head open = Some first ->
            (fst first === fst first)%js = true
            /\ (snd first === snd first)%js = true).
  { intros first [= <-]. split; vm_compute; reflexivity. }
  assert (Hclosed : OSMToSTL.closeRing open = Some (open ++ [(0, 0)%float]))
    by (vm_compute; reflexivity).
  split; [exact (conj Hnumber Hclosed)|].
  split; [|vm_compute; reflexivity].
  destruct (closing_point_is_not_extruded Double open _ 2%float 5%float empty
              Hnumber Hclosed) as (_ & _ & Hvertices).
  rewrite Hvertices; [vm_compute; reflexivity|cbn; lia|cbn; lia].
Defined.

(** X20. A closed ring of three points, that is a segment there and back,
    passes the guard of the simple prism builder, which counts the points
    before the closing point is dropped: it adds the four vertices over
    the two points and four wall triangles on them, the wall over the
    segment once in each direction, and no caps.  The triangulating
    builder counts again after dropping the closing point and adds
    nothing. *)
Theorem segment_ring_gives_flat_prism :
  forall (N : Num) (a b c : Point) (z0 z1 : num) (this : Mesh),
    endsMeet [a; b; c] = true ->
    let v := len (vertices this) in
    addPrismFromPolygon [a; b; c] z0 z1 this
    = {| vertices := vertices this ++ [(a, z0); (a, z1); (b, z0); (b, z1)];
         faces := faces this
                  ++ [[v; v + 2; v + 1]; [v + 1; v + 2; v + 3];
                      [v + 2; v; v + 3]; [v + 3; v; v + 1]]%Z |}
    /\ addPrismFromPolygonTriangulated [a; b; c] z0 z1 this = this.
Proof.
  intros N a b c z0 z1 this Hmeet v.
  assert (Hclean : cleanCoords [a; b; c] = [a; b])
    by (unfold cleanCoords; now rewrite Hmeet).
  split.
  - pose proof (addPrismFromPolygon_accepts this [a; b; c] z0 z1) as Hprism.
    cbv zeta in Hprism. rewrite Hclean in Hprism.
    rewrite Hprism by (cbn [length]; lia).
    destruct a as [ax ay], b as [bx by_]. f_equal.
    change (len [(ax, ay); (bx, by_)]) with 2%Z.
    unfold walls, caps, fan, wall.
    change (forRange 0 2) with [0; 1]%Z.
    change (forRange 1 (2 - 1)) with (@nil Z).
    cbn [flat_map map app]. fold v.
    change ((0 + 1) mod 2)%Z with 1%Z. change ((1 + 1) mod 2)%Z with 0%Z.
    repeat (f_equal; try lia).
  - unfold addPrismFromPolygonTriangulated. rewrite Hclean.
    change (len [a; b] <? 3)%Z with true.
    now destruct (_ || _).
Qed.

(** X20 on the segment from (0, 0) to (1, 0). *)
Lemma segment_ring_gives_flat_prism_sample :
  let ring : list (@Point Double) := [(0, 0); (1, 0); (0, 0)]%float in
  endsMeet ring = true
  /\ length (faces (addPrismFromPolygon ring 2%float 5%float empty)) = 4%nat
  /\ addPrismFromPolygonTriangulated ring 2%float 5%float empty = empty.
Proof.
  intros ring.
  assert (Hmeet : endsMeet ring = true) by (vm_compute; reflexivity).
  split; [exact Hmeet|].
  destruct (segment_ring_gives_flat_prism Double (0, 0)%float (1, 0)%float
              (0, 0)%float 2%float 5%float empty Hmeet) as [Hsimple Hfan].
  split; [|exact Hfan].
  exact (f_equal (fun mesh => length (faces mesh)) Hsimple).
Defined.

Section Chain.
Context `{Num}.

(** The quads of a buffered line, by index. *)
Lemma bufferLineString_nth (coords : list Point) (width : num) :
  exists left right : list Point,
    forall j,
      nth_error (bufferLineString coords width) j
      = if (j <? length left - 1)%nat
        then Some [item (int 0, int 0) left (Z.of_nat j);
                   item (int 0, int 0) right (Z.of_nat j);
                   item (int 0, int 0) right (Z.of_nat j + 1);
                   item (int 0, int 0) left (Z.of_nat j + 1)]
        else None.
Proof.
  unfold bufferLineString.
  destruct (len coords <? 2)%Z.
  { exists [], []. intros j. now destruct j. }
  set (pushed := flat_map _ _).
  exists (map fst pushed), (map snd pushed). intros j.
  rewrite nth_error_map.
  destruct (Nat.ltb_spec j (length (map fst pushed) - 1)) as [Hj|Hj].
  - rewrite forRange_nth_error by (unfold len; lia). cbn [option_map].
    rewrite Z.add_0_l. reflexivity.
  - rewrite (proj2 (nth_error_None _ _)); [reflexivity|].
    rewrite length_forRange. unfold len. lia.
Qed.

End Chain.

(** X21. The quadrilaterals of a buffered line form a chain: each has
    four corners, and each one after the first begins with the edge on
    which the one before it ends, its first two corners being the fourth
    and the third corner of that one. *)
Theorem bufferLineString_quads_are_chained :
  forall (N : Num) (coords : list Point) (width : num),
    let quads := bufferLineString coords width in
    Forall (fun quad => length quad = 4%nat) quads
    /\ forall (i : nat) (quad next : list Point),
         nth_error quads i = Some quad ->
         nth_error quads (S i) = Some next ->
         nth_error next 0 = nth_error quad 3
         /\ nth_error next 1 = nth_error quad 2.
Proof.
  intros N coords width quads. split.
  - apply List.Forall_forall. intros quad Hin.
    apply In_nth_error in Hin as [i Hi].
    destruct (bufferLineString_nth coords width) as (left & right & Hnth).
    fold quads in Hnth. rewrite Hnth in Hi.
    destruct (_ <? _)%nat; [|discriminate]. now injection Hi as <-.
  - intros i quad next Hquad Hnext.
    destruct (bufferLineString_nth coords width) as (left & right & Hnth).
    fold quads in Hnth. rewrite Hnth in Hquad, Hnext.
    destruct (i <? _)%nat; [|discriminate].
    destruct (S i <? _)%nat; [|discriminate].
    injection Hquad as <-. injection Hnext as <-.
    replace (Z.of_nat (S i)) with (Z.of_nat i + 1)%Z by lia.
    split; reflexivity.
Qed.

(** X21 on a line with a corner: two quadrilaterals, the second one
    beginning where the first one ends. *)
Lemma bufferLineString_quads_are_chained_corner :
  let quads :=
    bufferLineString ([(0, 0); (4, 0); (4, 4)]%float : list (@Point Double))
      2%float in
  length quads = 2%nat
  /\ nth_error (nth 1 quads []) 0 = nth_error (nth 0 quads []) 3
  /\ nth_error (nth 1 quads []) 1 = nth_error (nth 0 quads []) 2.
Proof.
  intros quads. split; [vm_compute; reflexivity|].
  apply (proj2 (bufferLineString_quads_are_chained Double
                  [(0, 0); (4, 0); (4, 4)]%float 2%float) 0%nat);
    vm_compute; reflexivity.
Defined.

(** ** The combined mesh *)

Section Composition.
Context `{Num}.
Import OSMToSTL.

Lemma shiftFaces_app (offset : Z) (faces1 faces2 : list Face) :
  shiftFaces offset (faces1 ++ faces2)
  = shiftFaces offset faces1 ++ shiftFaces offset faces2.
Proof. apply map_app. Qed.

Lemma shiftFaces_flat_map {A : Type} (offset : Z) (f : A -> list Face)
    (l : list A) :
  shiftFaces offset (flat_map f l)
  = flat_map (fun x => shiftFaces offset (f x)) l.
Proof.
  induction l as [|x l IH]; [reflexivity|].
  cbn [flat_map]. now rewrite shiftFaces_app, IH.
Qed.

Lemma shiftFaces_zero (faces : list Face) : shiftFaces 0 faces = faces.
Proof.
  unfold shiftFaces. rewrite <- (map_id faces) at 2.
  apply map_ext. intros face. rewrite <- (map_id face) at 2.
  apply map_ext. intros i. lia.
Qed.

Lemma shiftFaces_shiftFaces (a b : Z) (faces : list Face) :
  shiftFaces a (shiftFaces b faces) = shiftFaces (a + b) faces.
Proof.
  unfold shiftFaces. rewrite map_map. apply map_ext. intros face.
  rewrite map_map. apply map_ext. intros i. lia.
Qed.

Lemma attach_empty_r (this : Mesh) : attach this empty = this.
Proof.
  destruct this as [vs fs]. unfold attach. cbn. now rewrite !app_nil_r.
Qed.

Lemma attach_assoc (a b c : Mesh) :
  attach (attach a b) c = attach a (attach b c).
Proof.
  unfold attach. cbn [vertices faces].
  rewrite <- !app_assoc, shiftFaces_app, shiftFaces_shiftFaces.
  f_equal. f_equal. f_equal. f_equal. unfold len. rewrite length_app. lia.
Qed.

(** The builders work relative to the end of the mesh. *)
Lemma addPrismFromPolygon_attach (this : Mesh) (coords : list Point)
    (z0 z1 : num) :
  GeometryProcessor.addPrismFromPolygon coords z0 z1 this
  = attach this (GeometryProcessor.addPrismFromPolygon coords z0 z1 empty).
Proof.
  destruct (Nat.lt_ge_cases (length coords) 3) as [Hshort|Hlong].
  { rewrite !addPrismFromPolygon_rejects by now left.
    symmetry. apply attach_empty_r. }
  destruct (Nat.lt_ge_cases 500 (length (cleanCoords coords)))
    as [Hbig|Hsmall].
  { rewrite !addPrismFromPolygon_rejects by now right.
    symmetry. apply attach_empty_r. }
  rewrite !addPrismFromPolygon_accepts by assumption.
  unfold attach. cbn [vertices faces empty app]. f_equal. f_equal.
  rewrite shiftFaces_app. unfold walls, caps, wall.
  rewrite !shiftFaces_flat_map. change (len (@nil Vertex)) with 0%Z.
  f_equal; apply flat_map_ext; intros i; cbn [shiftFaces map];
    same_faces.
Qed.

Lemma addPrismFromPolygonTriangulated_flat (this : Mesh)
    (coords : list Point) (z0 z1 : num) :
  triangulatePolygon (cleanCoords coords) = [] ->
  GeometryProcessor.addPrismFromPolygonTriangulated coords z0 z1 this = this.
Proof.
  intros Hnone. unfold GeometryProcessor.addPrismFromPolygonTriangulated.
  rewrite Hnone. change (len (@nil Face) =? 0)%Z with true.
  repeat match goal with
         | |- context [if ?c then this else _] => destruct c
         end; reflexivity.
Qed.

Lemma addPrismFromPolygonTriangulated_attach (this : Mesh)
    (coords : list Point) (z0 z1 : num) :
  GeometryProcessor.addPrismFromPolygonTriangulated coords z0 z1 this
  = attach this
      (GeometryProcessor.addPrismFromPolygonTriangulated coords z0 z1 empty).
Proof.
  destruct (Nat.lt_ge_cases (length coords) 3) as [Hshort|Hlong].
  { rewrite !addPrismFromPolygonTriangulated_rejects by now left.
    symmetry. apply attach_empty_r. }
  destruct (Nat.lt_ge_cases 1000 (length coords)) as [Hbig|Hsmall].
  { rewrite !addPrismFromPolygonTriangulated_rejects by (right; now left).
    symmetry. apply attach_empty_r. }
  destruct (Nat.lt_ge_cases (length (cleanCoords coords)) 3) as [Hfew|Hring].
  { rewrite !addPrismFromPolygonTriangulated_rejects by (right; now right).
    symmetry. apply attach_empty_r. }
  destruct (triangulatePolygon (cleanCoords coords)) as [|tri tris] eqn:Htri.
  { rewrite !addPrismFromPolygonTriangulated_flat by exact Htri.
    symmetry. apply attach_empty_r. }
  rewrite !addPrismFromPolygonTriangulated_accepts
    by (try assumption; rewrite Htri; discriminate).
  unfold attach. cbn [vertices faces empty app]. f_equal. f_equal.
  rewrite shiftFaces_app. unfold walls, caps, wall.
  rewrite !shiftFaces_flat_map. change (len (@nil Vertex)) with 0%Z.
  f_equal; apply flat_map_ext; intros i; cbn [shiftFaces map];
    same_faces.
Qed.

Lemma fold_attach {A : Type} (round : Mesh -> A -> Mesh) (items : list A) :
  (forall this x, round this x = attach this (round empty x)) ->
  forall this,
    fold_left round items this = attach this (fold_left round items empty).
Proof.
  intros Hround.
  induction items as [|x items IH]; intros this.
  - symmetry. apply attach_empty_r.
  - cbn [fold_left]. rewrite IH, (IH (round empty x)), Hround.
    apply attach_assoc.
Qed.

Lemma forEachM_attach {I : Type} (body : I -> Mesh -> option Mesh)
    (items : list I) :
  (forall i this, body i this = option_map (attach this) (body i empty)) ->
  forall this,
    forEachM body items this
    = option_map (attach this) (forEachM body items empty).
Proof.
  intros Hbody.
  induction items as [|i items IH]; intros this.
  - cbn. now rewrite attach_empty_r.
  - rewrite !forEachM_cons, Hbody.
    destruct (body i empty) as [d|]; [|reflexivity]. cbn [option_map].
    rewrite IH, (IH d).
    destruct (forEachM body items empty) as [rest|]; [|reflexivity].
    cbn [option_map]. now rewrite attach_assoc.
Qed.

Lemma buildingStep_attach (bbox : BBox) (config : Config) (scale : num)
    (feature : Feature) (this : Mesh) :
  buildingStep bbox config scale feature this
  = option_map (attach this) (buildingStep bbox config scale feature empty).
Proof.
  unfold buildingStep, OSMToSTL.addPrismFromPolygon.
  destruct (geometry feature) as [[|exterior rings]|line];
    [reflexivity| |cbn; now rewrite attach_empty_r].
  destruct (len exterior >? 500)%Z; [cbn; now rewrite attach_empty_r|].
  destruct (closeRing _) as [ring|]; [|reflexivity].
  cbn [option_map]. f_equal. apply addPrismFromPolygon_attach.
Qed.

Lemma areaStep_attach (bbox : BBox) (config : Config) (feature : Feature)
    (this : Mesh) :
  areaStep bbox config feature this
  = option_map (attach this) (areaStep bbox config feature empty).
Proof.
  unfold areaStep, OSMToSTL.addPrismFromPolygonTriangulated.
  destruct (geometry feature) as [[|exterior rings]|line];
    [reflexivity| |cbn; now rewrite attach_empty_r].
  destruct (closeRing _) as [ring|]; [|reflexivity].
  cbn [option_map]. f_equal. apply addPrismFromPolygonTriangulated_attach.
Qed.

Lemma roadStep_attach (bbox : BBox) (config : Config) (feature : Feature)
    (this : Mesh) :
  roadStep bbox config feature this
  = option_map (attach this) (roadStep bbox config feature empty).
Proof.
  unfold roadStep, OSMToSTL.addPrismFromPolygonTriangulated.
  destruct (geometry feature) as [rings|line];
    [cbn; now rewrite attach_empty_r|].
  destruct (len line >=? 2)%Z; [|cbn; now rewrite attach_empty_r].
  cbn [option_map]. f_equal. apply fold_attach.
  intros mesh quad.
  destruct (len quad <? 3)%Z; [symmetry; apply attach_empty_r|].
  match goal with
  | |- context [if ?c then _ else mesh] => destruct c
  end; [|symmetry; apply attach_empty_r].
  apply addPrismFromPolygonTriangulated_attach.
Qed.

Lemma stage_attach (enabled : bool) (step : Feature -> Mesh -> option Mesh)
    (features : list Feature) (this : Mesh) :
  (forall feature mesh,
     step feature mesh = option_map (attach mesh) (step feature empty)) ->
  (if enabled then forEachM step features this else Some this)
  = option_map (attach this)
      (if enabled then forEachM step features empty else Some empty).
Proof.
  intros Hstep. destruct enabled.
  - now apply forEachM_attach.
  - cbn. now rewrite attach_empty_r.
Qed.

End Composition.

(** X22. The combined mesh is the base plate followed by the meshes of
    the layers as [processLayer] builds them, first the buildings, then
    the roads, the greens and the water, a layer that is switched off
    counting as empty: the vertices are the same, and each face points at
    the vertices it points at in its layer.  The pipeline throws exactly
    when one of these layers does. *)
Theorem combined_mesh_is_base_and_layers :
  forall (N : Num) (buildings roads greens water : list OSMToSTL.Feature)
         (bbox : OSMToSTL.BBox) (config : OSMToSTL.Config),
    let layerOf (enabled : bool) features layerType :=
      if enabled
      then OSMToSTL.processLayer features bbox config layerType
      else Some empty in
    OSMToSTL.scaleCoordinates buildings roads greens water bbox config
    = match layerOf true buildings "buildings"%string,
            layerOf (OSMToSTL.includeRoads config) roads "roads"%string,
            layerOf (OSMToSTL.includeGreens config) greens "greens"%string,
            layerOf (OSMToSTL.includeWater config) water "water"%string with
      | Some b, Some r, Some g, Some w =>
          Some (attach
                  (attach
                     (attach
                        (attach
                           (createSolidBase (OSMToSTL.baseSizeOf config)
                              (OSMToSTL.baseThickness config)) b) r) g) w)
      | _, _, _, _ => None
      end.
Proof.
  intros N buildings roads greens water bbox config layerOf. subst layerOf.
  cbv beta. rewrite scaleCoordinates_stages, !processLayer_loops.
  change (String.eqb "buildings" "buildings") with true.
  change (String.eqb "roads" "buildings") with false.
  change (String.eqb "roads" "roads") with true.
  change (String.eqb "greens" "buildings") with false.
  change (String.eqb "greens" "roads") with false.
  change (String.eqb "greens" "greens") with true.
  change (String.eqb "water" "buildings") with false.
  change (String.eqb "water" "roads") with false.
  change (String.eqb "water" "water") with true.
  cbv iota. rewrite orb_true_r. cbn [orb]. cbv iota.
  rewrite (forEachM_attach _ buildings (buildingStep_attach _ _ _)).
  destruct (OSMToSTL.forEachM _ buildings empty) as [b|];
    [cbn [option_map]|reflexivity].
  rewrite (stage_attach (OSMToSTL.includeRoads config) _ roads _
             (roadStep_attach _ _)).
  destruct (if OSMToSTL.includeRoads config then _ else _) as [r|];
    [cbn [option_map]|reflexivity].
  rewrite (stage_attach (OSMToSTL.includeGreens config) _ greens _
             (areaStep_attach _ _)).
  destruct (if OSMToSTL.includeGreens config then _ else _) as [g|];
    [cbn [option_map]|reflexivity].
  rewrite (stage_attach (OSMToSTL.includeWater config) _ water _
             (areaStep_attach _ _)).
  destruct (if OSMToSTL.includeWater config then _ else _) as [w|];
    reflexivity.
Qed.

(** ** The orientation of the base plate *)

Section Orientation.
Context `{Num}.

Lemma base_edges (baseSize baseThickness : num) :
  In (0, 1)%Z (meshEdges (faces (createSolidBase baseSize baseThickness)))
  /\ ~ In (1, 0)%Z
         (meshEdges (faces (createSolidBase baseSize baseThickness))).
Proof.
  split; [now left|].
  cbn. intros Hin.
  repeat (destruct Hin as [Hin|Hin]; [discriminate Hin|]). exact Hin.
Qed.

Lemma new_edges_are_new (count : Z) (newFaces : list Face) (a b : Z) :
  Forall (Forall (fun i => (count <= i)%Z)) newFaces ->
  In (a, b) (meshEdges newFaces) -> (count <= a /\ count <= b)%Z.
Proof.
  intros Hnew Hin. unfold meshEdges in Hin.
  apply in_flat_map in Hin as (face & Hface & Hedge).
  pose proof (proj1 (List.Forall_forall _ _) Hnew face Hface) as Hidx.
  destruct face as [|i [|j [|k [|l face]]]]; try (now destruct Hedge).
  inversion Hidx as [|? ? Hi Hjk]; subst.
  inversion Hjk as [|? ? Hj Hk']; subst.
  inversion Hk' as [|? ? Hk _]; subst.
  cbn in Hedge.
  destruct Hedge as [[= <- <-]|[[= <- <-]|[[= <- <-]|[]]]]; lia.
Qed.

Lemma appended_to_base_not_closed (baseSize baseThickness : num)
    (mesh : Mesh) :
  appendsTo (createSolidBase baseSize baseThickness) mesh ->
  In (0, 1)%Z (meshEdges (faces mesh))
  /\ ~ In (1, 0)%Z (meshEdges (faces mesh)).
Proof.
  intros (newVertices & newFaces & _ & Hfaces & Hnew).
  rewrite Hfaces, meshEdges_app.
  destruct (base_edges baseSize baseThickness) as [Hin Hout].
  split; [apply in_or_app; now left|].
  intros Hboth. apply in_app_or in Hboth as [Hbase|Hlater].
  - now apply Hout.
  - apply (new_edges_are_new 8) in Hlater; [lia|].
    eapply List.Forall_impl; [|exact Hnew].
    intros face. apply List.Forall_impl. intros i.
    change (len (vertices (createSolidBase baseSize baseThickness)))
      with 8%Z. lia.
Qed.

End Orientation.

(** X23. The faces of the base plate are not wound consistently: the
    edge from vertex 0 to vertex 1 is run through by the side face
    (0, 1, 5) and by the bottom face (0, 1, 2), and no face runs through
    it from 1 to 0.  The later steps only append faces over new vertices,
    so no mesh that the combined pipeline returns is a surface in which
    each edge is run through in both directions. *)
Theorem combined_mesh_is_not_a_closed_surface :
  (forall (N : Num) (baseSize baseThickness : num),
     In (0, 1)%Z (meshEdges (faces (createSolidBase baseSize baseThickness)))
     /\ ~ In (1, 0)%Z
            (meshEdges (faces (createSolidBase baseSize baseThickness))))
  /\ (forall (N : Num) (buildings roads greens water : list OSMToSTL.Feature)
             (bbox : OSMToSTL.BBox) (config : OSMToSTL.Config) (mesh : Mesh),
        OSMToSTL.scaleCoordinates buildings roads greens water bbox config
        = Some mesh ->
        In (0, 1)%Z (meshEdges (faces mesh))
        /\ ~ In (1, 0)%Z (meshEdges (faces mesh))
        /\ ~ closedSurface (faces mesh)).
Proof.
  split; [intros N; apply base_edges|].
  intros N buildings roads greens water bbox config mesh Hmesh.
  set (base := createSolidBase (OSMToSTL.baseSizeOf config)
                 (OSMToSTL.baseThickness config)).
  assert (Happ : appendsTo base mesh).
  { refine (scaleCoordinates_preserves (appendsTo base) _ _
              buildings roads greens water bbox config mesh _ Hmesh).
    - intros coords z0 z1 this Happ.
      eapply appendsTo_trans; [exact Happ|].
      apply addPrismFromPolygon_appends.
    - intros coords z0 z1 this Happ.
      eapply appendsTo_trans; [exact Happ|].
      apply addPrismFromPolygonTriangulated_appends.
    - apply appendsTo_refl. }
  destruct (appended_to_base_not_closed _ _ mesh Happ) as [Hin Hout].
  split; [exact Hin|]. split; [exact Hout|].
  intros Hclosed. apply Hout. now apply Hclosed.
Qed.

(** X23 on the three buildings of the example. *)
Lemma combined_mesh_is_not_a_closed_surface_sample :
  exists mesh,
    OSMToSTL.scaleCoordinates
      [Sample.building "10"; Sample.building "20"; Sample.building "40"]
      [] [] [] Sample.unitBox (Sample.config 20) = Some mesh
    /\ ~ closedSurface (faces mesh).
Proof.
  assert (Hwf : Forall wellFormed
            [Sample.building "10"; Sample.building "20";
             Sample.building "40"])
    by (repeat constructor; discriminate).
  destruct (proj2 (scaleCoordinates_some_iff
                     [Sample.building "10"; Sample.building "20";
                      Sample.building "40"]
                     [] [] [] Sample.unitBox (Sample.config 20))
              (conj Hwf (conj (fun _ => List.Forall_nil _)
                                (fun _ => List.Forall_nil _))))
    as [mesh Hmesh].
  exists mesh. split; [exact Hmesh|].
  exact (proj2 (proj2 (proj2 combined_mesh_is_not_a_closed_surface
                         Double _ _ _ _ _ _ mesh Hmesh))).
Defined.

(** ** The fan helper *)

Lemma fanTriangulate_fan (loopIndices : list Z) (facesOut : list Face) :
  fanTriangulate loopIndices facesOut
  = facesOut ++ map (map (item 0%Z loopIndices)) (fan (len loopIndices)).
Proof.
  unfold fanTriangulate, fan.
  destruct (Z.ltb_spec (len loopIndices) 3) as [Hfew|Hmany].
  - rewrite forRange_empty by lia. cbn. now rewrite app_nil_r.
  - f_equal. rewrite map_map. reflexivity.
Qed.

Lemma item_forRange (k i : Z) :
  (0 <= i < k)%Z -> item 0%Z (forRange 0 k) i = i.
Proof.
  intros Hi. unfold item.
  apply nth_error_nth.
  rewrite forRange_nth_error by lia. f_equal. lia.
Qed.

(** X24. [fanTriangulate] appends to [facesOut] the fan over the loop of
    indices, the triangles (loop[0], loop[i], loop[i+1]), and nothing for
    a loop of fewer than three indices.  For a ring of at most 1000 points
    as given, of which k are left after the cleanup, 3 <= k <= 1000,
    [triangulatePolygon] returns what [fanTriangulate] gives on the loop
    0 .. k-1 and an empty output. *)
Theorem fanTriangulate_is_the_fan :
  (forall (loopIndices : list Z) (facesOut : list Face),
     fanTriangulate loopIndices facesOut
     = facesOut ++ map (map (item 0%Z loopIndices)) (fan (len loopIndices)))
  /\ (forall (N : Num) (coords : list Point),
        let k := length (cleanCoords coords) in
        (3 <= k <= 1000)%nat -> (length coords <= 1000)%nat ->
        triangulatePolygon coords
        = fanTriangulate (forRange 0 (Z.of_nat k)) []).
Proof.
  split; [apply fanTriangulate_fan|].
  intros N coords k Hk Hraw.
  rewrite fanTriangulate_fan. cbn [app].
  rewrite triangulatePolygon_accepts by (fold k; lia).
  change (len (cleanCoords coords)) with (Z.of_nat k).
  replace (len (forRange 0 (Z.of_nat k))) with (Z.of_nat k)
    by (unfold len; rewrite length_forRange; lia).
  symmetry. erewrite map_ext_in; [apply map_id|].
  intros tri Htri. apply In_fan in Htri as (i & -> & Hi).
  cbn [map]. rewrite !item_forRange by lia. reflexivity.
Qed.
